(** * experiment/data_properties.py

    Label reduction, RMSE join and group comparison of the diagnostic
    tables of cryptocurrency log returns.

    Data frames are lists of records, one record type per table the script
    handles; the tables of prediction errors also carry the names of
    their error columns.  The calls into pandas that the script makes
    (groupby, pivot, reset_index, concat, merge, unique, str.replace) are
    modelled by the list functions of the first part; the analysis
    functions follow, first the table transformations and then the
    functions themselves with their file reads, statistics calls and
    prints. *)

From Stdlib Require Import String Ascii List ZArith QArith Bool Arith Lia Permutation.
From Stdlib Require Import Sorted.
Import ListNotations.
Local Open Scope string_scope.
Local Open Scope list_scope.

Set Implicit Arguments.

(** ** Group keys *)

(** Values a table is grouped, sorted or joined on.  [key_leb] is the order
    pandas sorts group keys in: code-point order on strings and the
    lexicographic order on tuples of keys. *)
Class GroupKey (K : Type) := {
  key_eqb : K -> K -> bool;
  key_leb : K -> K -> bool
}.

#[export] Instance string_key : GroupKey string := {|
  key_eqb := String.eqb;
  key_leb := String.leb
|}.

#[export] Instance pair_key (A B : Type) `{GroupKey A} `{GroupKey B} : GroupKey (A * B) := {|
  key_eqb p q := key_eqb (fst p) (fst q) && key_eqb (snd p) (snd q);
  key_leb p q := if key_eqb (fst p) (fst q) then key_leb (snd p) (snd q)
                 else key_leb (fst p) (fst q)
|}.

(** [key_eqb] decides equality of keys. *)
Class GroupKeyLaws (K : Type) `{GroupKey K} := {
  key_eqb_eq : forall a b : K, key_eqb a b = true <-> a = b
}.
Arguments GroupKeyLaws K {_}.

(** The (Coin, Time Frame) pair every table is keyed by. *)
Definition Key : Type := string * string.

(** ** pandas operations *)

Module Pandas.

Section Keyed.
Context {K : Type} `{GroupKey K}.

(** [Series.unique]: the distinct values in order of first appearance. *)
Fixpoint unique (l : list K) : list K :=
  match l with
  | [] => []
  | x :: t => x :: filter (fun y => negb (key_eqb x y)) (unique t)
  end.

Fixpoint insert_sorted (x : K) (l : list K) : list K :=
  match l with
  | [] => [x]
  | y :: t => if key_leb x y then x :: l else y :: insert_sorted x t
  end.

Definition sort (l : list K) : list K := fold_right insert_sorted [] l.

(** The group keys of a groupby or the index of a pivot: distinct and
    sorted. *)
Definition sorted_keys (l : list K) : list K := sort (unique l).

(** The rows of a table whose key is [k]. *)
Definition select {A : Type} (key : A -> K) (k : K) (df : list A) : list A :=
  filter (fun r => key_eqb (key r) k) df.

(** [df.groupby(keys).size()]: one entry per observed key, in sorted
    order, with the number of rows of the group. *)
Definition groupby_size {A : Type} (key : A -> K) (df : list A) : list (K * Z) :=
  map (fun k => (k, Z.of_nat (length (select key k df)))) (sorted_keys (map key df)).

(** [pd.merge(left, right, how="inner", on=key)]: the order of the left
    rows is kept, each left row is paired with every right row of the
    same key. *)
Definition merge_inner {A B : Type} (ka : A -> K) (kb : B -> K)
    (left : list A) (right : list B) : list (A * B) :=
  flat_map (fun a => map (pair a) (select kb (ka a) right)) left.

(** [pd.merge(left, right, how="outer", on=key)]: the union of the keys,
    sorted; a key of one side only has a null on the other side. *)
Definition merge_outer {A B : Type} (ka : A -> K) (kb : B -> K)
    (left : list A) (right : list B) : list (K * option A * option B) :=
  flat_map (fun k =>
    match select ka k left, select kb k right with
    | [], rs => map (fun b => (k, None, Some b)) rs
    | ls, [] => map (fun a => (k, Some a, None)) ls
    | ls, rs => flat_map (fun a => map (fun b => (k, Some a, Some b)) rs) ls
    end) (sorted_keys (map ka left ++ map kb right)).
End Keyed.

(** [mean] aggregation of a pivot cell. *)
Definition mean (l : list Z) : Q :=
  Qmake (fold_right Z.add 0%Z l) (Pos.of_nat (length l)).

(** A pivot table: the index entries, the column labels and, per index
    entry, the cells in column order. *)
Record Pivot (I : Type) := {
  pv_columns : list string;
  pv_rows : list (I * list Q)
}.

Section PivotTable.
Context {I : Type} `{GroupKey I}.

(** [pivot_table(index=.., columns=.., values=.., fill_value=fill)] with
    the default aggregation (mean) over a table of (index, column, value)
    entries. *)
Definition pivot_table (fill : Q) (df : list (I * string * Z)) : Pivot I :=
  let index := sorted_keys (map (fun r => fst (fst r)) df) in
  let columns := sorted_keys (map (fun r => snd (fst r)) df) in
  let cell i c :=
    match select (fun r => fst r) (i, c) df with
    | [] => fill
    | rs => mean (map snd rs)
    end in
  {| pv_columns := columns;
     pv_rows := map (fun i => (i, map (cell i) columns)) index |}.
End PivotTable.

Fixpoint index_of (c : string) (cols : list string) : option nat :=
  match cols with
  | [] => None
  | x :: t => if String.eqb x c then Some O else option_map S (index_of c t)
  end.

(** [pivot_df[c]]: the column, or nothing when the table has no column
    [c] (KeyError). *)
Definition column {I : Type} (c : string) (pv : Pivot I) : option (list Q) :=
  match index_of c (pv_columns pv) with
  | None => None
  | Some i => Some (map (fun r => nth i (snd r) 0%Q) (pv_rows pv))
  end.

(** [str.replace(pat, repl)] on one string: the occurrences of [pat] are
    replaced from the left, without overlap. *)
Fixpoint prefixb (p s : string) : bool :=
  match p, s with
  | EmptyString, _ => true
  | String a p', String b s' => Ascii.eqb a b && prefixb p' s'
  | String _ _, EmptyString => false
  end.

Fixpoint replace_from (pat repl : string) (skip : nat) (s : string) : string :=
  match s with
  | EmptyString => EmptyString
  | String c s' =>
      match skip with
      | S k => replace_from pat repl k s'
      | O => if prefixb pat s
             then repl ++ replace_from pat repl (String.length pat - 1) s'
             else String c (replace_from pat repl 0 s')
      end
  end.

Fixpoint intersperse (repl s : string) : string :=
  match s with
  | EmptyString => repl
  | String c s' => repl ++ String c (intersperse repl s')
  end.

Definition str_replace (pat repl s : string) : string :=
  match pat with
  | EmptyString => intersperse repl s
  | _ => replace_from pat repl 0 s
  end.

End Pandas.

(** ** collections.Counter *)

Module Counter.

(** A counter keeps its keys in the order they were first seen. *)
Definition t : Type := list (string * nat).

Fixpoint add (x : string) (c : t) : t :=
  match c with
  | [] => [(x, 1%nat)]
  | (y, n) :: rest => if String.eqb y x then (y, S n) :: rest else (y, n) :: add x rest
  end.

Definition of_list (row : list string) : t :=
  fold_left (fun c x => add x c) row [].

(** [max(items, key=count)]: the first entry among those of highest count. *)
Fixpoint max_from (best : string * nat) (c : t) : string * nat :=
  match c with
  | [] => best
  | e :: rest => if (snd best <? snd e)%nat then max_from e rest else max_from best rest
  end.

(** [most_common(1)]: a list of at most one entry. *)
Definition most_common_1 (c : t) : list (string * nat) :=
  match c with
  | [] => []
  | e :: rest => [max_from e rest]
  end.

End Counter.

(** ** Exceptions and the analysis monad *)

Inductive exn : Type :=
| FileNotFoundError (path : string)
| ParserError (path : string)
| KeyError (key : string)
| IndexError
| ValueError (msg : string)
| AttributeError (msg : string)
| LibraryError (msg : string).

(** A computation that may raise. *)
Definition result (A : Type) : Type := (exn + A)%type.

Definition ok {A : Type} (a : A) : result A := inr a.
Definition raise {A : Type} (e : exn) : result A := inl e.

Definition rbind {A B : Type} (m : result A) (f : A -> result B) : result B :=
  match m with
  | inl e => inl e
  | inr a => f a
  end.

Fixpoint rmap {A B : Type} (f : A -> result B) (l : list A) : result (list B) :=
  match l with
  | [] => ok []
  | x :: t => rbind (f x) (fun y => rbind (rmap f t) (fun ys => ok (y :: ys)))
  end.

(** Python dictionaries with string keys: an assignment to a key that is
    present keeps the position of the key. *)
Fixpoint dict_set {V : Type} (k : string) (v : V) (d : list (string * V)) : list (string * V) :=
  match d with
  | [] => [(k, v)]
  | (k', v') :: rest =>
      if String.eqb k' k then (k', v) :: rest else (k', v') :: dict_set k v rest
  end.

Fixpoint dict_get {V : Type} (k : string) (d : list (string * V)) : option V :=
  match d with
  | [] => None
  | (k', v) :: rest => if String.eqb k' k then Some v else dict_get k rest
  end.

(** ** Tables *)

(** The tables are those of files whose key and outcome cells are all
    filled in with text; only the columns the script reads are kept. *)

(** A table with error columns: the names of these columns, one per
    forecasting model, and the rows.  The key and label columns are the
    fields of the rows, and no error column is named like one of them.  A
    table is used as the list of its rows wherever only the rows matter. *)
Record Frame (Row : Type) := {
  model_columns : list string;
  frame_rows :> list Row
}.

(** [df[mask]]: the rows that satisfy a condition, under the same columns. *)
Definition rows_where {Row : Type} (mask : Row -> bool) (df : Frame Row) : Frame Row :=
  {| model_columns := model_columns df; frame_rows := filter mask df |}.

(** A row of [{test_type}_log_returns.csv]: one outcome of one run of an
    autocorrelation test. *)
Record DiagnosticRecord := {
  diag_coin : string;
  diag_time_frame : string;
  diag_result : string
}.

(** A row of the table [high_auto_cor] returns. *)
Record PredominantlyRecord := {
  pred_coin : string;
  pred_time_frame : string;
  Predominantly : string
}.

(** A row with one reduced label. *)
Record LabeledRecord := {
  Coin : string;
  Time_Frame : string;
  Result : string
}.

(** A row of [trend_results_log_returns.csv]: the two key columns followed
    by one column per trend test. *)
Record TrendRecord := {
  trend_coin : string;
  trend_time_frame : string;
  trend_tests : list string
}.

(** A row of [unconditional_heteroskedasticity_log_returns.csv]. *)
Record HetRecord := {
  het_coin : string;
  het_time_frame : string;
  Breusch_Pagan : string;
  Goldfeld_Quandt : string
}.

Definition Autocorrelated : string := "Autocorrelated".
Definition Not_Autocorrelated : string := "Not Autocorrelated".

Definition diag_key (r : DiagnosticRecord) : Key := (diag_coin r, diag_time_frame r).
Definition pred_key (r : PredominantlyRecord) : Key := (pred_coin r, pred_time_frame r).
Definition labeled_key (r : LabeledRecord) : Key := (Coin r, Time_Frame r).
Definition trend_key (r : TrendRecord) : Key := (trend_coin r, trend_time_frame r).
Definition het_key (r : HetRecord) : Key := (het_coin r, het_time_frame r).

(** ** high_auto_cor, lines 19-33 *)

(** [df.groupby(["Coin", "Time Frame", "Result"]).size().reset_index(name="Count")] *)
Definition grouped_df (df : list DiagnosticRecord) : list (Key * string * Z) :=
  Pandas.groupby_size (fun r => (diag_key r, diag_result r)) df.

(** [grouped_df.pivot_table(index=["Coin", "Time Frame"], columns="Result",
    values="Count", fill_value=0)] *)
Definition pivot (df : list DiagnosticRecord) : Pandas.Pivot Key :=
  Pandas.pivot_table 0%Q (grouped_df df).

(** [DataFrame.reset_index()]: the levels of the index become columns,
    inserted from the last level to the first; a level whose name is
    already a column cannot be inserted.  The rows keep their index
    entries in front of their cells. *)
Definition reset_index {I : Type} (levels : list string) (pv : Pandas.Pivot I) :
    result (Pandas.Pivot I) :=
  match find (fun level => existsb (String.eqb level) (Pandas.pv_columns pv)) (rev levels) with
  | Some level => raise (ValueError ("cannot insert " ++ level ++ ", already exists"))
  | None => ok pv
  end.

Definition pivot_df (df : list DiagnosticRecord) : result (Pandas.Pivot Key) :=
  reset_index ["Coin"; "Time Frame"] (pivot df).

(** [np.where(pivot_df["Autocorrelated"] > 49, "Autocorrelated", "Not Autocorrelated")] *)
Definition predominantly (count : Q) : string :=
  if Qle_bool count 49%Q then Not_Autocorrelated else Autocorrelated.

Definition high_auto_cor_table (df : list DiagnosticRecord) : result (list PredominantlyRecord) :=
  rbind (pivot_df df) (fun pv =>
  match Pandas.column Autocorrelated pv with
  | None => raise (KeyError Autocorrelated)
  | Some counts =>
      ok (map (fun rc => {| pred_coin := fst (fst (fst rc));
                            pred_time_frame := snd (fst (fst rc));
                            Predominantly := predominantly (snd rc) |})
              (combine (Pandas.pv_rows pv) counts))
  end).

(** ** auto_correlation, lines 67-81 *)

Definition is_label (l : string) (cell : option PredominantlyRecord) : bool :=
  match cell with
  | Some r => String.eqb (Predominantly r) l
  | None => false
  end.

Definition overlap (ljung breusch : list PredominantlyRecord) : list LabeledRecord :=
  map (fun row =>
         {| Coin := fst (fst (fst row));
            Time_Frame := snd (fst (fst row));
            Result := if is_label Autocorrelated (snd (fst row))
                         && is_label Autocorrelated (snd row)
                      then Autocorrelated else Not_Autocorrelated |})
      (Pandas.merge_outer pred_key pred_key ljung breusch).

(** ** find_majority and trend, lines 99-122 *)

Definition find_majority (row : list string) : result string :=
  match Counter.most_common_1 (Counter.of_list row) with
  | (most_common_result, freq) :: _ => ok most_common_result
  | [] => raise IndexError
  end.

(** The cells of a row of the trend table, in column order. *)
Definition trend_cells (r : TrendRecord) : list string :=
  trend_coin r :: trend_time_frame r :: trend_tests r.

(** Lines 121-122 on one label, then on the column. *)
Definition fold_direction (label : string) : string :=
  Pandas.str_replace "decreasing" "trend" (Pandas.str_replace "increasing" "trend" label).

Definition fold_directions (column : list string) : list string :=
  map fold_direction column.

(** Lines 115-122.  On a table without rows [apply] has no row to call
    [find_majority] on and gives a column of floats, which has no [.str]:
    line 121 raises. *)
Definition trend_table (df : list TrendRecord) : result (list LabeledRecord) :=
  rbind (rmap (fun r => find_majority (trend_cells r)) df) (fun results =>
  match results with
  | [] => raise (AttributeError "Can only use .str accessor with string values!")
  | _ => ok (map (fun rl => {| Coin := trend_coin (fst rl);
                               Time_Frame := trend_time_frame (fst rl);
                               Result := snd rl |})
                 (combine df (fold_directions results)))
  end).

(** ** Configuration, files and the statistics library *)

(** The settings module [config]. *)
Record Config := {
  statistics_dir : string;
  timeframes : list string;
  all_models : list string;
  log_returns_pred : string
}.

Section Analysis.
(** Floating-point cells (prediction errors, seasonal strengths,
    p-values): the script only moves them around. *)
Variable F : Type.
(** What [mannwhitneyu] and [anova_lm] return. *)
Variables MannwhitneyuResult AnovaTable : Type.

(** A row of the table [read_rmse_csv] returns: indexed by coin, one
    column per forecasting model.  A row lists its cells by column. *)
Record RmseRecord := {
  rmse_index : string;
  rmse_values : list (string * F)
}.

(** A row of the RMSE tables of [merge_rmse], with the two columns that
    lines 45 and 48 add. *)
Record ErrorRecord := {
  err_coin : string;
  err_time_frame : string;
  err_values : list (string * F)
}.

(** A row of [stl_seasonality_log_returns.csv]. *)
Record SeasonalityRecord := {
  seas_coin : string;
  seas_time_frame : string;
  Seasonal_Strength : F
}.

Definition err_key (r : ErrorRecord) : Key := (err_coin r, err_time_frame r).
Definition seas_key (r : SeasonalityRecord) : Key := (seas_coin r, seas_time_frame r).

(** A statistical test handed to the statistics library, with the model
    of the loop iteration that hands it over. *)
Inductive test_call : Type :=
| Mannwhitneyu (model column : string) (groups : list (list F))
| AnovaLm (model formula : string)
| Ols (model : string) (y x : list F).

Inductive output : Type :=
| PrintResults (results : list (string * MannwhitneyuResult))
| PrintAnova (model : string) (table : AnovaTable)
| PrintPValues (results : list (string * F))
| PrintValueCounts (counts : list (string * Z)).

Inductive event : Type :=
| Test (call : test_call)
| Print (o : output).

(** What the script reads and calls: [pd.read_csv] at each row type,
    [experiment.rmse.read_rmse_csv] (with [avg=True]) and the statistics
    routines.  Each of them returns or raises.  [nan] is the float that
    pandas puts in a cell without a value. *)
Record Env := {
  config : Config;
  nan : F;
  read_diagnostic_csv : string -> result (list DiagnosticRecord);
  read_trend_csv : string -> result (list TrendRecord);
  read_het_csv : string -> result (list HetRecord);
  read_labeled_csv : string -> result (list LabeledRecord);
  read_seasonality_csv : string -> result (list SeasonalityRecord);
  read_rmse_csv : string -> string -> result (Frame RmseRecord);
  mannwhitneyu : list (list F) -> result MannwhitneyuResult;
  anova_lm : string -> Frame (LabeledRecord * ErrorRecord) -> result AnovaTable;
  ols_pvalue : list F -> list F -> result F
}.

(** An analysis: the tests handed over and the reports printed so far,
    and the value returned or the exception raised. *)
Definition M (A : Type) : Type := (list event * result A)%type.

Definition ret {A : Type} (a : A) : M A := ([], ok a).

Definition bind {A B : Type} (m : M A) (f : A -> M B) : M B :=
  match snd m with
  | inl e => (fst m, inl e)
  | inr a => (fst m ++ fst (f a), snd (f a))
  end.

Definition lift {A : Type} (r : result A) : M A := ([], r).

Definition emit (e : event) : M unit := ([e], ok tt).

Definition call {A : Type} (c : test_call) (r : result A) : M A := ([Test c], r).

Notation "x <- m ;; k" := (bind m (fun x => k))
  (at level 61, m at next level, right associativity).
Notation "m ;;; k" := (bind m (fun _ => k))
  (at level 61, right associativity).

Variable env : Env.

Definition csv (name : string) : string :=
  statistics_dir (config env) ++ "/" ++ name ++ ".csv".

(** *** high_auto_cor *)
Definition high_auto_cor (test_type : string) : M (list PredominantlyRecord) :=
  df <- lift (read_diagnostic_csv env (csv (test_type ++ "_log_returns"))) ;;
  lift (high_auto_cor_table df).

(** *** merge_rmse *)

(** Lines 45 and 48 on a row of the RMSE table of a time frame: the row
    is tagged with the time frame and with the coin of its index. *)
Definition tagged (time_frame : string) (r : RmseRecord) : ErrorRecord :=
  {| err_coin := rmse_index r; err_time_frame := time_frame; err_values := rmse_values r |}.

(** Lines 40-50. *)
Definition rmse_frame (time_frame : string) : result (Frame ErrorRecord) :=
  rbind (read_rmse_csv env (log_returns_pred (config env)) time_frame) (fun rmse_df =>
  ok {| model_columns := model_columns rmse_df;
        frame_rows := map (tagged time_frame) rmse_df |}).

(** The cell of a row in a column; a cell that the row does not list has
    no value. *)
Definition cell (values : list (string * F)) (column : string) : F :=
  match dict_get column values with
  | Some v => v
  | None => nan env
  end.

(** A row of a table with the columns [frame_columns], laid out on the
    columns of the concatenated table: it has no value in the columns
    that its own table does not have. *)
Definition reindex (columns frame_columns : list string) (r : ErrorRecord) : ErrorRecord :=
  {| err_coin := err_coin r;
     err_time_frame := err_time_frame r;
     err_values := map (fun c => (c, if existsb (String.eqb c) frame_columns
                                     then cell (err_values r) c else nan env))
                       columns |}.

(** [pd.concat(rmse_dfs, axis=0, ignore_index=True)]: the columns are the
    union of the columns of the tables, in order of first appearance, and
    the rows are the rows of the tables, one table after the other. *)
Definition pd_concat (rmse_dfs : list (Frame ErrorRecord)) : result (Frame ErrorRecord) :=
  match rmse_dfs with
  | [] => raise (ValueError "No objects to concatenate")
  | _ =>
      let columns := Pandas.unique (flat_map (fun rmse_df => model_columns rmse_df) rmse_dfs) in
      ok {| model_columns := columns;
            frame_rows := flat_map (fun rmse_df : Frame ErrorRecord =>
                                      map (reindex columns (model_columns rmse_df)) rmse_df)
                                   rmse_dfs |}
  end.

(** Lines 38-53. *)
Definition rmse_table : result (Frame ErrorRecord) :=
  rbind (rmap rmse_frame (timeframes (config env))) pd_concat.

Definition merge_rmse {A : Type} (key : A -> Key) (df : list A) : M (Frame (A * ErrorRecord)) :=
  rmse_df <- lift rmse_table ;;
  ret {| model_columns := model_columns rmse_df;
         frame_rows := Pandas.merge_inner key err_key df rmse_df |}.

(** *** The comparison loops *)

(** The cells of the rows in the column of a model.  A table has a cell
    in each of its columns on every row; a row that lists no cell of the
    column is refused like a table without the column. *)
Definition model_column {A : Type} (model : string) (df : list (A * ErrorRecord)) : result (list F) :=
  rmap (fun r => match dict_get model (err_values (snd r)) with
                 | Some v => ok v
                 | None => raise (KeyError model)
                 end) df.

(** [df[model]] on the joined table: the table must have the column,
    whether it has rows or not. *)
Definition error_column {A : Type} (model : string) (df : Frame (A * ErrorRecord)) : result (list F) :=
  if existsb (String.eqb model) (model_columns df)
  then model_column model df
  else raise (KeyError model).

(** [[df[df[column] == result][model] for result in df[column].unique()]] *)
Definition groups_of {A : Type} (label : A -> string) (model : string)
    (df : Frame (A * ErrorRecord)) : result (list (list F)) :=
  rmap (fun result =>
          error_column model (rows_where (fun r => String.eqb (label (fst r)) result) df))
       (Pandas.unique (map (fun r => label (fst r)) df)).

(** [for model in config.all_models: results[model] = body(model)] *)
Fixpoint for_models {V : Type} (body : string -> M V) (models : list string)
    (results : list (string * V)) : M (list (string * V)) :=
  match models with
  | [] => ret results
  | model :: rest =>
      v <- body model ;;
      for_models body rest (dict_set model v results)
  end.

Definition mannwhitneyu_by {A : Type} (column : string) (label : A -> string)
    (df : Frame (A * ErrorRecord)) : M (list (string * MannwhitneyuResult)) :=
  for_models (fun model =>
      groups <- lift (groups_of label model df) ;;
      call (Mannwhitneyu model column groups) (mannwhitneyu env groups))
    (all_models (config env)) [].

(** *** anova *)
Definition dquote : string := String "034"%char EmptyString.

Definition anova_formula (model : string) : string :=
  model ++ " ~ C(Result) + C(Q(" ++ dquote ++ "Time Frame" ++ dquote
        ++ ")) + C(Result):C(Q(" ++ dquote ++ "Time Frame" ++ dquote ++ "))".

Fixpoint anova_loop (df : Frame (LabeledRecord * ErrorRecord)) (models : list string) : M unit :=
  match models with
  | [] => ret tt
  | model :: rest =>
      let formula := anova_formula model in
      table <- call (AnovaLm model formula) (anova_lm env formula df) ;;
      emit (Print (PrintAnova model table)) ;;;
      anova_loop df rest
  end.

Definition anova (df : Frame (LabeledRecord * ErrorRecord)) : M unit :=
  anova_loop df (all_models (config env)).

(** *** auto_correlation *)
Definition auto_correlation : M unit :=
  ljung <- high_auto_cor "Ljung-Box" ;;
  breusch <- high_auto_cor "Breusch-Godfrey" ;;
  df <- merge_rmse labeled_key (overlap ljung breusch) ;;
  anova df.

(** *** trend *)
Definition trend : M unit :=
  df <- lift (read_trend_csv env (csv "trend_results_log_returns")) ;;
  df <- lift (trend_table df) ;;
  df <- merge_rmse labeled_key df ;;
  results <- mannwhitneyu_by "Result" Result df ;;
  emit (Print (PrintResults results)).

(** *** seasonality *)
Definition seasonality : M unit :=
  df <- lift (read_seasonality_csv env (csv "stl_seasonality_log_returns")) ;;
  df <- merge_rmse seas_key df ;;
  results <- for_models (fun forecasting_model =>
      let X := map (fun r => Seasonal_Strength (fst r)) df in
      y <- lift (error_column forecasting_model df) ;;
      call (Ols forecasting_model y X) (ols_pvalue env y X))
    (all_models (config env)) [] ;;
  emit (Print (PrintPValues results)).

(** *** heteroskedasticity *)
Definition uncon_het : M unit :=
  df <- lift (read_het_csv env (csv "unconditional_heteroskedasticity_log_returns")) ;;
  df <- merge_rmse het_key df ;;
  breusch_results <- mannwhitneyu_by "Breusch-Pagan" Breusch_Pagan df ;;
  goldfeld_results <- mannwhitneyu_by "Goldfeld-Quandt" Goldfeld_Quandt df ;;
  emit (Print (PrintResults breusch_results)) ;;;
  emit (Print (PrintResults goldfeld_results)).

Definition heteroskedasticity : M unit := uncon_het.

(** The column of [cond_heteroskedasticity_log_returns.csv] that holds
    the label is named [result]. *)
Definition cond_het : M unit :=
  df <- lift (read_labeled_csv env (csv "cond_heteroskedasticity_log_returns")) ;;
  df <- merge_rmse labeled_key df ;;
  results <- mannwhitneyu_by "result" Result df ;;
  emit (Print (PrintResults results)).

Definition correlation : M unit := ret tt.

(** *** stochasticity *)

(** [Series.value_counts()]: the distinct values with their counts, the
    most frequent first; values of equal count in order of first
    appearance. *)
Fixpoint insert_count (e : string * Z) (l : list (string * Z)) : list (string * Z) :=
  match l with
  | [] => [e]
  | x :: t => if (snd x <=? snd e)%Z then e :: l else x :: insert_count e t
  end.

Definition value_counts (column : list string) : list (string * Z) :=
  fold_right insert_count []
    (map (fun v => (v, Z.of_nat (length (Pandas.select (fun x => x) v column))))
         (Pandas.unique column)).

Definition stochasticity : M unit :=
  df <- lift (read_labeled_csv env (csv "hurst_log_returns")) ;;
  emit (Print (PrintValueCounts (value_counts (map Result df)))) ;;;
  df <- merge_rmse labeled_key df ;;
  results <- mannwhitneyu_by "Result" Result df ;;
  emit (Print (PrintResults results)).

(** *** Reading a run *)

(** The tests of a run that were handed over in the iteration of [model]. *)
Definition call_model (c : test_call) : string :=
  match c with
  | Mannwhitneyu model _ _ => model
  | AnovaLm model _ => model
  | Ols model _ _ => model
  end.

Definition tests_of (model : string) (trace : list event) : list test_call :=
  flat_map (fun e => match e with
                     | Test c => if String.eqb (call_model c) model then [c] else []
                     | Print _ => []
                     end) trace.

Definition completes {A : Type} (m : M A) : Prop := exists a, snd m = inr a.

End Analysis.

(** ** Reading the tables *)

(** The number of rows of the group [k] whose outcome is [outcome]. *)
Definition outcome_count (outcome : string) (k : Key) (df : list DiagnosticRecord) : Z :=
  Z.of_nat (length (filter (fun r => String.eqb (diag_coin r) (fst k)
                                     && String.eqb (diag_time_frame r) (snd k)
                                     && String.eqb (diag_result r) outcome) df)).

(** No run of the file has the name of a level of the pivot index as its
    outcome. *)
Definition plain_outcomes (df : list DiagnosticRecord) : Prop :=
  ~ In "Time Frame" (map diag_result df) /\ ~ In "Coin" (map diag_result df).

(** The index of [pivot_df]. *)
Definition pivot_index (df : list DiagnosticRecord) : list Key :=
  Pandas.sorted_keys (map (fun r => fst (fst r)) (grouped_df df)).

Definition pred_row (k : Key) (label : string) : PredominantlyRecord :=
  {| pred_coin := fst k; pred_time_frame := snd k; Predominantly := label |}.

Definition labeled_row (k : Key) (label : string) : LabeledRecord :=
  {| Coin := fst k; Time_Frame := snd k; Result := label |}.

(** [pat in s]: the pattern occurs somewhere in the string. *)
Fixpoint occurs (pat s : string) : bool :=
  Pandas.prefixb pat s
  || match s with
     | EmptyString => false
     | String _ s' => occurs pat s'
     end.

(** A label in which no direction is directly followed by "ecreasing". *)
Definition foldable (label : string) : Prop :=
  occurs "increasingecreasing" label = false
  /\ occurs "decreasingecreasing" label = false.

(** The string without its first [n] characters. *)
Fixpoint string_drop (n : nat) (s : string) : string :=
  match n, s with
  | O, _ => s
  | S k, String _ s' => string_drop k s'
  | S _, EmptyString => EmptyString
  end.

Fixpoint has_char (c : ascii) (s : string) : bool :=
  match s with
  | EmptyString => false
  | String a s' => Ascii.eqb a c || has_char c s'
  end.

(** The rows of a table that belong to one time frame. *)
Definition at_time_frame (A : Type) (key : A -> Key) (time_frame : string) (df : list A) : list A :=
  filter (fun r => String.eqb (snd (key r)) time_frame) df.

(** [high_auto_cor(test_type)] returns a table that labels the pair [k]
    with [label]. *)
Definition labels (F R T : Type) (env : Env F R T) (test_type : string)
    (k : Key) (label : string) : Prop :=
  exists out, snd (high_auto_cor env test_type) = inr out /\ In (pred_row k label) out.

(** How many times [config.all_models] lists a model. *)
Definition times_listed (F R T : Type) (env : Env F R T) (model : string) : nat :=
  count_occ string_dec (all_models (config env)) model.

(** ** A small installation *)

(** Two coins on one time frame and one forecasting model, used to run the
    analysis functions on concrete tables.  The statistics routines are
    stand-ins that accept two samples and return no statistic.  Cells are
    rationals; no error is negative, and -1 stands for the missing value. *)
Module Fixture.

Definition settings : Config := {|
  statistics_dir := "statistics";
  timeframes := ["1d"];
  all_models := ["ARIMA"];
  log_returns_pred := "log_returns"
|}.

Definition diag (coin result : string) : DiagnosticRecord :=
  {| diag_coin := coin; diag_time_frame := "1d"; diag_result := result |}.

(** 50 runs per coin: all of them autocorrelated for BTC, 49 of them for ETH. *)
Definition ljung_box : list DiagnosticRecord :=
  repeat (diag "BTC" Autocorrelated) 50
  ++ repeat (diag "ETH" Autocorrelated) 49 ++ [diag "ETH" Not_Autocorrelated].

(** ETH has no Breusch-Godfrey runs; ADA has only these. *)
Definition breusch_godfrey : list DiagnosticRecord :=
  repeat (diag "BTC" Autocorrelated) 50 ++ repeat (diag "ADA" Autocorrelated) 50.

Definition trend_results : list TrendRecord :=
  [ {| trend_coin := "BTC"; trend_time_frame := "1d";
       trend_tests := ["increasing"; "increasing"; "no trend"] |};
    {| trend_coin := "ETH"; trend_time_frame := "1d";
       trend_tests := ["no trend"; "no trend"; "decreasing"] |} ].

Definition heteroskedasticity_results : list HetRecord :=
  [ {| het_coin := "BTC"; het_time_frame := "1d";
       Breusch_Pagan := "Heteroskedastic"; Goldfeld_Quandt := "Homoskedastic" |};
    {| het_coin := "ETH"; het_time_frame := "1d";
       Breusch_Pagan := "Homoskedastic"; Goldfeld_Quandt := "Heteroskedastic" |} ].

Definition rmse : Frame (RmseRecord Q) := {|
  model_columns := ["ARIMA"];
  frame_rows :=
    [ {| rmse_index := "BTC"; rmse_values := [("ARIMA", 5 # 100)] |};
      {| rmse_index := "ETH"; rmse_values := [("ARIMA", 10 # 100)] |} ]
|}.

(** The concatenated RMSE table of the installation. *)
Definition errors : Frame (ErrorRecord Q) := {|
  model_columns := ["ARIMA"];
  frame_rows := map (tagged "1d") rmse
|}.

(** A table of labels joined with the errors. *)
Definition joined (df : list LabeledRecord) : Frame (LabeledRecord * ErrorRecord Q) := {|
  model_columns := ["ARIMA"];
  frame_rows := Pandas.merge_inner labeled_key (@err_key Q) df errors
|}.

Definition read (A : Type) (files : list (string * list A)) (path : string) : result (list A) :=
  match dict_get path files with
  | Some df => ok df
  | None => raise (FileNotFoundError path)
  end.

Definition two_samples (groups : list (list Q)) : result unit :=
  match groups with
  | [_; _] => ok tt
  | _ => raise (LibraryError "mannwhitneyu")
  end.

Definition env : Env Q unit unit := {|
  config := settings;
  nan := -1 # 1;
  read_diagnostic_csv :=
    read [("statistics/Ljung-Box_log_returns.csv", ljung_box);
          ("statistics/Breusch-Godfrey_log_returns.csv", breusch_godfrey)];
  read_trend_csv := read [("statistics/trend_results_log_returns.csv", trend_results)];
  read_het_csv :=
    read [("statistics/unconditional_heteroskedasticity_log_returns.csv",
           heteroskedasticity_results)];
  read_labeled_csv := read [];
  read_seasonality_csv := read [];
  read_rmse_csv := fun pred time_frame =>
    if String.eqb time_frame "1d" then ok rmse else raise (FileNotFoundError time_frame);
  mannwhitneyu := two_samples;
  anova_lm := fun _ _ => ok tt;
  ols_pvalue := fun _ _ => raise (LibraryError "OLS")
|}.

(** A labeled table that lists the pair BTC/1d three times. *)
Definition repeated_pair : list LabeledRecord :=
  [ labeled_row ("BTC", "1d") "trend";
    labeled_row ("BTC", "1d") "trend";
    labeled_row ("BTC", "1d") "no trend" ].

Definition labeled_pairs : list LabeledRecord :=
  [ labeled_row ("BTC", "1d") "trend";
    labeled_row ("ADA", "1d") "trend";
    labeled_row ("ETH", "1d") "no trend" ].

(** The same installation before any result file is written. *)
Definition missing : Env Q unit unit := {|
  config := settings;
  nan := -1 # 1;
  read_diagnostic_csv := read [];
  read_trend_csv := read [];
  read_het_csv := read [];
  read_labeled_csv := read [];
  read_seasonality_csv := read [];
  read_rmse_csv := fun pred time_frame => raise (FileNotFoundError time_frame);
  mannwhitneyu := two_samples;
  anova_lm := fun _ _ => ok tt;
  ols_pvalue := fun _ _ => raise (LibraryError "OLS")
|}.

(** The installation with a table of Hurst labels for the two coins and a
    given Mann-Whitney routine. *)
Definition hurst : list LabeledRecord :=
  [ labeled_row ("BTC", "1d") Autocorrelated;
    labeled_row ("ETH", "1d") Not_Autocorrelated ].

Definition with_mannwhitneyu (R : Type) (routine : list (list Q) -> result R) : Env Q R unit := {|
  config := settings;
  nan := -1 # 1;
  read_diagnostic_csv := read [];
  read_trend_csv := read [];
  read_het_csv := read [];
  read_labeled_csv := read [("statistics/hurst_log_returns.csv", hurst)];
  read_seasonality_csv := read [];
  read_rmse_csv := fun pred time_frame =>
    if String.eqb time_frame "1d" then ok rmse else raise (FileNotFoundError time_frame);
  mannwhitneyu := routine;
  anova_lm := fun _ _ => ok tt;
  ols_pvalue := fun _ _ => raise (LibraryError "OLS")
|}.

End Fixture.

(** ** Reading a trace *)


(** The tests of a run, in the order they were handed over. *)
Definition tests (F R T : Type) (trace : list (event F R T)) : list (test_call F) :=
  flat_map (fun e => match e with
                     | Test _ _ c => [c]
                     | Print _ => []
                     end) trace.

(** The table [high_auto_cor] returns for the runs [df] when some run is
    autocorrelated. *)
Definition reduced_table (df : list DiagnosticRecord) : list PredominantlyRecord :=
  map (fun k => pred_row k (if (49 <? outcome_count Autocorrelated k df)%Z
                            then Autocorrelated else Not_Autocorrelated))
      (pivot_index df).


(** ** More installations *)

Module Cases.

(** The installation of [Fixture] with other settings and other tables of
    autocorrelation runs and of labels. *)
Definition install (settings : Config)
    (diagnostics : list (string * list DiagnosticRecord))
    (labeled : list (string * list LabeledRecord))
    (anova : string -> result unit) : Env Q unit unit := {|
  config := settings;
  nan := -1 # 1;
  read_diagnostic_csv := Fixture.read diagnostics;
  read_trend_csv :=
    Fixture.read [("statistics/trend_results_log_returns.csv", Fixture.trend_results)];
  read_het_csv :=
    Fixture.read [("statistics/unconditional_heteroskedasticity_log_returns.csv",
                   Fixture.heteroskedasticity_results)];
  read_labeled_csv := Fixture.read labeled;
  read_seasonality_csv := Fixture.read [];
  read_rmse_csv := fun pred time_frame =>
    if String.eqb time_frame "1d" then ok Fixture.rmse
    else raise (FileNotFoundError time_frame);
  mannwhitneyu := Fixture.two_samples;
  anova_lm := fun formula _ => anova formula;
  ols_pvalue := fun _ _ => raise (LibraryError "OLS")
|}.

(** 50 runs of one coin, none of them autocorrelated. *)
Definition quiet : list DiagnosticRecord :=
  repeat (Fixture.diag "BTC" Not_Autocorrelated) 50.

(** Only the Ljung-Box runs are there, and none is autocorrelated. *)
Definition quiet_ljung_box : Env Q unit unit :=
  install Fixture.settings [("statistics/Ljung-Box_log_returns.csv", quiet)] []
          (fun _ => ok tt).

(** 50 autocorrelated runs of one coin and one run whose outcome is
    "Coin". *)
Definition runs_with_coin : list DiagnosticRecord :=
  repeat (Fixture.diag "BTC" Autocorrelated) 50 ++ [Fixture.diag "BTC" "Coin"].

Definition coin_outcome : Env Q unit unit :=
  install Fixture.settings [("statistics/Ljung-Box_log_returns.csv", runs_with_coin)] []
          (fun _ => ok tt).

(** No time frame is configured. *)
Definition no_time_frames : Env Q unit unit :=
  install {| statistics_dir := "statistics"; timeframes := [];
             all_models := ["ARIMA"]; log_returns_pred := "log_returns" |}
          [] [("statistics/hurst_log_returns.csv", Fixture.hurst)] (fun _ => ok tt).

(** Two time frames are configured; the RMSE table of the second is
    missing. *)
Definition two_time_frames : Env Q unit unit :=
  install {| statistics_dir := "statistics"; timeframes := ["1d"; "4h"];
             all_models := ["ARIMA"]; log_returns_pred := "log_returns" |}
          [] [("statistics/hurst_log_returns.csv", Fixture.hurst)] (fun _ => ok tt).

(** Two models are configured, ARIMA twice; there are no errors of GARCH
    and [anova_lm] accepts the formula of ARIMA only. *)
Definition two_models : Env Q unit unit :=
  install {| statistics_dir := "statistics"; timeframes := ["1d"];
             all_models := ["ARIMA"; "GARCH"; "ARIMA"]; log_returns_pred := "log_returns" |}
          [("statistics/Ljung-Box_log_returns.csv", Fixture.ljung_box);
           ("statistics/Breusch-Godfrey_log_returns.csv", Fixture.breusch_godfrey)]
          [("statistics/hurst_log_returns.csv", Fixture.hurst)]
          (fun formula => if Pandas.prefixb "ARIMA" formula then ok tt
                          else raise (LibraryError "anova_lm")).

(** ARIMA is configured twice. *)
Definition arima_twice : Env Q unit unit :=
  install {| statistics_dir := "statistics"; timeframes := ["1d"];
             all_models := ["ARIMA"; "ARIMA"]; log_returns_pred := "log_returns" |}
          [] [("statistics/hurst_log_returns.csv", Fixture.hurst);
              ("statistics/cond_heteroskedasticity_log_returns.csv", Fixture.hurst)]
          (fun _ => ok tt).

(** Three coins on one time frame.  The Breusch-Pagan label sets ADA
    apart from BTC and ETH, the Goldfeld-Quandt label sets BTC apart from
    ETH and ADA. *)
Definition three_coins : Env Q unit unit := {|
  config := Fixture.settings;
  nan := -1 # 1;
  read_diagnostic_csv := Fixture.read [];
  read_trend_csv := Fixture.read [];
  read_het_csv :=
    Fixture.read [("statistics/unconditional_heteroskedasticity_log_returns.csv",
                   [ {| het_coin := "BTC"; het_time_frame := "1d";
                        Breusch_Pagan := "Homoskedastic";
                        Goldfeld_Quandt := "Heteroskedastic" |};
                     {| het_coin := "ETH"; het_time_frame := "1d";
                        Breusch_Pagan := "Homoskedastic";
                        Goldfeld_Quandt := "Homoskedastic" |};
                     {| het_coin := "ADA"; het_time_frame := "1d";
                        Breusch_Pagan := "Heteroskedastic";
                        Goldfeld_Quandt := "Homoskedastic" |} ])];
  read_labeled_csv := Fixture.read [];
  read_seasonality_csv := Fixture.read [];
  read_rmse_csv := fun pred time_frame =>
    if String.eqb time_frame "1d"
    then ok {| model_columns := ["ARIMA"];
               frame_rows :=
                 [ {| rmse_index := "BTC"; rmse_values := [("ARIMA", 5 # 100)] |};
                   {| rmse_index := "ETH"; rmse_values := [("ARIMA", 10 # 100)] |};
                   {| rmse_index := "ADA"; rmse_values := [("ARIMA", 20 # 100)] |} ] |}
    else raise (FileNotFoundError time_frame);
  mannwhitneyu := Fixture.two_samples;
  anova_lm := fun _ _ => ok tt;
  ols_pvalue := fun _ _ => raise (LibraryError "OLS")
|}.




(** A table of seasonal strengths and a regression that returns the
    number of observations as its p-value. *)
Definition seasonal_with (models : list string) : Env Q unit unit := {|
  config := {| statistics_dir := "statistics"; timeframes := ["1d"];
               all_models := models; log_returns_pred := "log_returns" |};
  nan := -1 # 1;
  read_diagnostic_csv := Fixture.read [];
  read_trend_csv := Fixture.read [];
  read_het_csv := Fixture.read [];
  read_labeled_csv := Fixture.read [];
  read_seasonality_csv :=
    Fixture.read [("statistics/stl_seasonality_log_returns.csv",
                   [ {| seas_coin := "BTC"; seas_time_frame := "1d";
                        Seasonal_Strength := 3 # 10 |};
                     {| seas_coin := "ETH"; seas_time_frame := "1d";
                        Seasonal_Strength := 6 # 10 |} ])];
  read_rmse_csv := fun pred time_frame =>
    if String.eqb time_frame "1d" then ok Fixture.rmse
    else raise (FileNotFoundError time_frame);
  mannwhitneyu := Fixture.two_samples;
  anova_lm := fun _ _ => ok tt;
  ols_pvalue := fun y _ => ok (inject_Z (Z.of_nat (length y)))
|}.

Definition seasonal : Env Q unit unit := seasonal_with ["ARIMA"].


End Cases.

(** * Properties *)

(** ** Keys *)

#[export] Instance string_key_laws : GroupKeyLaws string.
Proof. constructor. exact String.eqb_eq. Qed.

#[export] Instance pair_key_laws (A B : Type) `{GroupKeyLaws A} `{GroupKeyLaws B} :
  GroupKeyLaws (A * B).
Proof.
  constructor. intros [a b] [c d]. simpl.
  rewrite andb_true_iff, !key_eqb_eq.
  split; [intros [-> ->]; reflexivity | intros E; inversion E; auto].
Qed.

(** ** Lists of keys *)

Section KeyLists.
Context {K : Type} `{GroupKeyLaws K}.

Lemma key_eqb_refl (k : K) : key_eqb k k = true.
Proof. apply key_eqb_eq. reflexivity. Qed.

Lemma key_eqb_neq (a b : K) : key_eqb a b = false <-> a <> b.
Proof. rewrite <- not_true_iff_false, key_eqb_eq. reflexivity. Qed.

Lemma In_unique (l : list K) (x : K) : In x (Pandas.unique l) <-> In x l.
Proof.
  induction l as [|y t IH]; simpl; [tauto|].
  rewrite filter_In, IH, negb_true_iff, key_eqb_neq.
  split.
  - intros [E | [Hin _]]; auto.
  - intros [E | Hin]; auto.
    destruct (key_eqb y x) eqn:E.
    + left. apply key_eqb_eq. exact E.
    + right. split; [exact Hin|]. exact (proj1 (key_eqb_neq y x) E).
Qed.

Lemma NoDup_unique (l : list K) : NoDup (Pandas.unique l).
Proof.
  induction l as [|y t IH]; simpl; constructor.
  - rewrite filter_In, negb_true_iff, key_eqb_neq. intros [_ Hne]. apply Hne. reflexivity.
  - apply NoDup_filter. exact IH.
Qed.

Lemma insert_sorted_perm (x : K) (l : list K) :
  Permutation (Pandas.insert_sorted x l) (x :: l).
Proof.
  induction l as [|y t IH]; simpl; [reflexivity|].
  destruct (key_leb x y); [reflexivity|].
  rewrite IH. apply perm_swap.
Qed.

Lemma sort_perm (l : list K) : Permutation (Pandas.sort l) l.
Proof.
  induction l as [|y t IH]; simpl; [constructor|].
  rewrite insert_sorted_perm. constructor. exact IH.
Qed.

Lemma In_sorted_keys (l : list K) (x : K) : In x (Pandas.sorted_keys l) <-> In x l.
Proof.
  unfold Pandas.sorted_keys. split; intro Hx.
  - apply In_unique. eapply Permutation_in; [apply sort_perm | exact Hx].
  - eapply Permutation_in; [symmetry; apply sort_perm | apply In_unique; exact Hx].
Qed.

Lemma NoDup_sorted_keys (l : list K) : NoDup (Pandas.sorted_keys l).
Proof.
  unfold Pandas.sorted_keys.
  eapply Permutation_NoDup; [symmetry; apply sort_perm | apply NoDup_unique].
Qed.

Lemma In_select (A : Type) (key : A -> K) (k : K) (df : list A) (r : A) :
  In r (Pandas.select key k df) <-> In r df /\ key r = k.
Proof. unfold Pandas.select. rewrite filter_In, key_eqb_eq. reflexivity. Qed.

Lemma select_nil (A : Type) (key : A -> K) (k : K) (df : list A) :
  Pandas.select key k df = [] <-> ~ In k (map key df).
Proof.
  split.
  - intros E Hin. apply in_map_iff in Hin. destruct Hin as [r [Hk Hr]].
    assert (Hs : In r (Pandas.select key k df)) by (apply In_select; auto).
    rewrite E in Hs. exact Hs.
  - intros Hn. destruct (Pandas.select key k df) as [|r t] eqn:E; [reflexivity|].
    exfalso. apply Hn.
    assert (Hs : In r (Pandas.select key k df)) by (rewrite E; left; reflexivity).
    apply In_select in Hs. destruct Hs as [Hr <-]. apply in_map. exact Hr.
Qed.

(** In a table whose keys are distinct a key selects at most its row. *)
Lemma select_NoDup (A : Type) (key : A -> K) (df : list A) (r : A) :
  NoDup (map key df) -> In r df -> Pandas.select key (key r) df = [r].
Proof.
  induction df as [|x t IH]; simpl; [tauto|].
  intros Hnd [-> | Hin]; inversion Hnd as [|? ? Hnot Hnd']; subst.
  - rewrite key_eqb_refl. f_equal.
    apply select_nil. exact Hnot.
  - destruct (key_eqb (key x) (key r)) eqn:E.
    + apply key_eqb_eq in E. exfalso. apply Hnot. rewrite E. apply in_map. exact Hin.
    + apply IH; assumption.
Qed.

Lemma select_length_NoDup (A : Type) (key : A -> K) (k : K) (df : list A) :
  NoDup (map key df) -> (length (Pandas.select key k df) <= 1)%nat.
Proof.
  intros Hnd.
  destruct (Pandas.select key k df) as [|r t] eqn:E; [simpl; lia|].
  assert (Hs : In r (Pandas.select key k df)) by (rewrite E; left; reflexivity).
  apply In_select in Hs. destruct Hs as [Hr Hk]. subst k.
  rewrite (select_NoDup key df r Hnd Hr) in E. inversion E. simpl. lia.
Qed.
End KeyLists.

(** ** The pivot of high_auto_cor *)

Lemma select_map_graph (K : Type) `{GroupKeyLaws K} (V : Type) (f : K -> V) (k : K) (keys : list K) :
  Pandas.select (fun r : K * V => fst r) k (map (fun x => (x, f x)) keys)
  = map (fun x => (x, f x)) (Pandas.select (fun x => x) k keys).
Proof.
  unfold Pandas.select. induction keys as [|x t IH]; simpl; [reflexivity|].
  destruct (key_eqb x k); simpl; rewrite IH; reflexivity.
Qed.

Lemma group_size_outcome_count (df : list DiagnosticRecord) (k : Key) (c : string) :
  Z.of_nat (length (Pandas.select (fun r => (diag_key r, diag_result r)) (k, c) df))
  = outcome_count c k df.
Proof. reflexivity. Qed.

Lemma grouped_df_keys (df : list DiagnosticRecord) :
  map (fun r => fst r) (grouped_df df)
  = Pandas.sorted_keys (map (fun r => (diag_key r, diag_result r)) df).
Proof.
  unfold grouped_df, Pandas.groupby_size. rewrite map_map. simpl. apply map_id.
Qed.

Lemma In_grouped_keys (df : list DiagnosticRecord) (k : Key) (c : string) :
  In (k, c) (map (fun r => fst r) (grouped_df df))
  <-> exists r, In r df /\ diag_key r = k /\ diag_result r = c.
Proof.
  rewrite grouped_df_keys, In_sorted_keys, in_map_iff.
  split; intros [r Hr]; exists r.
  - destruct Hr as [E Hin]. inversion E. auto.
  - destruct Hr as [Hin [<- <-]]. auto.
Qed.

Lemma In_pivot_index (df : list DiagnosticRecord) (k : Key) :
  In k (pivot_index df) <-> In k (map diag_key df).
Proof.
  unfold pivot_index. rewrite In_sorted_keys, <- (map_map (fun r => fst r) fst), !in_map_iff.
  split.
  - intros [[k' c] [E Hin]]. simpl in E. subst k'.
    apply In_grouped_keys in Hin. destruct Hin as [r [Hr [Hk _]]]. exists r. auto.
  - intros [r [Hk Hr]]. exists (k, diag_result r). split; [reflexivity|].
    apply In_grouped_keys. exists r. auto.
Qed.

Lemma NoDup_pivot_index (df : list DiagnosticRecord) : NoDup (pivot_index df).
Proof. apply NoDup_sorted_keys. Qed.

(** A cell of the pivot holds the number of rows of the group with the
    outcome of the column; the fill value stands for a count of zero. *)
Lemma pivot_cell (df : list DiagnosticRecord) (k : Key) (c : string) :
  match Pandas.select (fun r : Key * string * Z => fst r) (k, c) (grouped_df df) with
  | [] => 0%Q
  | rs => Pandas.mean (map snd rs)
  end = inject_Z (outcome_count c k df).
Proof.
  unfold grouped_df, Pandas.groupby_size.
  rewrite select_map_graph by exact _.
  set (keys := Pandas.sorted_keys (map (fun r => (diag_key r, diag_result r)) df)).
  assert (Hnd : NoDup (map (fun x : Key * string => x) keys))
    by (rewrite map_id; apply NoDup_sorted_keys).
  destruct (Pandas.select (fun x => x) (k, c) keys) as [|x t] eqn:E.
  - apply select_nil in E. rewrite map_id in E. simpl.
    assert (E' : Pandas.select (fun r => (diag_key r, diag_result r)) (k, c) df = []).
    { apply select_nil. intro Hk. apply E. apply In_sorted_keys. exact Hk. }
    rewrite <- group_size_outcome_count, E'. reflexivity.
  - assert (Hx : In x (Pandas.select (fun x => x) (k, c) keys)) by (rewrite E; left; reflexivity).
    apply In_select in Hx. destruct Hx as [Hx ->].
    rewrite (select_NoDup (fun x => x) keys (k, c) Hnd Hx) in E.
    inversion E; subst. simpl. unfold Pandas.mean. simpl.
    rewrite Z.add_0_r. reflexivity.
Qed.

Lemma index_of_None (c : string) (cols : list string) :
  Pandas.index_of c cols = None <-> ~ In c cols.
Proof.
  induction cols as [|x t IH]; simpl; [tauto|].
  destruct (String.eqb_spec x c) as [-> | Hne].
  - split; [discriminate | intros Hn; exfalso; apply Hn; left; reflexivity].
  - destruct (Pandas.index_of c t); simpl.
    + split; [discriminate|]. intros Hn. exfalso. apply Hn. right.
      destruct (in_dec string_dec c t) as [Hin|Hout]; [exact Hin|].
      apply IH in Hout. discriminate.
    + split; [|reflexivity]. intros _ [E | Hin]; [contradiction|].
      revert Hin. apply IH. reflexivity.
Qed.

Lemma index_of_nth (c : string) (cols : list string) (i : nat) (f : string -> Q) :
  Pandas.index_of c cols = Some i -> nth i (map f cols) 0%Q = f c.
Proof.
  revert i. induction cols as [|x t IH]; simpl; [discriminate|].
  intros i. destruct (String.eqb_spec x c) as [-> | Hne].
  - intros E. inversion E. reflexivity.
  - destruct (Pandas.index_of c t) as [j|]; simpl; [|discriminate].
    intros E. inversion E. apply IH. reflexivity.
Qed.

Lemma combine_map_graph (A B C : Type) (f : A -> B) (g : A -> C) (l : list A) :
  combine (map f l) (map g l) = map (fun x => (f x, g x)) l.
Proof. induction l as [|x t IH]; simpl; [|rewrite IH]; reflexivity. Qed.

Lemma pivot_columns (df : list DiagnosticRecord) (c : string) :
  In c (Pandas.pv_columns (pivot df)) <-> In c (map diag_result df).
Proof.
  unfold pivot, Pandas.pivot_table. simpl.
  rewrite In_sorted_keys, <- (map_map (fun r => fst r) snd), !in_map_iff.
  split.
  - intros [[k c'] [E Hin]]. simpl in E. subst c'.
    apply In_grouped_keys in Hin. destruct Hin as [r [Hr [_ Hc]]]. exists r. auto.
  - intros [r [Hc Hr]]. exists (diag_key r, c). split; [reflexivity|].
    apply In_grouped_keys. exists r. auto.
Qed.

Lemma predominantly_count (n : Z) :
  predominantly (inject_Z n) = if (49 <? n)%Z then Autocorrelated else Not_Autocorrelated.
Proof.
  unfold predominantly, Qle_bool, inject_Z. simpl. rewrite Z.mul_1_r.
  destruct (Z.leb_spec n 49), (Z.ltb_spec 49 n); try reflexivity; lia.
Qed.

Lemma existsb_eqb_In (c : string) (l : list string) :
  existsb (String.eqb c) l = true <-> In c l.
Proof.
  rewrite existsb_exists. split.
  - intros [x [Hx E]]. apply String.eqb_eq in E. subst x. exact Hx.
  - intros Hc. exists c. split; [exact Hc | apply String.eqb_refl].
Qed.

Lemma existsb_eqb_not_In (c : string) (l : list string) :
  existsb (String.eqb c) l = false <-> ~ In c l.
Proof. rewrite <- not_true_iff_false, existsb_eqb_In. reflexivity. Qed.

Lemma plain_outcomes_check (df : list DiagnosticRecord) :
  existsb (String.eqb "Time Frame") (map diag_result df)
  || existsb (String.eqb "Coin") (map diag_result df) = false ->
  plain_outcomes df.
Proof.
  intros Hb. apply orb_false_iff in Hb. destruct Hb as [Ht Hc].
  split; apply existsb_eqb_not_In; assumption.
Qed.

Ltac plain_runs := apply plain_outcomes_check; vm_compute; reflexivity.

(** The index of the pivot becomes columns when no outcome has the name of
    one of its levels. *)
Lemma pivot_df_plain (df : list DiagnosticRecord) :
  plain_outcomes df -> pivot_df df = ok (pivot df).
Proof.
  intros [Ht Hc]. unfold pivot_df, reset_index. cbn [rev app find].
  rewrite <- pivot_columns in Ht, Hc.
  apply existsb_eqb_not_In in Ht, Hc. rewrite Ht, Hc. reflexivity.
Qed.

(** An outcome named like a level of the index stops [reset_index]; the
    last level is inserted first. *)
Lemma pivot_df_time_frame (df : list DiagnosticRecord) :
  In "Time Frame" (map diag_result df) ->
  pivot_df df = raise (ValueError "cannot insert Time Frame, already exists").
Proof.
  intros Ht. unfold pivot_df, reset_index. cbn [rev app find].
  rewrite <- pivot_columns in Ht. apply existsb_eqb_In in Ht. rewrite Ht. reflexivity.
Qed.

Lemma pivot_df_coin (df : list DiagnosticRecord) :
  ~ In "Time Frame" (map diag_result df) -> In "Coin" (map diag_result df) ->
  pivot_df df = raise (ValueError "cannot insert Coin, already exists").
Proof.
  intros Ht Hc. unfold pivot_df, reset_index. cbn [rev app find].
  rewrite <- pivot_columns in Ht, Hc.
  apply existsb_eqb_not_In in Ht. apply existsb_eqb_In in Hc. rewrite Ht, Hc. reflexivity.
Qed.

Lemma plain_outcomes_dec (df : list DiagnosticRecord) :
  plain_outcomes df
  \/ In "Time Frame" (map diag_result df)
  \/ (~ In "Time Frame" (map diag_result df) /\ In "Coin" (map diag_result df)).
Proof.
  unfold plain_outcomes.
  destruct (in_dec string_dec "Time Frame" (map diag_result df)) as [Ht | Ht]; [tauto|].
  destruct (in_dec string_dec "Coin" (map diag_result df)) as [Hc | Hc]; tauto.
Qed.

(** With an outcome of such a name [high_auto_cor] computes no table. *)
Lemma high_auto_cor_table_ValueError (df : list DiagnosticRecord) :
  ~ plain_outcomes df ->
  exists level,
    (level = "Time Frame" \/ level = "Coin")
    /\ In level (map diag_result df)
    /\ high_auto_cor_table df
       = raise (ValueError ("cannot insert " ++ level ++ ", already exists")).
Proof.
  intros Hclash. unfold high_auto_cor_table.
  destruct (plain_outcomes_dec df) as [Hp | [Ht | [Ht Hc]]]; [contradiction| |].
  - exists "Time Frame". rewrite (pivot_df_time_frame _ Ht). auto.
  - exists "Coin". rewrite (pivot_df_coin _ Ht Hc). auto.
Qed.

(** The table [high_auto_cor] computes when some row has the outcome
    "Autocorrelated": one row per entry of the pivot index. *)
Lemma high_auto_cor_table_ok (df : list DiagnosticRecord) :
  plain_outcomes df ->
  In Autocorrelated (map diag_result df) ->
  high_auto_cor_table df
  = ok (map (fun k => pred_row k (if (49 <? outcome_count Autocorrelated k df)%Z
                                  then Autocorrelated else Not_Autocorrelated))
            (pivot_index df)).
Proof.
  intros Hplain Hcol. apply pivot_columns in Hcol.
  unfold high_auto_cor_table. rewrite (pivot_df_plain Hplain). cbn [rbind ok].
  unfold Pandas.column.
  destruct (Pandas.index_of Autocorrelated (Pandas.pv_columns (pivot df))) as [i|] eqn:Ei.
  - unfold ok. f_equal.
    unfold pivot, Pandas.pivot_table in *. simpl in *.
    fold (pivot_index df). rewrite map_map. simpl.
    rewrite combine_map_graph, map_map. simpl.
    apply map_ext. intros k. unfold pred_row. f_equal.
    rewrite (index_of_nth _ _ _ Ei), pivot_cell. apply predominantly_count.
  - apply index_of_None in Ei. contradiction.
Qed.

(** Without such a row the pivot has no column "Autocorrelated" and the
    column access raises. *)
Lemma high_auto_cor_table_KeyError (df : list DiagnosticRecord) :
  plain_outcomes df ->
  ~ In Autocorrelated (map diag_result df) ->
  high_auto_cor_table df = raise (KeyError Autocorrelated).
Proof.
  intros Hplain Hcol. rewrite <- pivot_columns in Hcol.
  apply index_of_None in Hcol.
  unfold high_auto_cor_table. rewrite (pivot_df_plain Hplain). cbn [rbind ok].
  unfold Pandas.column. rewrite Hcol. reflexivity.
Qed.

(** A table is computed exactly for the files with plain outcomes and an
    autocorrelated run. *)
Lemma high_auto_cor_table_returns (df : list DiagnosticRecord) (out : list PredominantlyRecord) :
  high_auto_cor_table df = ok out ->
  plain_outcomes df /\ In Autocorrelated (map diag_result df).
Proof.
  intros Hout.
  destruct (plain_outcomes_dec df) as [Hp | Hclash].
  - split; [exact Hp|].
    destruct (in_dec string_dec Autocorrelated (map diag_result df)) as [Hcol | Hcol];
      [exact Hcol|].
    rewrite (high_auto_cor_table_KeyError Hp Hcol) in Hout. discriminate Hout.
  - destruct (@high_auto_cor_table_ValueError df) as [level [_ [_ E]]].
    + intros [Ht Hc]. tauto.
    + rewrite E in Hout. discriminate Hout.
Qed.

(** ** high_auto_cor *)

Section HighAutoCor.
Variables F R T : Type.
Variable env : Env F R T.
Variable test_type : string.
Variable df : list DiagnosticRecord.
Hypothesis loaded :
  read_diagnostic_csv env (csv env (test_type ++ "_log_returns")) = inr df.

Lemma high_auto_cor_loaded : high_auto_cor env test_type = ([], high_auto_cor_table df).
Proof. unfold high_auto_cor, bind, lift. simpl. rewrite loaded. reflexivity. Qed.

Lemma high_auto_cor_returns :
  plain_outcomes df ->
  In Autocorrelated (map diag_result df) ->
  snd (high_auto_cor env test_type)
  = inr (map (fun k => pred_row k (if (49 <? outcome_count Autocorrelated k df)%Z
                                   then Autocorrelated else Not_Autocorrelated))
             (pivot_index df)).
Proof.
  intros Hplain Hcol. rewrite high_auto_cor_loaded. simpl.
  apply high_auto_cor_table_ok; assumption.
Qed.

Lemma high_auto_cor_raises :
  plain_outcomes df ->
  ~ In Autocorrelated (map diag_result df) ->
  high_auto_cor env test_type = ([], inl (KeyError Autocorrelated)).
Proof.
  intros Hplain Hcol. rewrite high_auto_cor_loaded. f_equal.
  apply high_auto_cor_table_KeyError; assumption.
Qed.

Lemma high_auto_cor_completes (out : list PredominantlyRecord) :
  snd (high_auto_cor env test_type) = inr out ->
  plain_outcomes df /\ In Autocorrelated (map diag_result df).
Proof.
  rewrite high_auto_cor_loaded. simpl. apply high_auto_cor_table_returns.
Qed.

(** A positive count of "Autocorrelated" outcomes in a group means the
    column of the pivot exists. *)
Lemma outcome_count_pos (k : Key) :
  (0 < outcome_count Autocorrelated k df)%Z -> In Autocorrelated (map diag_result df).
Proof.
  unfold outcome_count. intros Hpos.
  destruct (filter _ df) as [|r t] eqn:E; [simpl in Hpos; lia|].
  assert (Hr : In r (filter (fun r => String.eqb (diag_coin r) (fst k)
                                      && String.eqb (diag_time_frame r) (snd k)
                                      && String.eqb (diag_result r) Autocorrelated) df))
    by (rewrite E; left; reflexivity).
  apply filter_In in Hr. destruct Hr as [Hr Hb].
  apply andb_true_iff in Hb. destruct Hb as [_ Hb]. apply String.eqb_eq in Hb.
  rewrite <- Hb. apply in_map. exact Hr.
Qed.

Lemma labels_iff (k : Key) (label : string) :
  labels env test_type k label
  <-> plain_outcomes df /\ In Autocorrelated (map diag_result df) /\ In k (map diag_key df)
      /\ label = (if (49 <? outcome_count Autocorrelated k df)%Z
                  then Autocorrelated else Not_Autocorrelated).
Proof.
  unfold labels. split.
  - intros [out [Hout Hin]].
    destruct (high_auto_cor_completes Hout) as [Hplain Hcol].
    rewrite (high_auto_cor_returns Hplain Hcol) in Hout. inversion Hout; subst out.
    apply in_map_iff in Hin. destruct Hin as [k' [E Hk']].
    unfold pred_row in E. inversion E as [[E1 E2 E3]].
    assert (k' = k) by (destruct k, k'; simpl in *; congruence). subst k'.
    split; [exact Hplain|]. split; [exact Hcol|].
    split; [apply In_pivot_index; exact Hk' | reflexivity].
  - intros [Hplain [Hcol [Hk ->]]].
    eexists. split; [apply (high_auto_cor_returns Hplain Hcol)|].
    apply in_map_iff. exists k. split; [reflexivity|]. apply In_pivot_index. exact Hk.
Qed.

Lemma outcome_count_group (k : Key) :
  (0 < outcome_count Autocorrelated k df)%Z -> In k (map diag_key df).
Proof.
  unfold outcome_count. intros Hpos.
  destruct (filter _ df) as [|r t] eqn:E; [simpl in Hpos; lia|].
  assert (Hr : In r (filter (fun r => String.eqb (diag_coin r) (fst k)
                                      && String.eqb (diag_time_frame r) (snd k)
                                      && String.eqb (diag_result r) Autocorrelated) df))
    by (rewrite E; left; reflexivity).
  apply filter_In in Hr. destruct Hr as [Hr Hb].
  apply andb_true_iff in Hb. destruct Hb as [Hb _].
  apply andb_true_iff in Hb. destruct Hb as [Hc Ht].
  apply String.eqb_eq in Hc, Ht.
  apply in_map_iff. exists r. split; [|exact Hr].
  unfold diag_key. rewrite Hc, Ht. destruct k; reflexivity.
Qed.
End HighAutoCor.

(** C2 -- Threshold boundary, on the files in which no run has the outcome
    "Coin" or "Time Frame".  On the table [df] of a test family,
    [high_auto_cor] labels a (Coin, Time Frame) pair "Autocorrelated"
    exactly when no outcome of the file has such a name and the group of
    the pair has more than 49 "Autocorrelated" outcomes; it labels a pair
    "Not Autocorrelated" exactly when, besides, the pair is a group of a
    table that has the outcome "Autocorrelated" somewhere and the count of
    the group is at most 49.  On such a file a count of 49 gives
    "Not Autocorrelated" and not "Autocorrelated"; a count of 50 gives
    "Autocorrelated" and not "Not Autocorrelated". *)
Theorem high_auto_cor_threshold (F R T : Type) (env : Env F R T) (test_type : string)
    (df : list DiagnosticRecord) (k : Key) :
  read_diagnostic_csv env (csv env (test_type ++ "_log_returns")) = inr df ->
  (labels env test_type k Autocorrelated
   <-> plain_outcomes df /\ (49 < outcome_count Autocorrelated k df)%Z)
  /\ (labels env test_type k Not_Autocorrelated
      <-> plain_outcomes df
          /\ In Autocorrelated (map diag_result df) /\ In k (map diag_key df)
          /\ (outcome_count Autocorrelated k df <= 49)%Z)
  /\ (plain_outcomes df -> outcome_count Autocorrelated k df = 49%Z ->
      labels env test_type k Not_Autocorrelated /\ ~ labels env test_type k Autocorrelated)
  /\ (plain_outcomes df -> outcome_count Autocorrelated k df = 50%Z ->
      labels env test_type k Autocorrelated /\ ~ labels env test_type k Not_Autocorrelated).
Proof.
  intros loaded.
  assert (Hpos : (0 < outcome_count Autocorrelated k df)%Z ->
                 In Autocorrelated (map diag_result df) /\ In k (map diag_key df)).
  { intros Hp. split; [eapply outcome_count_pos | eapply outcome_count_group]; exact Hp. }
  assert (HA : labels env test_type k Autocorrelated
               <-> plain_outcomes df /\ (49 < outcome_count Autocorrelated k df)%Z).
  { rewrite (labels_iff env test_type loaded). split.
    - intros [Hplain [_ [_ E]]]. split; [exact Hplain|].
      destruct (Z.ltb_spec 49 (outcome_count Autocorrelated k df)); [assumption|].
      discriminate.
    - intros [Hplain Hlt]. destruct Hpos as [Hc Hk]; [lia|].
      split; [exact Hplain|]. split; [exact Hc|]. split; [exact Hk|].
      apply Z.ltb_lt in Hlt. rewrite Hlt. reflexivity. }
  assert (HN : labels env test_type k Not_Autocorrelated
               <-> plain_outcomes df
                   /\ In Autocorrelated (map diag_result df) /\ In k (map diag_key df)
                   /\ (outcome_count Autocorrelated k df <= 49)%Z).
  { rewrite (labels_iff env test_type loaded). split.
    - intros [Hplain [Hc [Hk E]]]. split; [exact Hplain|]. split; [exact Hc|].
      split; [exact Hk|].
      destruct (Z.ltb_spec 49 (outcome_count Autocorrelated k df)); [discriminate | assumption].
    - intros [Hplain [Hc [Hk Hle]]]. split; [exact Hplain|]. split; [exact Hc|].
      split; [exact Hk|].
      destruct (Z.ltb_spec 49 (outcome_count Autocorrelated k df)); [lia | reflexivity]. }
  split; [exact HA|]. split; [exact HN|]. split; intros Hplain E.
  - split.
    + apply HN. destruct Hpos as [Hc Hk]; [lia|].
      split; [exact Hplain|]. split; [exact Hc|]. split; [exact Hk|]. lia.
    + rewrite HA. intros [_ Hlt]. lia.
  - split.
    + apply HA. split; [exact Hplain | lia].
    + rewrite HN. intros [_ [_ [_ Hle]]]. lia.
Qed.

Lemma high_auto_cor_threshold_witness :
  labels Fixture.env "Ljung-Box" ("ETH", "1d") Not_Autocorrelated
  /\ ~ labels Fixture.env "Ljung-Box" ("ETH", "1d") Autocorrelated.
Proof.
  apply (high_auto_cor_threshold Fixture.env "Ljung-Box" (df := Fixture.ljung_box) ("ETH", "1d")).
  - reflexivity.
  - plain_runs.
  - reflexivity.
Defined.

(** 50 autocorrelated runs of BTC/1d and one run whose outcome is "Coin":
    the count of the group is 50, [reset_index] raises ValueError and the
    pair gets no label. *)
Lemma high_auto_cor_count_without_label :
  read_diagnostic_csv Cases.coin_outcome (csv Cases.coin_outcome ("Ljung-Box" ++ "_log_returns"))
  = inr Cases.runs_with_coin
  /\ outcome_count Autocorrelated ("BTC", "1d") Cases.runs_with_coin = 50%Z
  /\ high_auto_cor Cases.coin_outcome "Ljung-Box"
     = ([], inl (ValueError "cannot insert Coin, already exists"))
  /\ ~ labels Cases.coin_outcome "Ljung-Box" ("BTC", "1d") Autocorrelated.
Proof.
  split; [reflexivity|]. split; [reflexivity|].
  assert (Hrun : high_auto_cor Cases.coin_outcome "Ljung-Box"
                 = ([], inl (ValueError "cannot insert Coin, already exists")))
    by (vm_compute; reflexivity).
  split; [exact Hrun|].
  intros [out [Hout _]]. rewrite Hrun in Hout. discriminate Hout.
Qed.

(** C10 -- Label codomain and key uniqueness.  The rows [high_auto_cor]
    returns have the three columns Coin, Time Frame and Predominantly; the
    table has one row per distinct (Coin, Time Frame) pair of the input
    and no other row, and every Predominantly value is "Autocorrelated" or
    "Not Autocorrelated".  A table is returned exactly when some row of
    the input has the outcome "Autocorrelated" and no row has the outcome
    "Coin" or "Time Frame". *)
Theorem high_auto_cor_codomain (F R T : Type) (env : Env F R T) (test_type : string)
    (df : list DiagnosticRecord) :
  read_diagnostic_csv env (csv env (test_type ++ "_log_returns")) = inr df ->
  ((exists out, snd (high_auto_cor env test_type) = inr out)
   <-> plain_outcomes df /\ In Autocorrelated (map diag_result df))
  /\ forall out : list PredominantlyRecord,
       snd (high_auto_cor env test_type) = inr out ->
       NoDup (map pred_key out)
       /\ (forall k, In k (map pred_key out) <-> In k (map diag_key df))
       /\ (forall r, In r out ->
             Predominantly r = Autocorrelated \/ Predominantly r = Not_Autocorrelated).
Proof.
  intros loaded. split.
  - split.
    + intros [out Hout]. apply (high_auto_cor_completes env test_type loaded Hout).
    + intros [Hplain Hcol]. eexists.
      apply (high_auto_cor_returns env test_type loaded Hplain Hcol).
  - intros out Hout.
    destruct (high_auto_cor_completes env test_type loaded Hout) as [Hplain Hcol].
    rewrite (high_auto_cor_returns env test_type loaded Hplain Hcol) in Hout.
    inversion Hout; subst out.
    assert (Hkeys : forall f : Key -> string,
               map pred_key (map (fun k => pred_row k (f k)) (pivot_index df)) = pivot_index df).
    { intros f. rewrite map_map. rewrite <- (map_id (pivot_index df)) at 2.
      apply map_ext. intros [c t]. reflexivity. }
    rewrite Hkeys. split; [apply NoDup_pivot_index|]. split.
    + intros k. apply In_pivot_index.
    + intros r Hr. apply in_map_iff in Hr. destruct Hr as [k [<- _]]. simpl.
      destruct (49 <? outcome_count Autocorrelated k df)%Z; auto.
Qed.

Lemma high_auto_cor_codomain_witness :
  exists out, snd (high_auto_cor Fixture.env "Ljung-Box") = inr out
              /\ NoDup (map pred_key out)
              /\ (forall k, In k (map pred_key out) <-> In k (map diag_key Fixture.ljung_box)).
Proof.
  destruct (high_auto_cor_codomain Fixture.env "Ljung-Box" (df := Fixture.ljung_box) eq_refl)
    as [Hret Hout].
  destruct (proj2 Hret) as [out Hrun].
  - split; [plain_runs | vm_compute; tauto].
  - exists out. split; [exact Hrun|].
    destruct (Hout out Hrun) as [Hnd [Hkeys _]]. split; assumption.
Defined.

(** ** Merges *)

Section Merges.
Context {K : Type} `{GroupKeyLaws K}.
Variables A B : Type.
Variable ka : A -> K.
Variable kb : B -> K.

Lemma In_merge_inner (left : list A) (right : list B) (a : A) (b : B) :
  In (a, b) (Pandas.merge_inner ka kb left right)
  <-> In a left /\ In b right /\ kb b = ka a.
Proof.
  unfold Pandas.merge_inner. rewrite in_flat_map. split.
  - intros [a' [Ha Hin]]. apply in_map_iff in Hin. destruct Hin as [b' [E Hb]].
    inversion E; subst. apply In_select in Hb. tauto.
  - intros [Ha [Hb E]]. exists a. split; [exact Ha|].
    apply in_map. apply In_select. auto.
Qed.

(** The rows of an outer merge: both sides of a key that both tables
    have, one side and a null for a key of one table only. *)
Lemma In_merge_outer (left : list A) (right : list B) (k : K) (oa : option A) (ob : option B) :
  In (k, oa, ob) (Pandas.merge_outer ka kb left right)
  <-> match oa, ob with
      | Some a, Some b => In a left /\ ka a = k /\ In b right /\ kb b = k
      | Some a, None => In a left /\ ka a = k /\ ~ In k (map kb right)
      | None, Some b => In b right /\ kb b = k /\ ~ In k (map ka left)
      | None, None => False
      end.
Proof.
  unfold Pandas.merge_outer. rewrite in_flat_map. split.
  - intros [k' [_ Hin]].
    destruct (Pandas.select ka k' left) as [|a ls] eqn:El.
    + apply in_map_iff in Hin. destruct Hin as [b [E Hb]]. inversion E; subst.
      apply In_select in Hb. destruct Hb as [Hb Hk]. split; [exact Hb|]. split; [exact Hk|].
      apply select_nil. exact El.
    + destruct (Pandas.select kb k' right) as [|b rs] eqn:Er.
      * apply in_map_iff in Hin. destruct Hin as [a' [E Ha]]. inversion E; subst.
        rewrite <- El in Ha. apply In_select in Ha. destruct Ha as [Ha Hk].
        split; [exact Ha|]. split; [exact Hk|]. apply select_nil. exact Er.
      * apply in_flat_map in Hin. destruct Hin as [a' [Ha Hin]].
        apply in_map_iff in Hin. destruct Hin as [b' [E Hb]]. inversion E; subst.
        rewrite <- El in Ha. rewrite <- Er in Hb.
        apply In_select in Ha, Hb. tauto.
  - intros Hrow. exists k. split.
    + apply In_sorted_keys. apply in_or_app.
      destruct oa as [a|], ob as [b|]; try contradiction.
      * left. destruct Hrow as [Ha [<- _]]. apply in_map. exact Ha.
      * left. destruct Hrow as [Ha [<- _]]. apply in_map. exact Ha.
      * right. destruct Hrow as [Hb [<- _]]. apply in_map. exact Hb.
    + destruct oa as [a|], ob as [b|]; try contradiction.
      * destruct Hrow as [Ha [Hka [Hb Hkb]]].
        assert (Sa : In a (Pandas.select ka k left)) by (apply In_select; auto).
        assert (Sb : In b (Pandas.select kb k right)) by (apply In_select; auto).
        destruct (Pandas.select ka k left) as [|a0 ls]; [contradiction|].
        destruct (Pandas.select kb k right) as [|b0 rs]; [contradiction|].
        apply in_flat_map. exists a. split; [exact Sa|].
        apply in_map_iff. exists b. auto.
      * destruct Hrow as [Ha [Hka Hnb]].
        assert (Sa : In a (Pandas.select ka k left)) by (apply In_select; auto).
        apply select_nil in Hnb. rewrite Hnb.
        destruct (Pandas.select ka k left) as [|a0 ls]; [contradiction|].
        apply in_map_iff. exists a. auto.
      * destruct Hrow as [Hb [Hkb Hna]].
        apply select_nil in Hna. rewrite Hna.
        apply in_map_iff. exists b. split; [reflexivity|]. apply In_select. auto.
Qed.
End Merges.

(** ** auto_correlation: the combined label *)

Lemma pred_row_eta (r : PredominantlyRecord) : pred_row (pred_key r) (Predominantly r) = r.
Proof. destruct r; reflexivity. Qed.

Lemma pred_row_key (k : Key) (l : string) : pred_key (pred_row k l) = k.
Proof. destruct k; reflexivity. Qed.

Lemma labeled_row_inj (k k' : Key) (l l' : string) :
  labeled_row k l = labeled_row k' l' -> k = k' /\ l = l'.
Proof.
  destruct k, k'. unfold labeled_row. simpl. intros E. inversion E. auto.
Qed.

(** The rows of [overlap], read off the rows of the outer merge. *)
Lemma In_overlap (ljung breusch : list PredominantlyRecord) (k : Key) (label : string) :
  In (labeled_row k label) (overlap ljung breusch)
  <-> exists oa ob,
        In (k, oa, ob) (Pandas.merge_outer pred_key pred_key ljung breusch)
        /\ label = if is_label Autocorrelated oa && is_label Autocorrelated ob
                   then Autocorrelated else Not_Autocorrelated.
Proof.
  unfold overlap. rewrite in_map_iff. split.
  - intros [[[k' oa] ob] [E Hin]]. simpl in E.
    change (labeled_row k' (if is_label Autocorrelated oa && is_label Autocorrelated ob
                            then Autocorrelated else Not_Autocorrelated)
            = labeled_row k label) in E.
    apply labeled_row_inj in E. destruct E as [-> <-]. exists oa, ob. auto.
  - intros [oa [ob [Hin ->]]]. exists (k, oa, ob). split; [reflexivity | exact Hin].
Qed.

Lemma NoDup_key_unique (ljung : list PredominantlyRecord) (a b : PredominantlyRecord) :
  NoDup (map pred_key ljung) -> In a ljung -> In b ljung -> pred_key a = pred_key b -> a = b.
Proof.
  intros Hnd Ha Hb E.
  assert (Sa := select_NoDup pred_key ljung a Hnd Ha).
  assert (Sb : In b (Pandas.select pred_key (pred_key a) ljung)) by (apply In_select; auto).
  rewrite Sa in Sb. destruct Sb as [-> | []]. reflexivity.
Qed.

Lemma In_pred_row_key (t : list PredominantlyRecord) (k : Key) (l : string) :
  In (pred_row k l) t -> In k (map pred_key t).
Proof. intros Hin. rewrite <- (pred_row_key k l). apply in_map. exact Hin. Qed.

(** C1 -- Agreement conjunction.  For a (Coin, Time Frame) pair that the
    reduced Ljung-Box table labels [l] and the reduced Breusch-Godfrey
    table labels [b], the combined table has the pair with one label:
    "Autocorrelated" if and only if both [l] and [b] are "Autocorrelated",
    and "Not Autocorrelated" as soon as one of them is
    "Not Autocorrelated". *)
Theorem overlap_agreement (ljung breusch : list PredominantlyRecord) (k : Key) (l b : string) :
  NoDup (map pred_key ljung) -> NoDup (map pred_key breusch) ->
  In (pred_row k l) ljung -> In (pred_row k b) breusch ->
  (forall label, In (labeled_row k label) (overlap ljung breusch)
                 <-> label = if String.eqb l Autocorrelated && String.eqb b Autocorrelated
                             then Autocorrelated else Not_Autocorrelated)
  /\ (In (labeled_row k Autocorrelated) (overlap ljung breusch)
      <-> l = Autocorrelated /\ b = Autocorrelated)
  /\ (l = Not_Autocorrelated \/ b = Not_Autocorrelated ->
      In (labeled_row k Not_Autocorrelated) (overlap ljung breusch)
      /\ ~ In (labeled_row k Autocorrelated) (overlap ljung breusch)).
Proof.
  intros Hndl Hndb Hl Hb.
  assert (Hrows : forall label, In (labeled_row k label) (overlap ljung breusch)
                    <-> label = if String.eqb l Autocorrelated && String.eqb b Autocorrelated
                                then Autocorrelated else Not_Autocorrelated).
  { intros label. rewrite In_overlap. split.
    - intros [oa [ob [Hin ->]]]. apply In_merge_outer in Hin.
      destruct oa as [a|], ob as [b'|].
      + destruct Hin as [Ha [Hka [Hb' Hkb]]].
        assert (a = pred_row k l)
          by (apply (@NoDup_key_unique ljung a (pred_row k l) Hndl Ha Hl); rewrite pred_row_key; exact Hka).
        assert (b' = pred_row k b)
          by (apply (@NoDup_key_unique breusch b' (pred_row k b) Hndb Hb' Hb); rewrite pred_row_key; exact Hkb).
        subst a b'. reflexivity.
      + destruct Hin as [_ [_ Hn]]. exfalso. apply Hn. eapply In_pred_row_key. exact Hb.
      + destruct Hin as [_ [_ Hn]]. exfalso. apply Hn. eapply In_pred_row_key. exact Hl.
      + contradiction.
    - intros ->. exists (Some (pred_row k l)), (Some (pred_row k b)).
      split; [|reflexivity]. apply In_merge_outer. rewrite !pred_row_key. auto. }
  split; [exact Hrows|]. split.
  - rewrite Hrows.
    destruct (String.eqb_spec l Autocorrelated), (String.eqb_spec b Autocorrelated); simpl;
      split; try tauto; try discriminate; intros [? ?]; contradiction.
  - intros Hneg. rewrite !Hrows.
    destruct (String.eqb_spec l Autocorrelated), (String.eqb_spec b Autocorrelated); simpl;
      try (split; [reflexivity | discriminate]).
    subst l b. destruct Hneg; discriminate.
Qed.

Lemma overlap_agreement_witness :
  In (labeled_row ("BTC", "1d") Autocorrelated)
     (overlap [pred_row ("BTC", "1d") Autocorrelated; pred_row ("ETH", "1d") Autocorrelated]
              [pred_row ("BTC", "1d") Autocorrelated; pred_row ("ETH", "1d") Not_Autocorrelated])
  /\ ~ In (labeled_row ("ETH", "1d") Autocorrelated)
     (overlap [pred_row ("BTC", "1d") Autocorrelated; pred_row ("ETH", "1d") Autocorrelated]
              [pred_row ("BTC", "1d") Autocorrelated; pred_row ("ETH", "1d") Not_Autocorrelated]).
Proof.
  assert (Hnd : NoDup [("BTC", "1d"); ("ETH", "1d")]).
  { constructor; [|constructor; [|constructor]]; simpl; intuition discriminate. }
  split.
  - apply (overlap_agreement
             [pred_row ("BTC", "1d") Autocorrelated; pred_row ("ETH", "1d") Autocorrelated]
             [pred_row ("BTC", "1d") Autocorrelated; pred_row ("ETH", "1d") Not_Autocorrelated]
             ("BTC", "1d") Autocorrelated Autocorrelated Hnd Hnd); simpl; auto.
  - apply (overlap_agreement
             [pred_row ("BTC", "1d") Autocorrelated; pred_row ("ETH", "1d") Autocorrelated]
             [pred_row ("BTC", "1d") Autocorrelated; pred_row ("ETH", "1d") Not_Autocorrelated]
             ("ETH", "1d") Autocorrelated Not_Autocorrelated Hnd Hnd); simpl; auto.
Defined.

(** C9 -- Missing-family default.  A (Coin, Time Frame) pair that only one
    of the two reduced tables has is kept by the outer merge with a null
    for the label of the other family, and its combined label is
    "Not Autocorrelated", whatever the label of the family that has it. *)
Theorem overlap_missing_family (ljung breusch : list PredominantlyRecord) (k : Key) :
  (In k (map pred_key ljung) /\ ~ In k (map pred_key breusch)
   \/ ~ In k (map pred_key ljung) /\ In k (map pred_key breusch)) ->
  (exists oa ob, In (k, oa, ob) (Pandas.merge_outer pred_key pred_key ljung breusch))
  /\ (forall oa ob, In (k, oa, ob) (Pandas.merge_outer pred_key pred_key ljung breusch) ->
        (In k (map pred_key ljung) -> oa <> None /\ ob = None)
        /\ (In k (map pred_key breusch) -> oa = None /\ ob <> None))
  /\ (forall label, In (labeled_row k label) (overlap ljung breusch)
                    <-> label = Not_Autocorrelated).
Proof.
  intros Hone.
  assert (Hshape : forall oa ob,
            In (k, oa, ob) (Pandas.merge_outer pred_key pred_key ljung breusch) ->
            (In k (map pred_key ljung) -> oa <> None /\ ob = None)
            /\ (In k (map pred_key breusch) -> oa = None /\ ob <> None)).
  { intros oa ob Hin. apply In_merge_outer in Hin.
    destruct oa as [a|], ob as [b|].
    - destruct Hin as [Ha [Hka [Hb Hkb]]]. exfalso.
      assert (In k (map pred_key ljung)) by (rewrite <- Hka; apply in_map; exact Ha).
      assert (In k (map pred_key breusch)) by (rewrite <- Hkb; apply in_map; exact Hb).
      tauto.
    - destruct Hin as [_ [_ Hn]]. split; [split; [discriminate | reflexivity] | tauto].
    - destruct Hin as [_ [_ Hn]]. split; [tauto | split; [reflexivity | discriminate]].
    - contradiction. }
  assert (Hex : exists oa ob, In (k, oa, ob) (Pandas.merge_outer pred_key pred_key ljung breusch)).
  { destruct Hone as [[Hl Hb] | [Hl Hb]].
    - apply in_map_iff in Hl. destruct Hl as [a [Hka Ha]].
      exists (Some a), None. apply In_merge_outer. auto.
    - apply in_map_iff in Hb. destruct Hb as [b [Hkb Hb]].
      exists None, (Some b). apply In_merge_outer. auto. }
  split; [exact Hex|]. split; [exact Hshape|].
  intros label. rewrite In_overlap. split.
  - intros [oa [ob [Hin ->]]]. destruct (Hshape oa ob Hin) as [H1 H2].
    destruct Hone as [[Hl _] | [_ Hb]].
    + destruct (H1 Hl) as [_ ->]. rewrite andb_false_r. reflexivity.
    + destruct (H2 Hb) as [-> _]. reflexivity.
  - intros ->. destruct Hex as [oa [ob Hin]]. exists oa, ob. split; [exact Hin|].
    destruct (Hshape oa ob Hin) as [H1 H2].
    destruct Hone as [[Hl _] | [_ Hb]].
    + destruct (H1 Hl) as [_ ->]. rewrite andb_false_r. reflexivity.
    + destruct (H2 Hb) as [-> _]. reflexivity.
Qed.

Lemma overlap_missing_family_witness :
  In (labeled_row ("ETH", "1d") Not_Autocorrelated)
     (overlap [pred_row ("BTC", "1d") Autocorrelated; pred_row ("ETH", "1d") Autocorrelated]
              [pred_row ("BTC", "1d") Autocorrelated]).
Proof.
  apply (overlap_missing_family
           [pred_row ("BTC", "1d") Autocorrelated; pred_row ("ETH", "1d") Autocorrelated]
           [pred_row ("BTC", "1d") Autocorrelated] ("ETH", "1d")).
  - left. simpl. split; [auto | intuition discriminate].
  - reflexivity.
Defined.

(** ** find_majority *)

(** The counter of a row lists the distinct cells in order of first
    appearance, each with its number of occurrences. *)
Lemma unique_snoc (p : list string) (x : string) :
  Pandas.unique (p ++ [x])
  = if in_dec string_dec x p then Pandas.unique p else Pandas.unique p ++ [x].
Proof.
  induction p as [|y p IH]; simpl; [reflexivity|].
  rewrite IH. destruct (string_dec y x) as [-> | Hne].
  - destruct (in_dec string_dec x p) as [Hin | Hout]; [reflexivity|].
    rewrite filter_app. simpl. rewrite String.eqb_refl. simpl.
    rewrite app_nil_r. reflexivity.
  - destruct (in_dec string_dec x p) as [Hin | Hout]; [reflexivity|].
    rewrite filter_app. simpl.
    destruct (String.eqb_spec y x) as [E | _]; [contradiction|]. reflexivity.
Qed.

Lemma counter_add_present (x : string) (f : string -> nat) (l : list string) :
  NoDup l -> In x l ->
  Counter.add x (map (fun z => (z, f z)) l)
  = map (fun z => (z, if string_dec x z then S (f z) else f z)) l.
Proof.
  induction l as [|y l IH]; simpl; [tauto|].
  intros Hnd Hin. inversion Hnd as [|? ? Hy Hl]; subst.
  destruct (String.eqb_spec y x) as [-> | Hne].
  - destruct (string_dec x x) as [_ | Hn]; [|contradiction]. f_equal.
    apply map_ext_in. intros z Hz.
    destruct (string_dec x z) as [-> | _]; [contradiction | reflexivity].
  - destruct (string_dec x y) as [E | _]; [symmetry in E; contradiction|].
    f_equal. apply IH; [exact Hl|]. destruct Hin as [E | Hin]; [contradiction | exact Hin].
Qed.

Lemma counter_add_absent (x : string) (f : string -> nat) (l : list string) :
  ~ In x l ->
  Counter.add x (map (fun z => (z, f z)) l) = map (fun z => (z, f z)) l ++ [(x, 1%nat)].
Proof.
  induction l as [|y l IH]; simpl; [reflexivity|].
  intros Hout. destruct (String.eqb_spec y x) as [E | _]; [exfalso; auto|].
  f_equal. apply IH. tauto.
Qed.

Lemma counter_of_list (row : list string) :
  Counter.of_list row
  = map (fun x => (x, count_occ string_dec row x)) (Pandas.unique row).
Proof.
  unfold Counter.of_list. induction row as [|x p IH] using rev_ind; [reflexivity|].
  rewrite fold_left_app. simpl. rewrite IH, unique_snoc.
  destruct (in_dec string_dec x p) as [Hin | Hout].
  - rewrite counter_add_present; [|apply NoDup_unique | apply In_unique; exact Hin].
    apply map_ext. intros z. rewrite count_occ_app. simpl.
    destruct (string_dec x z); f_equal; lia.
  - rewrite counter_add_absent; [|rewrite In_unique; exact Hout].
    rewrite map_app. simpl. f_equal.
    + apply map_ext_in. intros z Hz. rewrite count_occ_app. simpl.
      destruct (string_dec x z) as [-> | _]; [|f_equal; lia].
      exfalso. apply Hout. exact (proj1 (In_unique p z) Hz).
    + rewrite count_occ_app. simpl.
      destruct (string_dec x x) as [_ | Hn]; [|contradiction].
      rewrite (proj1 (count_occ_not_In string_dec p x) Hout). reflexivity.
Qed.

(** [max] returns the first entry of highest count. *)
Lemma max_from_first (c : Counter.t) (best r : string * nat) :
  r = Counter.max_from best c ->
  exists before after,
    best :: c = before ++ r :: after
    /\ (forall e, In e before -> (snd e < snd r)%nat)
    /\ (forall e, In e after -> (snd e <= snd r)%nat).
Proof.
  revert best. induction c as [|e rest IH]; intros best Hr; simpl in Hr.
  - subst r. exists [], []. simpl. tauto.
  - destruct (Nat.ltb_spec (snd best) (snd e)) as [Hlt | Hge].
    + destruct (IH e Hr) as [before [after [E [Hb Ha]]]].
      exists (best :: before), after. split; [simpl; f_equal; exact E|].
      split; [|exact Ha]. intros x [<- | Hx]; [|apply Hb; exact Hx].
      destruct before as [|y before]; simpl in E; injection E as E1 E2.
      * rewrite <- E1. exact Hlt.
      * specialize (Hb y (or_introl eq_refl)). rewrite <- E1 in Hb. lia.
    + destruct (IH best Hr) as [before [after [E [Hb Ha]]]].
      destruct before as [|y before]; simpl in E; injection E as E1 E2.
      * exists [], (e :: after). simpl. split; [rewrite E1, E2; reflexivity|].
        split; [tauto|]. intros x [<- | Hx]; [rewrite <- E1; exact Hge | apply Ha; exact Hx].
      * exists (best :: e :: before), after. split; [simpl; rewrite E2; reflexivity|].
        split; [|exact Ha]. specialize (Hb y (or_introl eq_refl)) as Hy. rewrite <- E1 in Hy.
        intros x [<- | [<- | Hx]]; [exact Hy | lia | apply Hb; right; exact Hx].
Qed.

(** [find_majority] returns, of the values of highest frequency among all
    the cells it is given, the one that appears first. *)
Lemma find_majority_first (row : list string) (v : string) :
  find_majority row = ok v ->
  exists before after,
    Pandas.unique row = before ++ v :: after
    /\ (forall w, In w before -> (count_occ string_dec row w < count_occ string_dec row v)%nat)
    /\ (forall w, In w after -> (count_occ string_dec row w <= count_occ string_dec row v)%nat).
Proof.
  unfold find_majority. rewrite counter_of_list.
  destruct (Pandas.unique row) as [|x l] eqn:Eu; simpl; [discriminate|].
  set (f := fun x => (x, count_occ string_dec row x)).
  change (x, count_occ string_dec row x) with (f x).
  destruct (Counter.max_from (f x) (map f l)) as [r n] eqn:Er.
  destruct (@max_from_first (map f l) (f x) (r, n) (eq_sym Er)) as [before [after [E [Hb Ha]]]].
  intros Hv. inversion Hv; subst r. change (f x :: map f l) with (map f (x :: l)) in E.
  apply map_eq_app in E. destruct E as [lb [rest [E [Elb Erest]]]].
  apply map_eq_cons in Erest. destruct Erest as [v' [la [Er' [Ev Ela]]]].
  unfold f in Ev. inversion Ev; subst v' n.
  exists lb, la. subst rest. split; [exact E|]. split.
  - intros w Hw. apply (Hb (f w)). rewrite <- Elb. apply in_map. exact Hw.
  - intros w Hw. apply (Ha (f w)). rewrite <- Ela. apply in_map. exact Hw.
Qed.

Lemma find_majority_returns (row : list string) :
  row <> [] -> exists v, find_majority row = ok v.
Proof.
  unfold find_majority. rewrite counter_of_list.
  destruct row as [|x t]; [contradiction|]. intros _. simpl.
  destruct (Counter.max_from _ _) as [v n]. exists v. reflexivity.
Qed.

(** A value that is strictly more frequent than every other cell of the
    row is the majority. *)
Lemma find_majority_strict (row : list string) (v : string) :
  In v row ->
  (forall w, In w row -> w <> v ->
             (count_occ string_dec row w < count_occ string_dec row v)%nat) ->
  find_majority row = ok v.
Proof.
  intros Hv Hmax.
  destruct (find_majority_returns (row := row)) as [r Hr];
    [intros ->; contradiction|].
  rewrite Hr. f_equal.
  destruct (find_majority_first _ Hr) as [before [after [E [Hb Ha]]]].
  destruct (string_dec r v) as [-> | Hne]; [reflexivity|]. exfalso.
  assert (Hr_in : In r row).
  { apply (proj1 (In_unique row r)). rewrite E. apply in_or_app. right. left. reflexivity. }
  specialize (Hmax r Hr_in Hne).
  apply (proj2 (In_unique row v)) in Hv. rewrite E in Hv. apply in_app_or in Hv.
  destruct Hv as [Hv | [Hv | Hv]].
  - specialize (Hb v Hv). lia.
  - contradiction.
  - specialize (Ha v Hv). lia.
Qed.

(** The first cell is the majority as soon as no cell is more frequent. *)
Lemma find_majority_head (x : string) (rest : list string) :
  (forall w, In w rest ->
             (count_occ string_dec (x :: rest) w <= count_occ string_dec (x :: rest) x)%nat) ->
  find_majority (x :: rest) = ok x.
Proof.
  intros Hmax.
  destruct (find_majority_returns (row := x :: rest)) as [r Hr]; [discriminate|].
  rewrite Hr. f_equal.
  destruct (find_majority_first _ Hr) as [before [after [E [Hb Ha]]]].
  assert (Hu := E). simpl in Hu.
  destruct before as [|y before]; simpl in Hu; injection Hu as E1 E2; [symmetry; exact E1|].
  subst y. exfalso. specialize (Hb x (or_introl eq_refl)).
  assert (Hr_in : In r (x :: rest)).
  { apply (proj1 (In_unique (x :: rest) r)). rewrite E.
    apply in_or_app. right. left. reflexivity. }
  destruct Hr_in as [-> | Hr_in]; [lia|]. specialize (Hmax r Hr_in). lia.
Qed.

(** X8 -- On a row of the trend table: an outcome found at least twice
    and more often than any other outcome is the label, provided the coin
    and the time frame are different strings and none of them is an
    outcome. *)
Lemma find_majority_trend_row (r : TrendRecord) (v : string) :
  trend_coin r <> trend_time_frame r ->
  ~ In (trend_coin r) (trend_tests r) -> ~ In (trend_time_frame r) (trend_tests r) ->
  (2 <= count_occ string_dec (trend_tests r) v)%nat ->
  (forall w, w <> v -> (count_occ string_dec (trend_tests r) w
                        < count_occ string_dec (trend_tests r) v)%nat) ->
  find_majority (trend_cells r) = ok v.
Proof.
  destruct r as [coin tf tests]. unfold trend_cells. simpl.
  intros Hct Hc Ht Hv Hmax.
  assert (Hin : In v tests) by (apply (count_occ_In string_dec); lia).
  assert (Hvc : coin <> v) by (intros ->; contradiction).
  assert (Hvt : tf <> v) by (intros ->; contradiction).
  apply find_majority_strict; [right; right; exact Hin|].
  intros w Hw Hne. simpl.
  destruct (string_dec coin v) as [E|_]; [contradiction|].
  destruct (string_dec tf v) as [E|_]; [contradiction|].
  destruct (string_dec coin w) as [Ecw | Hcw], (string_dec tf w) as [Etw | Htw].
  - exfalso. apply Hct. congruence.
  - subst w. rewrite (proj1 (count_occ_not_In string_dec tests coin) Hc). lia.
  - subst w. rewrite (proj1 (count_occ_not_In string_dec tests tf) Ht). lia.
  - apply Hmax. exact Hne.
Qed.

(** X9 -- On a row of the trend table whose outcomes all differ the label
    is the coin, provided the coin and the time frame are different
    strings and none of them is an outcome. *)
Lemma find_majority_trend_tie (r : TrendRecord) :
  trend_coin r <> trend_time_frame r ->
  ~ In (trend_coin r) (trend_tests r) -> ~ In (trend_time_frame r) (trend_tests r) ->
  NoDup (trend_tests r) ->
  find_majority (trend_cells r) = ok (trend_coin r).
Proof.
  destruct r as [coin tf tests]. unfold trend_cells. simpl. intros Hct Hc Ht Hnd.
  apply find_majority_head. intros w Hw. simpl.
  destruct (string_dec coin coin) as [_ | Hn]; [|contradiction].
  destruct (string_dec tf coin) as [E | _]; [symmetry in E; contradiction|].
  rewrite (proj1 (count_occ_not_In string_dec tests coin) Hc).
  assert (Hle : (count_occ string_dec tests w <= 1)%nat)
    by (apply (proj1 (NoDup_count_occ string_dec tests) Hnd)).
  destruct (string_dec coin w) as [Ecw | Hcw], (string_dec tf w) as [Etw | Htw].
  - exfalso. apply Hct. congruence.
  - subst w. rewrite (proj1 (count_occ_not_In string_dec tests coin) Hc). lia.
  - subst w. rewrite (proj1 (count_occ_not_In string_dec tests tf) Ht). lia.
  - lia.
Qed.

(** C3 -- Majority vote.  [trend] applies [find_majority] to whole rows of
    the trend table, so the cells of the Coin and Time Frame columns are
    counted with the test outcomes and come first.  For a row with the
    single test outcome "increasing" the coin is returned, although
    "increasing" is the most frequent outcome of the test columns; for a
    row whose outcomes are all different the coin is returned as well. *)
Theorem find_majority_counts_key_cells :
  find_majority (trend_cells {| trend_coin := "BTC"; trend_time_frame := "1d";
                               trend_tests := ["increasing"] |}) = ok "BTC"
  /\ trend_table [ {| trend_coin := "BTC"; trend_time_frame := "1d";
                      trend_tests := ["increasing"] |} ]
     = ok [ {| Coin := "BTC"; Time_Frame := "1d"; Result := "BTC" |} ]
  /\ trend_table [ {| trend_coin := "BTC"; trend_time_frame := "1d";
                      trend_tests := ["increasing"; "no trend"; "decreasing"] |} ]
     = ok [ {| Coin := "BTC"; Time_Frame := "1d"; Result := "BTC" |} ].
Proof. repeat split; reflexivity. Qed.

(** ** Folding the directions *)

Lemma replace_absent (pat repl s : string) :
  occurs pat s = false -> Pandas.replace_from pat repl 0 s = s.
Proof.
  induction s as [|c s IH]; [reflexivity|].
  intros Hocc. apply orb_false_iff in Hocc. destruct Hocc as [Hp Hs].
  cbn [Pandas.replace_from]. rewrite Hp, (IH Hs). reflexivity.
Qed.

Lemma occurs_tail (q : string) (c : ascii) (s : string) :
  occurs q (String c s) = false -> occurs q s = false.
Proof. cbn [occurs]. intros Hocc. apply orb_false_iff in Hocc. tauto. Qed.

Lemma occurs_prefix (q s : string) : occurs q s = false -> Pandas.prefixb q s = false.
Proof. destruct s; cbn [occurs]; intros Hocc; apply orb_false_iff in Hocc; tauto. Qed.

Lemma occurs_drop (q : string) (n : nat) (s : string) :
  occurs q s = false -> occurs q (string_drop n s) = false.
Proof.
  revert s. induction n as [|n IH]; intros s Hocc; [exact Hocc|].
  destruct s as [|c s]; [exact Hocc|]. simpl. apply IH. eapply occurs_tail. exact Hocc.
Qed.

Lemma string_drop_length (n : nat) (s : string) :
  (String.length (string_drop n s) <= String.length s)%nat.
Proof.
  revert s. induction n as [|n IH]; intros s; [simpl; lia|].
  destruct s as [|c s]; simpl; [lia|]. specialize (IH s). lia.
Qed.

Section Replace.
Variable pat : string.

Let replace := Pandas.replace_from pat "trend" 0.

(** The characters skipped after a match are the rest of the match. *)
Lemma replace_from_skip (repl : string) (k : nat) (s : string) :
  Pandas.replace_from pat repl k s = Pandas.replace_from pat repl 0 (string_drop k s).
Proof.
  revert k. induction s as [|c s IH]; intros k.
  - destruct k; reflexivity.
  - destruct k as [|k]; [reflexivity|]. cbn [Pandas.replace_from string_drop]. apply IH.
Qed.

Lemma replace_match (c : ascii) (s : string) :
  Pandas.prefixb pat (String c s) = true ->
  replace (String c s) = ("trend" ++ replace (string_drop (String.length pat - 1) s))%string.
Proof.
  intros Hp. unfold replace. cbn [Pandas.replace_from]. rewrite Hp.
  rewrite replace_from_skip. reflexivity.
Qed.

Lemma replace_literal (c : ascii) (s : string) :
  Pandas.prefixb pat (String c s) = false ->
  replace (String c s) = String c (replace s).
Proof. intros Hp. unfold replace. cbn [Pandas.replace_from]. rewrite Hp. reflexivity. Qed.

(** A text without the letter t that starts the replaced string starts
    the original string. *)
Lemma prefix_literal (q s : string) :
  has_char "t" q = false -> Pandas.prefixb q (replace s) = true -> Pandas.prefixb q s = true.
Proof.
  revert s. induction q as [|a q IH]; intros s Hq Hp; [reflexivity|].
  cbn [has_char] in Hq. apply orb_false_iff in Hq. destruct Hq as [Ha Hq].
  destruct s as [|c s]; [discriminate Hp|].
  destruct (Pandas.prefixb pat (String c s)) eqn:Hm.
  - rewrite (replace_match _ _ Hm) in Hp. simpl in Hp. rewrite Ha in Hp. discriminate.
  - rewrite (replace_literal _ _ Hm) in Hp. cbn [Pandas.prefixb] in Hp |- *.
    apply andb_true_iff in Hp. destruct Hp as [Hc Hp]. rewrite Hc. simpl.
    apply IH; assumption.
Qed.

(** When is a text [q] absent from the replaced string: [q] does not
    start at a character that was kept, nor inside or at a replacement. *)
Variable q : string.
Variable Good : string -> Prop.
Hypothesis Good_tail : forall c s, Good (String c s) -> Good s.
Hypothesis q_not_empty : q <> EmptyString.
Hypothesis q_without_t : has_char "t" q = false.
Hypothesis kept : forall s, Good s -> Pandas.prefixb pat s = false -> Pandas.prefixb q s = false.
Hypothesis replaced : forall c s,
  Good (String c s) -> Pandas.prefixb pat (String c s) = true ->
  forall u, u = replace (string_drop (String.length pat - 1) s) ->
  Pandas.prefixb q ("trend" ++ u)%string = false
  /\ Pandas.prefixb q ("rend" ++ u)%string = false
  /\ Pandas.prefixb q ("end" ++ u)%string = false
  /\ Pandas.prefixb q ("nd" ++ u)%string = false
  /\ Pandas.prefixb q ("d" ++ u)%string = false.

Lemma Good_drop (n : nat) (s : string) : Good s -> Good (string_drop n s).
Proof.
  revert s. induction n as [|n IH]; intros s Hs; [exact Hs|].
  destruct s as [|c s]; [exact Hs|]. simpl. apply IH. eapply Good_tail. exact Hs.
Qed.

Lemma occurs_replace (s : string) : Good s -> occurs q (replace s) = false.
Proof.
  remember (String.length s) as n eqn:Hn. assert (Hlen : (String.length s <= n)%nat) by lia.
  clear Hn. revert s Hlen. induction n as [|n IH]; intros s Hlen Hs.
  - destruct s; [|simpl in Hlen; lia]. destruct q; [contradiction | reflexivity].
  - destruct s as [|c s]; [destruct q; [contradiction | reflexivity]|].
    simpl in Hlen.
    destruct (Pandas.prefixb pat (String c s)) eqn:Hm.
    + destruct (replaced Hs Hm eq_refl) as [H1 [H2 [H3 [H4 H5]]]].
      rewrite (replace_match _ _ Hm).
      assert (Hrest : occurs q (replace (string_drop (String.length pat - 1) s)) = false).
      { apply IH.
        - pose proof (string_drop_length (String.length pat - 1) s). lia.
        - apply Good_drop. eapply Good_tail. exact Hs. }
      change ("trend" ++ replace (string_drop (String.length pat - 1) s))%string
        with (String "t" (String "r" (String "e" (String "n" (String "d"
                (replace (string_drop (String.length pat - 1) s))))))) in *.
      cbn [occurs]. simpl append in H2, H3, H4, H5.
      rewrite H1, H2, H3, H4, H5. simpl. exact Hrest.
    + rewrite (replace_literal _ _ Hm). cbn [occurs].
      rewrite <- (replace_literal _ _ Hm).
      assert (Hp : Pandas.prefixb q (replace (String c s)) = false).
      { destruct (Pandas.prefixb q (replace (String c s))) eqn:Hp; [|reflexivity].
        apply (prefix_literal _ _ q_without_t) in Hp.
        rewrite (kept Hs Hm) in Hp. discriminate. }
      rewrite Hp. simpl. apply IH; [lia|]. eapply Good_tail. exact Hs.
Qed.
End Replace.

Ltac first_letters := intros; subst; repeat split; reflexivity.

Lemma prefixb_app (a b s : string) :
  Pandas.prefixb a s = true ->
  Pandas.prefixb b (string_drop (String.length a) s) = true ->
  Pandas.prefixb (a ++ b)%string s = true.
Proof.
  revert s. induction a as [|x a IH]; intros s Ha Hb; [exact Hb|].
  destruct s as [|c s]; [discriminate Ha|].
  cbn [Pandas.prefixb] in Ha. apply andb_true_iff in Ha. destruct Ha as [Hx Ha].
  simpl. rewrite Hx. simpl. apply IH; assumption.
Qed.

Lemma prefixb_shorter (a b s : string) :
  Pandas.prefixb (a ++ b)%string s = true -> Pandas.prefixb a s = true.
Proof.
  revert s. induction a as [|x a IH]; intros s Hab; [reflexivity|].
  destruct s as [|c s]; [discriminate Hab|].
  simpl in Hab |- *. apply andb_true_iff in Hab. destruct Hab as [Hx Hab].
  rewrite Hx. simpl. apply IH. exact Hab.
Qed.

(** The first replacement leaves no "increasing". *)
Lemma increasing_replaced (s : string) :
  occurs "increasing" (Pandas.replace_from "increasing" "trend" 0 s) = false.
Proof.
  apply (@occurs_replace "increasing" "increasing" (fun _ => True)).
  - intros; exact I.
  - discriminate.
  - reflexivity.
  - intros s' _ Hm. exact Hm.
  - first_letters.
  - exact I.
Qed.

(** The first replacement builds no "decreasing" followed by "ecreasing"
    in a foldable label. *)
Lemma ecreasing_not_built (s : string) :
  foldable s ->
  occurs "decreasingecreasing" (Pandas.replace_from "increasing" "trend" 0 s) = false.
Proof.
  apply (@occurs_replace "increasing" "decreasingecreasing" foldable).
  - intros c s' [Hi Hd]. split; eapply occurs_tail; eassumption.
  - discriminate.
  - reflexivity.
  - intros s' [_ Hd] _. apply occurs_prefix. exact Hd.
  - intros c s' [Hi _] Hm u ->. repeat split; try reflexivity.
    match goal with |- ?lhs = false => destruct lhs eqn:Hd; [|reflexivity] end.
    change (Pandas.prefixb "ecreasingecreasing"
              (Pandas.replace_from "increasing" "trend" 0 (string_drop 9 s')) = true) in Hd.
    apply prefix_literal in Hd; [|reflexivity].
    apply occurs_prefix in Hi.
    assert (Hx : Pandas.prefixb "increasingecreasing" (String c s') = true)
      by exact (prefixb_app "increasing" "ecreasing" (String c s') Hm
                  (prefixb_shorter "ecreasing" "ecreasing" _ Hd)).
    rewrite Hx in Hi. discriminate.
Qed.

(** The second replacement builds no "increasing". *)
Lemma increasing_not_built (s : string) :
  occurs "increasing" s = false ->
  occurs "increasing" (Pandas.replace_from "decreasing" "trend" 0 s) = false.
Proof.
  apply (@occurs_replace "decreasing" "increasing" (fun s => occurs "increasing" s = false)).
  - intros c s'. apply occurs_tail.
  - discriminate.
  - reflexivity.
  - intros s' Hs _. apply occurs_prefix. exact Hs.
  - first_letters.
Qed.

(** The second replacement leaves no "decreasing" unless one of those it
    replaces is followed by "ecreasing". *)
Lemma decreasing_replaced (s : string) :
  occurs "decreasingecreasing" s = false ->
  occurs "decreasing" (Pandas.replace_from "decreasing" "trend" 0 s) = false.
Proof.
  apply (@occurs_replace "decreasing" "decreasing"
           (fun s => occurs "decreasingecreasing" s = false)).
  - intros c s'. apply occurs_tail.
  - discriminate.
  - reflexivity.
  - intros s' _ Hm. exact Hm.
  - intros c s' Hs Hm u ->. repeat split; try reflexivity.
    match goal with |- ?lhs = false => destruct lhs eqn:Hd; [|reflexivity] end.
    change (Pandas.prefixb "ecreasing"
              (Pandas.replace_from "decreasing" "trend" 0 (string_drop 9 s')) = true) in Hd.
    apply prefix_literal in Hd; [|reflexivity].
    apply occurs_prefix in Hs.
    assert (Hx : Pandas.prefixb "decreasingecreasing" (String c s') = true)
      by exact (prefixb_app "decreasing" "ecreasing" (String c s') Hm Hd).
    rewrite Hx in Hs. discriminate.
Qed.

(** One folding of a foldable label leaves neither direction. *)
Lemma fold_direction_clean (label : string) :
  foldable label ->
  occurs "increasing" (fold_direction label) = false
  /\ occurs "decreasing" (fold_direction label) = false.
Proof.
  intros Hf. unfold fold_direction, Pandas.str_replace. split.
  - apply increasing_not_built. apply increasing_replaced.
  - apply decreasing_replaced. apply ecreasing_not_built. exact Hf.
Qed.

Lemma fold_direction_fixed (label : string) :
  occurs "increasing" label = false -> occurs "decreasing" label = false ->
  fold_direction label = label.
Proof.
  intros Hi Hd. unfold fold_direction, Pandas.str_replace.
  rewrite (replace_absent _ _ _ Hi). apply replace_absent. exact Hd.
Qed.

(** C7 -- Directional folding idempotence, for columns in which no label
    has "increasing" or "decreasing" directly followed by "ecreasing":
    folding such a column twice gives the column folded once. *)
Theorem fold_directions_idempotent (column : list string) :
  Forall foldable column ->
  fold_directions (fold_directions column) = fold_directions column.
Proof.
  unfold fold_directions. intros Hall. rewrite map_map.
  apply map_ext_in. intros label Hin.
  rewrite Forall_forall in Hall.
  destruct (fold_direction_clean (Hall label Hin)) as [Hi Hd].
  apply fold_direction_fixed; assumption.
Qed.

Lemma fold_directions_idempotent_witness :
  fold_directions (fold_directions ["increasing"; "no trend"; "decreasing"])
  = fold_directions ["increasing"; "no trend"; "decreasing"].
Proof.
  apply fold_directions_idempotent.
  repeat constructor.
Defined.

(** The replacement is a replacement of substrings: folding the label
    "decreasingecreasing" leaves "trendecreasing", which a second folding
    turns into "trentrend". *)
Lemma fold_directions_not_idempotent :
  fold_directions ["decreasingecreasing"] = ["trendecreasing"]
  /\ fold_directions (fold_directions ["decreasingecreasing"]) = ["trentrend"]
  /\ fold_directions (fold_directions ["decreasingecreasing"])
     <> fold_directions ["decreasingecreasing"].
Proof. repeat split. discriminate. Qed.

(** ** merge_rmse *)

Lemma NoDup_map_on (A B : Type) (f : A -> B) (l : list A) :
  NoDup l -> (forall x y, In x l -> In y l -> f x = f y -> x = y) -> NoDup (map f l).
Proof.
  induction l as [|x t IH]; simpl; intros Hnd Hinj; [constructor|].
  inversion Hnd as [|? ? Hx Ht]; subst. constructor.
  - intros Hin. apply in_map_iff in Hin. destruct Hin as [y [E Hy]].
    assert (y = x) by (apply Hinj; auto). subst y. contradiction.
  - apply IH; [exact Ht|]. intros a b Ha Hb. apply Hinj; auto.
Qed.

Lemma key_unique (A K : Type) (key : A -> K) (l : list A) (x y : A) :
  NoDup (map key l) -> In x l -> In y l -> key x = key y -> x = y.
Proof.
  induction l as [|z t IH]; simpl; [tauto|].
  intros Hnd Hx Hy E. inversion Hnd as [|? ? Hz Ht]; subst.
  destruct Hx as [-> | Hx], Hy as [-> | Hy]; auto.
  - exfalso. apply Hz. rewrite E. apply in_map. exact Hy.
  - exfalso. apply Hz. rewrite <- E. apply in_map. exact Hx.
Qed.

Section MergeBounds.
Context {K : Type} `{GroupKeyLaws K}.
Variables A B : Type.
Variable ka : A -> K.
Variable kb : B -> K.

Lemma NoDup_merge_inner (left : list A) (right : list B) :
  NoDup left -> NoDup right -> NoDup (Pandas.merge_inner ka kb left right).
Proof.
  intros Hl Hr. unfold Pandas.merge_inner.
  induction left as [|a t IH]; simpl; [constructor|].
  inversion Hl as [|? ? Ha Ht]; subst. apply NoDup_app.
  - apply NoDup_map_on.
    + apply NoDup_filter. exact Hr.
    + intros x y _ _ E. inversion E. reflexivity.
  - apply IH. exact Ht.
  - intros [a' b] Hin Hin'. apply in_map_iff in Hin. destruct Hin as [b' [E _]].
    inversion E; subst. apply in_flat_map in Hin'. destruct Hin' as [a'' [Ha'' Hp]].
    apply in_map_iff in Hp. destruct Hp as [b'' [E' _]]. inversion E'; subst. contradiction.
Qed.

(** With distinct keys on both sides an inner merge has, among the rows
    that satisfy a condition on the key, no more rows than either side. *)
Lemma merge_inner_bound (P : K -> bool) (left : list A) (right : list B) :
  NoDup (map ka left) -> NoDup (map kb right) ->
  (length (filter (fun p => P (ka (fst p))) (Pandas.merge_inner ka kb left right))
   <= Nat.min (length (filter (fun a => P (ka a)) left))
              (length (filter (fun b => P (kb b)) right)))%nat.
Proof.
  intros Hl Hr.
  set (out := filter (fun p => P (ka (fst p))) (Pandas.merge_inner ka kb left right)).
  assert (Hout : NoDup out).
  { apply NoDup_filter. apply NoDup_merge_inner; eapply NoDup_map_inv; eassumption. }
  assert (Hrow : forall a b, In (a, b) out ->
                   In a left /\ In b right /\ kb b = ka a /\ P (ka a) = true).
  { intros a b Hin. apply filter_In in Hin. destruct Hin as [Hin HP].
    apply In_merge_inner in Hin. simpl in HP. tauto. }
  apply Nat.min_glb.
  - rewrite <- (length_map fst out). apply NoDup_incl_length.
    + apply NoDup_map_on; [exact Hout|].
      intros [a b] [a' b'] Hx Hy E. simpl in E. subst a'.
      apply Hrow in Hx, Hy. f_equal.
      apply (key_unique kb right b b' Hr); try tauto.
      destruct Hx as [_ [_ [-> _]]], Hy as [_ [_ [-> _]]]. reflexivity.
    + intros a Hin. apply in_map_iff in Hin. destruct Hin as [[a' b] [E Hin]].
      simpl in E. subst a'. apply Hrow in Hin. apply filter_In. tauto.
  - rewrite <- (length_map snd out). apply NoDup_incl_length.
    + apply NoDup_map_on; [exact Hout|].
      intros [a b] [a' b'] Hx Hy E. simpl in E. subst b'.
      apply Hrow in Hx, Hy. f_equal.
      apply (key_unique ka left a a' Hl); try tauto.
      destruct Hx as [_ [_ [<- _]]], Hy as [_ [_ [<- _]]]. reflexivity.
    + intros b Hin. apply in_map_iff in Hin. destruct Hin as [[a b'] [E Hin]].
      simpl in E. subst b'. apply Hrow in Hin. apply filter_In.
      destruct Hin as [_ [Hb [-> HP]]]. auto.
Qed.

Lemma select_pairs (a : A) (k : K) (l : list B) :
  length (Pandas.select (fun p : A * B => ka (fst p)) k (map (pair a) l))
  = if key_eqb (ka a) k then length l else O.
Proof.
  unfold Pandas.select. induction l as [|b l IHl]; simpl.
  - destruct (key_eqb (ka a) k); reflexivity.
  - destruct (key_eqb (ka a) k); simpl; rewrite IHl; reflexivity.
Qed.

(** In general a key of [m] left rows and [n] right rows has [m * n] rows
    in the inner merge. *)
Lemma merge_inner_group_size (k : K) (left : list A) (right : list B) :
  length (Pandas.select (fun p => ka (fst p)) k (Pandas.merge_inner ka kb left right))
  = (length (Pandas.select ka k left) * length (Pandas.select kb k right))%nat.
Proof.
  unfold Pandas.merge_inner.
  induction left as [|a t IH]; simpl; [reflexivity|].
  unfold Pandas.select at 1. rewrite filter_app, length_app.
  fold (Pandas.select (fun p : A * B => ka (fst p)) k
          (map (pair a) (Pandas.select kb (ka a) right))).
  fold (Pandas.select (fun p : A * B => ka (fst p)) k
          (flat_map (fun a0 => map (pair a0) (Pandas.select kb (ka a0) right)) t)).
  rewrite IH, select_pairs.
  destruct (key_eqb (ka a) k) eqn:Ek; simpl; [|reflexivity].
  apply key_eqb_eq in Ek. subst k. reflexivity.
Qed.
End MergeBounds.

Lemma merge_rmse_loaded (F R T : Type) (env : Env F R T) (A : Type) (key : A -> Key)
    (df : list A) (rmse_df : Frame (ErrorRecord F)) :
  rmse_table env = inr rmse_df ->
  merge_rmse env key df
  = ([], inr {| model_columns := model_columns rmse_df;
                frame_rows := Pandas.merge_inner key (@err_key F) df rmse_df |}).
Proof. intros E. unfold merge_rmse, bind, lift, ret. simpl. rewrite E. reflexivity. Qed.

(** C4 -- Inner-join semantics of [merge_rmse].  Once the RMSE tables are
    read, [merge_rmse] returns the table of the pairs of a labeled row and
    an error row of the same (Coin, Time Frame): the pair of every output
    row exists in both source tables, and a labeled row without an error
    entry of its pair is in no output row.  When no pair is repeated in
    the labeled table nor in the RMSE table, the number of output rows of
    a time frame is at most the smaller of the numbers of labeled rows and
    of error rows of that time frame. *)
Theorem merge_rmse_inner_join (F R T : Type) (env : Env F R T) (A : Type) (key : A -> Key)
    (df : list A) (rmse_df : Frame (ErrorRecord F)) :
  rmse_table env = inr rmse_df ->
  exists out,
    merge_rmse env key df = ([], inr out)
    /\ (forall a e, In (a, e) out <-> In a df /\ In e rmse_df /\ err_key e = key a)
    /\ (forall a, In a df -> ~ In (key a) (map (@err_key F) rmse_df) -> ~ In a (map fst out))
    /\ (NoDup (map key df) -> NoDup (map (@err_key F) rmse_df) ->
        forall time_frame,
          (length (at_time_frame (fun p => key (fst p)) time_frame out)
           <= Nat.min (length (at_time_frame key time_frame df))
                      (length (at_time_frame (@err_key F) time_frame rmse_df)))%nat).
Proof.
  intros Hrmse. eexists. split; [apply merge_rmse_loaded; exact Hrmse|].
  cbn [frame_rows]. split; [|split].
  - intros a e. apply In_merge_inner.
  - intros a Ha Hno Hin. apply in_map_iff in Hin. destruct Hin as [[a' e] [E Hin]].
    simpl in E. subst a'. apply In_merge_inner in Hin. destruct Hin as [_ [He Hk]].
    apply Hno. rewrite <- Hk. apply in_map. exact He.
  - intros Hdf Hr time_frame. unfold at_time_frame.
    apply (merge_inner_bound key (@err_key F) (fun k => String.eqb (snd k) time_frame) df rmse_df Hdf Hr).
Qed.

Lemma merge_rmse_inner_join_witness :
  exists out,
    merge_rmse Fixture.env labeled_key Fixture.labeled_pairs = ([], inr out)
    /\ (length (at_time_frame (fun p => labeled_key (fst p)) "1d" out) <= 2)%nat.
Proof.
  destruct (merge_rmse_inner_join Fixture.env labeled_key Fixture.labeled_pairs
              (rmse_df := Fixture.errors) eq_refl) as [out [Hrun [_ [_ Hbound]]]].
  exists out. split; [exact Hrun|].
  apply (Nat.le_trans _ _ _ (Hbound ltac:(vm_compute; repeat constructor; simpl; intuition discriminate)
                                    ltac:(vm_compute; repeat constructor; simpl; intuition discriminate)
                                    "1d")).
  vm_compute. repeat constructor.
Defined.

(** A pair listed three times in the labeled table and once in the RMSE
    table has three rows in the joined table: more than the error rows of
    the time frame. *)
Lemma merge_rmse_row_count_exceeds :
  exists rmse_df out,
    rmse_table Fixture.env = inr rmse_df
    /\ merge_rmse Fixture.env labeled_key Fixture.repeated_pair = ([], inr out)
    /\ length (at_time_frame labeled_key "1d" Fixture.repeated_pair) = 3%nat
    /\ length (at_time_frame (@err_key Q) "1d" rmse_df) = 2%nat
    /\ length (at_time_frame (fun p => labeled_key (fst p)) "1d" out) = 3%nat
    /\ ~ (length (at_time_frame (fun p => labeled_key (fst p)) "1d" out)
          <= Nat.min (length (at_time_frame labeled_key "1d" Fixture.repeated_pair))
                     (length (at_time_frame (@err_key Q) "1d" rmse_df)))%nat.
Proof.
  eexists. eexists. split; [reflexivity|]. split; [reflexivity|].
  repeat split. vm_compute. intros Hle.
  repeat match goal with H : (S _ <= S _)%nat |- _ => apply le_S_n in H end.
  inversion Hle.
Qed.

(** ** Runs of the analysis functions *)

Lemma flat_map_ext_in (A B : Type) (f g : A -> list B) (l : list A) :
  (forall x, In x l -> f x = g x) -> flat_map f l = flat_map g l.
Proof.
  induction l as [|x t IH]; simpl; intros E; [reflexivity|].
  rewrite (E x (or_introl eq_refl)), IH; [reflexivity|].
  intros y Hy. apply E. right. exact Hy.
Qed.

Section Runs.
Variables F R T : Type.
Variable env : Env F R T.

Lemma bind_raise (A B : Type) (m : M F R T A) (f : A -> M F R T B) (e : exn) :
  m = ([], inl e) -> bind m f = ([], inl e).
Proof. intros ->. reflexivity. Qed.

Lemma bind_return (A B : Type) (m : M F R T A) (f : A -> M F R T B) (a : A) :
  m = ([], inr a) -> bind m f = f a.
Proof. intros ->. unfold bind. simpl. destruct (f a). reflexivity. Qed.

(** A run that completes went through both parts of a sequence. *)
Lemma bind_run (A B : Type) (m : M F R T A) (f : A -> M F R T B) :
  completes (bind m f) ->
  exists a, snd m = inr a /\ completes (f a) /\ fst (bind m f) = fst m ++ fst (f a).
Proof.
  unfold completes, bind. destruct m as [tr [e | a]]; simpl.
  - intros [b Hb]. discriminate.
  - intros Hb. exists a. auto.
Qed.

Lemma tests_of_app (model : string) (t1 t2 : list (event F R T)) :
  tests_of model (t1 ++ t2) = tests_of model t1 ++ tests_of model t2.
Proof. unfold tests_of. apply flat_map_app. Qed.

Lemma merge_rmse_trace (A : Type) (key : A -> Key) (df : list A) :
  fst (merge_rmse env key df) = [].
Proof. unfold merge_rmse, bind, lift. simpl. destruct (rmse_table env); reflexivity. Qed.

Lemma high_auto_cor_trace (test_type : string) : fst (high_auto_cor env test_type) = [].
Proof.
  unfold high_auto_cor, bind, lift. simpl.
  destruct (read_diagnostic_csv env _); reflexivity.
Qed.

Lemma repeat_count (c : string -> test_call F) (model : string) (models : list string) :
  flat_map (fun m => if String.eqb m model then [c m] else []) models
  = repeat (c model) (count_occ string_dec models model).
Proof.
  induction models as [|m rest IH]; simpl; [reflexivity|].
  destruct (String.eqb_spec m model) as [-> | Hne].
  - destruct (string_dec model model) as [_ | Hn]; [|contradiction].
    simpl. rewrite IH. reflexivity.
  - destruct (string_dec m model) as [E | _]; [contradiction|]. simpl. exact IH.
Qed.

(** The tests of a loop over the models are the tests of its iterations. *)
Lemma for_models_tests (V : Type) (body : string -> M F R T V) (model : string)
    (models : list string) (results : list (string * V)) :
  completes (for_models body models results) ->
  tests_of model (fst (for_models body models results))
  = flat_map (fun m => tests_of model (fst (body m))) models
  /\ Forall (fun m => completes (body m)) models.
Proof.
  revert results. induction models as [|m rest IH]; intros results Hrun.
  - simpl. split; [reflexivity | constructor].
  - simpl in Hrun |- *. apply bind_run in Hrun.
    destruct Hrun as [v [Hv [Hrest Htrace]]]. rewrite Htrace, tests_of_app.
    destruct (IH _ Hrest) as [IHt IHc]. rewrite IHt. split; [reflexivity|].
    constructor; [exists v; exact Hv | exact IHc].
Qed.

(** The tests of a Mann-Whitney loop in the iterations of a model: one
    per listing of the model, all on the samples of the model. *)
Lemma mannwhitneyu_by_tests (A : Type) (column : string) (label : A -> string)
    (df : Frame (A * ErrorRecord F)) (model : string) :
  completes (mannwhitneyu_by env column label df) ->
  exists groups,
    tests_of model (fst (mannwhitneyu_by env column label df))
    = repeat (Mannwhitneyu model column groups)
             (count_occ string_dec (all_models (config env)) model)
    /\ (In model (all_models (config env)) -> groups_of label model df = inr groups).
Proof.
  unfold mannwhitneyu_by. intros Hrun.
  destruct (for_models_tests _ model _ _ Hrun) as [Ht Hc]. rewrite Ht.
  exists (match groups_of label model df with inr g => g | inl _ => [] end).
  rewrite Forall_forall in Hc. split.
  - rewrite <- (repeat_count (fun m => Mannwhitneyu m column
                   (match groups_of label m df with inr g => g | inl _ => [] end))).
    apply flat_map_ext_in. intros m Hm. specialize (Hc m Hm).
    apply bind_run in Hc. destruct Hc as [g [Hg [_ Htrace]]]. rewrite Htrace.
    unfold lift in Hg |- *. simpl in Hg |- *. rewrite Hg. simpl.
    destruct (String.eqb m model); reflexivity.
  - intros Hm. specialize (Hc model Hm).
    apply bind_run in Hc. destruct Hc as [g [Hg _]].
    unfold lift in Hg. simpl in Hg. rewrite Hg. reflexivity.
Qed.

Lemma anova_tests (df : Frame (LabeledRecord * ErrorRecord F)) (model : string)
    (models : list string) :
  completes (anova_loop env df models) ->
  tests_of model (fst (anova_loop env df models))
  = repeat (AnovaLm F model (anova_formula model)) (count_occ string_dec models model).
Proof.
  rewrite <- (repeat_count (fun m => AnovaLm F m (anova_formula m))).
  induction models as [|m rest IH]; intros Hrun; [reflexivity|].
  simpl in Hrun |- *. apply bind_run in Hrun.
  destruct Hrun as [table [_ [Hrun Htrace]]]. rewrite Htrace. clear Htrace.
  apply bind_run in Hrun. destruct Hrun as [u [_ [Hrun Htrace]]]. rewrite Htrace.
  rewrite !tests_of_app, (IH Hrun). simpl.
  destruct (String.eqb m model); reflexivity.
Qed.

(** A loop whose iterations hand over one test each. *)
Lemma for_models_single (V : Type) (body : string -> M F R T V) (c : string -> test_call F)
    (model : string) (models : list string) (results : list (string * V)) :
  (forall m, completes (body m) ->
             tests_of model (fst (body m)) = if String.eqb m model then [c m] else []) ->
  completes (for_models body models results) ->
  tests_of model (fst (for_models body models results))
  = repeat (c model) (count_occ string_dec models model).
Proof.
  intros Hbody Hrun.
  destruct (for_models_tests _ model _ _ Hrun) as [Ht Hc]. rewrite Ht.
  rewrite <- (repeat_count c). apply flat_map_ext_in. intros m Hm.
  rewrite Forall_forall in Hc. apply Hbody. apply Hc. exact Hm.
Qed.
End Runs.

Ltac step Hrun :=
  let a := fresh "a" in
  let Ha := fresh "Ha" in
  let Htrace := fresh "Htrace" in
  apply bind_run in Hrun; destruct Hrun as [a [Ha [Hrun Htrace]]];
  rewrite Htrace; clear Htrace; rewrite tests_of_app; cbv beta in Hrun |- *.

Ltac loop_tests model Ha groups Hg Hpin :=
  match type of Ha with
  | snd (mannwhitneyu_by ?env ?column ?label ?df) = inr ?a =>
      destruct (@mannwhitneyu_by_tests _ _ _ env _ column label df model
                  (ex_intro _ a Ha)) as [groups [Hg Hpin]]
  end.

Ltac loaded Ha :=
  unfold lift in Ha; cbn [snd] in Ha.

(** C5 -- Tests per analysis and model.  In a run that completes, the
    heteroskedasticity analysis hands over two Mann-Whitney U comparisons
    in the iterations of a model that [config.all_models] lists once: one
    over the samples of the error column of the model partitioned by the
    Breusch-Pagan label of the joined table, and one over its samples
    partitioned by the Goldfeld-Quandt label.  The trend, stochasticity
    and conditional heteroskedasticity analyses hand over one Mann-Whitney
    U comparison per listed model, over the samples of the error column
    partitioned by the label of their joined table; the autocorrelation
    analysis hands over one ANOVA with the formula of the model, and the
    seasonality analysis one regression of the error column of the model
    on the seasonal strengths of the joined table. *)
Theorem tests_per_model (F R T : Type) (env : Env F R T) (model : string) :
  (completes (heteroskedasticity env) ->
   exists df joined breusch goldfeld,
     read_het_csv env (csv env "unconditional_heteroskedasticity_log_returns") = inr df
     /\ snd (merge_rmse env het_key df) = inr joined
     /\ tests_of model (fst (heteroskedasticity env))
        = repeat (Mannwhitneyu model "Breusch-Pagan" breusch) (times_listed env model)
          ++ repeat (Mannwhitneyu model "Goldfeld-Quandt" goldfeld) (times_listed env model)
     /\ (In model (all_models (config env)) ->
         groups_of Breusch_Pagan model joined = inr breusch
         /\ groups_of Goldfeld_Quandt model joined = inr goldfeld))
  /\ (completes (trend env) ->
      exists df labeled joined groups,
        read_trend_csv env (csv env "trend_results_log_returns") = inr df
        /\ trend_table df = inr labeled
        /\ snd (merge_rmse env labeled_key labeled) = inr joined
        /\ tests_of model (fst (trend env))
           = repeat (Mannwhitneyu model "Result" groups) (times_listed env model)
        /\ (In model (all_models (config env)) -> groups_of Result model joined = inr groups))
  /\ (completes (stochasticity env) ->
      exists df joined groups,
        read_labeled_csv env (csv env "hurst_log_returns") = inr df
        /\ snd (merge_rmse env labeled_key df) = inr joined
        /\ tests_of model (fst (stochasticity env))
           = repeat (Mannwhitneyu model "Result" groups) (times_listed env model)
        /\ (In model (all_models (config env)) -> groups_of Result model joined = inr groups))
  /\ (completes (cond_het env) ->
      exists df joined groups,
        read_labeled_csv env (csv env "cond_heteroskedasticity_log_returns") = inr df
        /\ snd (merge_rmse env labeled_key df) = inr joined
        /\ tests_of model (fst (cond_het env))
           = repeat (Mannwhitneyu model "result" groups) (times_listed env model)
        /\ (In model (all_models (config env)) -> groups_of Result model joined = inr groups))
  /\ (completes (auto_correlation env) ->
      tests_of model (fst (auto_correlation env))
      = repeat (AnovaLm F model (anova_formula model)) (times_listed env model))
  /\ (completes (seasonality env) ->
      exists df joined y,
        read_seasonality_csv env (csv env "stl_seasonality_log_returns") = inr df
        /\ snd (merge_rmse env (@seas_key F) df) = inr joined
        /\ tests_of model (fst (seasonality env))
           = repeat (Ols model y (map (fun r => Seasonal_Strength (fst r)) joined))
                    (times_listed env model)
        /\ (In model (all_models (config env)) -> error_column model joined = inr y)).
Proof.
  unfold times_listed. repeat split.
  - unfold heteroskedasticity, uncon_het. intros Hrun.
    step Hrun. step Hrun. rewrite merge_rmse_trace.
    step Hrun. loop_tests model Ha1 breusch Hb Hpb. rewrite Hb.
    step Hrun. loop_tests model Ha2 goldfeld Hg Hpg. rewrite Hg.
    loaded Ha. exists a, a0, breusch, goldfeld.
    split; [exact Ha|]. split; [exact Ha0|]. split; [|auto].
    simpl. rewrite app_nil_r. reflexivity.
  - unfold trend. intros Hrun.
    step Hrun. step Hrun. step Hrun. rewrite merge_rmse_trace.
    step Hrun. loop_tests model Ha2 groups Hg Hpin. rewrite Hg.
    loaded Ha. loaded Ha0. exists a, a0, a1, groups.
    split; [exact Ha|]. split; [exact Ha0|]. split; [exact Ha1|]. split; [|exact Hpin].
    simpl. rewrite app_nil_r. reflexivity.
  - unfold stochasticity. intros Hrun.
    step Hrun. step Hrun. step Hrun. rewrite merge_rmse_trace.
    step Hrun. loop_tests model Ha2 groups Hg Hpin. rewrite Hg.
    loaded Ha. exists a, a1, groups.
    split; [exact Ha|]. split; [exact Ha1|]. split; [|exact Hpin].
    simpl. rewrite app_nil_r. reflexivity.
  - unfold cond_het. intros Hrun.
    step Hrun. step Hrun. rewrite merge_rmse_trace.
    step Hrun. loop_tests model Ha1 groups Hg Hpin. rewrite Hg.
    loaded Ha. exists a, a0, groups.
    split; [exact Ha|]. split; [exact Ha0|]. split; [|exact Hpin].
    simpl. rewrite app_nil_r. reflexivity.
  - unfold auto_correlation, anova. intros Hrun.
    step Hrun. step Hrun. step Hrun.
    rewrite !high_auto_cor_trace, merge_rmse_trace. simpl.
    apply anova_tests. exact Hrun.
  - unfold seasonality. intros Hrun.
    step Hrun. step Hrun. rewrite merge_rmse_trace. step Hrun.
    loaded Ha.
    exists a, a0, (match error_column model a0 with inr y => y | inl _ => [] end).
    split; [exact Ha|]. split; [exact Ha0|].
    match type of Ha1 with
    | snd ?loop = _ => assert (Hloop : completes loop) by (exists a1; exact Ha1)
    end.
    split.
    + simpl. rewrite app_nil_r.
      apply (for_models_single _
               (fun m => Ols m (match error_column m a0 with inr y => y | inl _ => [] end)
                            (map (fun r => Seasonal_Strength (fst r)) a0))).
      * intros m Hm. apply bind_run in Hm. destruct Hm as [y [Hy [_ Htrace]]].
        rewrite Htrace. unfold lift in Hy |- *. simpl in Hy |- *. rewrite Hy. simpl.
        destruct (String.eqb m model); reflexivity.
      * exact Hloop.
    + intros Hm. destruct (for_models_tests _ model _ _ Hloop) as [_ Hc].
      rewrite Forall_forall in Hc. specialize (Hc model Hm).
      apply bind_run in Hc. destruct Hc as [y [Hy _]].
      unfold lift in Hy. simpl in Hy. rewrite Hy. reflexivity.
Qed.

Lemma tests_per_model_witness :
  tests_of "ARIMA" (fst (heteroskedasticity Cases.three_coins))
  = [Mannwhitneyu "ARIMA" "Breusch-Pagan" [[5 # 100; 10 # 100]; [20 # 100]];
     Mannwhitneyu "ARIMA" "Goldfeld-Quandt" [[5 # 100]; [10 # 100; 20 # 100]]].
Proof.
  destruct (tests_per_model Cases.three_coins "ARIMA") as [Hhet _].
  destruct (Hhet (ex_intro _ tt eq_refl))
    as [df [joined [breusch [goldfeld [Hread [Hjoined [Htests Hpin]]]]]]].
  destruct (Hpin (or_introl eq_refl)) as [Hb Hg].
  vm_compute in Hread. injection Hread as <-.
  vm_compute in Hjoined. injection Hjoined as <-.
  vm_compute in Hb. injection Hb as <-.
  vm_compute in Hg. injection Hg as <-.
  exact Htests.
Defined.

(** On the small installation the heteroskedasticity analysis completes
    and hands over two Mann-Whitney U comparisons for the model ARIMA. *)
Lemma heteroskedasticity_two_tests :
  completes (heteroskedasticity Fixture.env)
  /\ tests_of "ARIMA" (fst (heteroskedasticity Fixture.env))
     = [Mannwhitneyu "ARIMA" "Breusch-Pagan" [[5 # 100]; [10 # 100]];
        Mannwhitneyu "ARIMA" "Goldfeld-Quandt" [[5 # 100]; [10 # 100]]]
  /\ length (tests_of "ARIMA" (fst (heteroskedasticity Fixture.env))) <> 1%nat.
Proof.
  split; [exists tt; reflexivity|]. split; [reflexivity|]. discriminate.
Qed.

(** ** Failing reads *)

(** C8 -- Loader failure propagation.  When the read of the input file of
    an analysis raises, the analysis raises the same exception, hands no
    test over and prints nothing.  [auto_correlation] reads two files: the
    failure of the first read is raised at once, the failure of the second
    after the first table has been reduced. *)
Theorem loader_failure_propagates (F R T : Type) (env : Env F R T) (e : exn) :
  (forall test_type,
     read_diagnostic_csv env (csv env (test_type ++ "_log_returns")) = inl e ->
     high_auto_cor env test_type = ([], inl e))
  /\ (read_diagnostic_csv env (csv env ("Ljung-Box" ++ "_log_returns")) = inl e ->
      auto_correlation env = ([], inl e))
  /\ (forall ljung,
        high_auto_cor env "Ljung-Box" = ([], inr ljung) ->
        read_diagnostic_csv env (csv env ("Breusch-Godfrey" ++ "_log_returns")) = inl e ->
        auto_correlation env = ([], inl e))
  /\ (read_trend_csv env (csv env "trend_results_log_returns") = inl e ->
      trend env = ([], inl e))
  /\ (read_seasonality_csv env (csv env "stl_seasonality_log_returns") = inl e ->
      seasonality env = ([], inl e))
  /\ (read_het_csv env (csv env "unconditional_heteroskedasticity_log_returns") = inl e ->
      heteroskedasticity env = ([], inl e))
  /\ (read_labeled_csv env (csv env "cond_heteroskedasticity_log_returns") = inl e ->
      cond_het env = ([], inl e))
  /\ (read_labeled_csv env (csv env "hurst_log_returns") = inl e ->
      stochasticity env = ([], inl e)).
Proof.
  assert (Hhigh : forall test_type,
            read_diagnostic_csv env (csv env (test_type ++ "_log_returns")) = inl e ->
            high_auto_cor env test_type = ([], inl e)).
  { intros test_type Hread. unfold high_auto_cor, bind, lift. simpl. rewrite Hread. reflexivity. }
  split; [exact Hhigh|]. split; [|split].
  - intros Hread. unfold auto_correlation. apply bind_raise. apply Hhigh. exact Hread.
  - intros ljung Hljung Hread. unfold auto_correlation.
    rewrite (bind_return _ Hljung). apply bind_raise. apply Hhigh. exact Hread.
  - repeat split; intros Hread.
    + unfold trend. apply bind_raise. unfold lift. rewrite Hread. reflexivity.
    + unfold seasonality. apply bind_raise. unfold lift. rewrite Hread. reflexivity.
    + unfold heteroskedasticity, uncon_het. apply bind_raise. unfold lift. rewrite Hread. reflexivity.
    + unfold cond_het. apply bind_raise. unfold lift. rewrite Hread. reflexivity.
    + unfold stochasticity. apply bind_raise. unfold lift. rewrite Hread. reflexivity.
Qed.

Lemma loader_failure_propagates_witness :
  trend Fixture.missing
  = ([], inl (FileNotFoundError "statistics/trend_results_log_returns.csv")).
Proof.
  apply (loader_failure_propagates Fixture.missing
           (FileNotFoundError "statistics/trend_results_log_returns.csv")).
  reflexivity.
Defined.

(** ** Two coins, one model *)

(** The label table BTC/1d "Autocorrelated", ETH/1d "Not Autocorrelated"
    joined with the errors 0.05 and 0.10 of the model ARIMA gives the
    Mann-Whitney routine two samples of one error each.  What the routine
    does with them is its own business: when it returns, the report has
    its result under the key ARIMA; when it raises, no results are
    printed. *)
Lemma two_coins_report (R : Type) (routine : list (list Q) -> result R) :
  (forall r, routine [[5 # 100]; [10 # 100]] = inr r ->
     stochasticity (Fixture.with_mannwhitneyu routine)
     = ([Print (PrintValueCounts Q R unit [(Autocorrelated, 1%Z); (Not_Autocorrelated, 1%Z)]);
         Test R unit (Mannwhitneyu "ARIMA" "Result" [[5 # 100]; [10 # 100]]);
         Print (PrintResults Q unit [("ARIMA", r)])],
        inr tt))
  /\ (forall e, routine [[5 # 100]; [10 # 100]] = inl e ->
     stochasticity (Fixture.with_mannwhitneyu routine)
     = ([Print (PrintValueCounts Q R unit [(Autocorrelated, 1%Z); (Not_Autocorrelated, 1%Z)]);
         Test R unit (Mannwhitneyu "ARIMA" "Result" [[5 # 100]; [10 # 100]])],
        inl e)).
Proof.
  split; intros x Hx; unfold stochasticity, bind; cbn; rewrite Hx; reflexivity.
Qed.

(** ** auto_correlation runs on the combined table *)

Lemma auto_correlation_run (F R T : Type) (env : Env F R T)
    (ljung breusch : list PredominantlyRecord) :
  high_auto_cor env "Ljung-Box" = ([], inr ljung) ->
  high_auto_cor env "Breusch-Godfrey" = ([], inr breusch) ->
  auto_correlation env
  = bind (merge_rmse env labeled_key (overlap ljung breusch)) (anova env).
Proof.
  intros Hl Hb. unfold auto_correlation.
  rewrite (bind_return _ Hl), (bind_return _ Hb). reflexivity.
Qed.

(** * Further properties *)

(** ** The combined table of auto_correlation *)

Lemma In_overlap_autocorrelated (ljung breusch : list PredominantlyRecord) (k : Key) :
  In (labeled_row k Autocorrelated) (overlap ljung breusch)
  <-> In (pred_row k Autocorrelated) ljung /\ In (pred_row k Autocorrelated) breusch.
Proof.
  rewrite In_overlap. split.
  - intros [oa [ob [Hin E]]]. apply In_merge_outer in Hin.
    destruct oa as [a|]; [|discriminate E].
    destruct ob as [b|]; [|simpl in E; rewrite andb_false_r in E; discriminate E].
    simpl in E. destruct Hin as [Ha [Hka [Hb Hkb]]].
    destruct (String.eqb_spec (Predominantly a) Autocorrelated) as [Ea|]; [|discriminate E].
    destruct (String.eqb_spec (Predominantly b) Autocorrelated) as [Eb|]; [|discriminate E].
    assert (Ia : a = pred_row k Autocorrelated)
      by (rewrite <- (pred_row_eta a), Hka, Ea; reflexivity).
    assert (Ib : b = pred_row k Autocorrelated)
      by (rewrite <- (pred_row_eta b), Hkb, Eb; reflexivity).
    subst a b. auto.
  - intros [Ha Hb]. exists (Some (pred_row k Autocorrelated)), (Some (pred_row k Autocorrelated)).
    split; [|reflexivity]. apply In_merge_outer. rewrite pred_row_key. auto.
Qed.

Lemma overlap_keys (ljung breusch : list PredominantlyRecord) (k : Key) :
  In k (map labeled_key (overlap ljung breusch))
  <-> In k (map pred_key ljung) \/ In k (map pred_key breusch).
Proof.
  unfold overlap. rewrite map_map, in_map_iff. split.
  - intros [[[k' oa] ob] [E Hin]]. simpl in E.
    assert (k' = k) by (destruct k'; exact E). subst k'.
    apply In_merge_outer in Hin. destruct oa as [a|], ob as [b|]; try contradiction.
    + left. destruct Hin as [Ha [<- _]]. apply in_map. exact Ha.
    + left. destruct Hin as [Ha [<- _]]. apply in_map. exact Ha.
    + right. destruct Hin as [Hb [<- _]]. apply in_map. exact Hb.
  - intros Hk.
    destruct (in_dec (fun x y : Key => ltac:(decide equality; apply string_dec))
                k (map pred_key ljung)) as [Hl | Hl];
      destruct (in_dec (fun x y : Key => ltac:(decide equality; apply string_dec))
                  k (map pred_key breusch)) as [Hb | Hb].
    + apply in_map_iff in Hl, Hb. destruct Hl as [a [Hka Ha]], Hb as [b [Hkb Hb]].
      exists (k, Some a, Some b). split; [destruct k; reflexivity|].
      apply In_merge_outer. auto.
    + apply in_map_iff in Hl. destruct Hl as [a [Hka Ha]].
      exists (k, Some a, None). split; [destruct k; reflexivity|].
      apply In_merge_outer. auto.
    + apply in_map_iff in Hb. destruct Hb as [b [Hkb Hb']].
      exists (k, None, Some b). split; [destruct k; reflexivity|].
      apply In_merge_outer. auto.
    + tauto.
Qed.

(** X1 -- The pairs that [auto_correlation] labels "Autocorrelated" are
    the pairs that both reduced tables label "Autocorrelated"; the
    combined table has the pairs of either table and no other, and only
    the two labels. *)
Theorem overlap_table (ljung breusch : list PredominantlyRecord) :
  (forall k, In (labeled_row k Autocorrelated) (overlap ljung breusch)
             <-> In (pred_row k Autocorrelated) ljung
                 /\ In (pred_row k Autocorrelated) breusch)
  /\ (forall k, In k (map labeled_key (overlap ljung breusch))
                <-> In k (map pred_key ljung) \/ In k (map pred_key breusch))
  /\ (forall r, In r (overlap ljung breusch) ->
                Result r = Autocorrelated \/ Result r = Not_Autocorrelated).
Proof.
  split; [apply In_overlap_autocorrelated|]. split; [apply overlap_keys|].
  intros r Hr. unfold overlap in Hr. apply in_map_iff in Hr.
  destruct Hr as [[[k oa] ob] [<- _]]. simpl.
  destruct (is_label Autocorrelated oa && is_label Autocorrelated ob); auto.
Qed.

Lemma NoDup_short (A : Type) (l : list A) : (length l <= 1)%nat -> NoDup l.
Proof.
  destruct l as [|x [|y t]]; simpl; intros Hlen; try lia.
  - constructor.
  - constructor; [intros [] | constructor].
Qed.

Lemma NoDup_flat_map_keys (K B : Type) (f : K -> list B) (g : B -> K) (keys : list K) :
  NoDup keys ->
  (forall k, In k keys -> (length (f k) <= 1)%nat /\ forall x, In x (f k) -> g x = k) ->
  NoDup (map g (flat_map f keys)).
Proof.
  induction keys as [|k t IH]; simpl; intros Hnd Hf; [constructor|].
  inversion Hnd as [|? ? Hk Ht]; subst. rewrite map_app. apply NoDup_app.
  - apply NoDup_short. rewrite length_map. apply Hf. left. reflexivity.
  - apply IH; [exact Ht|]. intros k' Hk'. apply Hf. right. exact Hk'.
  - intros x Hx Hx'. apply in_map_iff in Hx. destruct Hx as [b [<- Hb]].
    apply in_map_iff in Hx'. destruct Hx' as [b' [E Hb']].
    apply in_flat_map in Hb'. destruct Hb' as [k' [Hk' Hb']].
    destruct (Hf k (or_introl eq_refl)) as [_ Hg].
    destruct (Hf k' (or_intror Hk')) as [_ Hg'].
    rewrite (Hg b Hb), (Hg' b' Hb') in E. subst k'. contradiction.
Qed.

Lemma NoDup_overlap (ljung breusch : list PredominantlyRecord) :
  NoDup (map pred_key ljung) -> NoDup (map pred_key breusch) ->
  NoDup (map labeled_key (overlap ljung breusch)).
Proof.
  intros Hl Hb. unfold overlap. rewrite map_map.
  rewrite (map_ext _ (fun row : Key * option PredominantlyRecord * option PredominantlyRecord =>
                        fst (fst row))); [|intros [[[c t] oa] ob]; reflexivity].
  unfold Pandas.merge_outer. apply NoDup_flat_map_keys; [apply NoDup_sorted_keys|].
  intros k _.
  pose proof (select_length_NoDup pred_key k ljung Hl) as Ll.
  pose proof (select_length_NoDup pred_key k breusch Hb) as Lb.
  destruct (Pandas.select pred_key k ljung) as [|a [|a' ls]];
    destruct (Pandas.select pred_key k breusch) as [|b [|b' rs]];
    simpl in Ll, Lb |- *; try lia; (split; [lia|]); intros x Hx; simpl in Hx;
    repeat (destruct Hx as [<- | Hx]; [reflexivity|]); contradiction.
Qed.

Lemma In_overlap_not_autocorrelated (ljung breusch : list PredominantlyRecord) (k : Key) :
  NoDup (map pred_key ljung) -> NoDup (map pred_key breusch) ->
  In (labeled_row k Not_Autocorrelated) (overlap ljung breusch)
  <-> (In k (map pred_key ljung) \/ In k (map pred_key breusch))
      /\ ~ (In (pred_row k Autocorrelated) ljung /\ In (pred_row k Autocorrelated) breusch).
Proof.
  intros Hl Hb. pose proof (@NoDup_overlap ljung breusch Hl Hb) as Hnd. split.
  - intros Hin. split.
    + apply overlap_keys. destruct k as [c t].
      change (c, t) with (labeled_key (labeled_row (c, t) Not_Autocorrelated)).
      apply in_map. exact Hin.
    + intros Hboth. apply In_overlap_autocorrelated in Hboth.
      assert (E : labeled_row k Not_Autocorrelated = labeled_row k Autocorrelated).
      { apply (key_unique labeled_key (overlap ljung breusch) _ _ Hnd Hin Hboth).
        destruct k; reflexivity. }
      apply labeled_row_inj in E. destruct E as [_ E]. discriminate E.
  - intros [Hk Hnot]. apply overlap_keys in Hk. apply in_map_iff in Hk.
    destruct Hk as [r [Hkr Hr]].
    assert (Er : r = labeled_row k (Result r)) by (destruct r; rewrite <- Hkr; reflexivity).
    unfold overlap in Hr. pose proof Hr as Hr'. apply in_map_iff in Hr'.
    destruct Hr' as [[[k' oa] ob] [E _]].
    assert (Hres : Result r = Autocorrelated \/ Result r = Not_Autocorrelated).
    { rewrite <- E. simpl.
      destruct (is_label Autocorrelated oa && is_label Autocorrelated ob); auto. }
    destruct Hres as [Hres | Hres]; rewrite Hres in Er; rewrite Er in Hr.
    + exfalso. apply Hnot. apply In_overlap_autocorrelated. exact Hr.
    + exact Hr.
Qed.

(** X2 -- When no pair is repeated in the reduced Ljung-Box table nor in
    the reduced Breusch-Godfrey table, the combined table of
    [auto_correlation] has one row per pair, and it labels
    "Not Autocorrelated" the pairs of either table that the two tables do
    not both label "Autocorrelated". *)
Theorem overlap_one_row_per_pair (ljung breusch : list PredominantlyRecord) :
  NoDup (map pred_key ljung) -> NoDup (map pred_key breusch) ->
  NoDup (map labeled_key (overlap ljung breusch))
  /\ forall k,
       In (labeled_row k Not_Autocorrelated) (overlap ljung breusch)
       <-> (In k (map pred_key ljung) \/ In k (map pred_key breusch))
           /\ ~ (In (pred_row k Autocorrelated) ljung
                 /\ In (pred_row k Autocorrelated) breusch).
Proof.
  intros Hl Hb. split; [apply NoDup_overlap; assumption|].
  intros k. apply In_overlap_not_autocorrelated; assumption.
Qed.

Lemma overlap_one_row_per_pair_witness :
  NoDup (map labeled_key
           (overlap [pred_row ("BTC", "1d") Autocorrelated; pred_row ("ETH", "1d") Autocorrelated]
                    [pred_row ("ADA", "1d") Autocorrelated; pred_row ("BTC", "1d") Autocorrelated])).
Proof.
  apply overlap_one_row_per_pair;
    repeat constructor; simpl; intuition discriminate.
Defined.

(** ** auto_correlation from the runs of the two tests *)

Lemma In_reduced_table (df : list DiagnosticRecord) (k : Key) (label : string) :
  In (pred_row k label) (reduced_table df)
  <-> In k (map diag_key df)
      /\ label = if (49 <? outcome_count Autocorrelated k df)%Z
                 then Autocorrelated else Not_Autocorrelated.
Proof.
  unfold reduced_table. rewrite in_map_iff. split.
  - intros [k' [E Hk']]. unfold pred_row in E. inversion E as [[E1 E2 E3]].
    assert (k' = k) by (destruct k, k'; simpl in *; congruence). subst k'.
    split; [apply In_pivot_index; exact Hk' | reflexivity].
  - intros [Hk ->]. exists k. split; [reflexivity | apply In_pivot_index; exact Hk].
Qed.

Lemma reduced_table_keys (df : list DiagnosticRecord) :
  map pred_key (reduced_table df) = pivot_index df.
Proof.
  unfold reduced_table. rewrite map_map. rewrite <- (map_id (pivot_index df)) at 2.
  apply map_ext. intros [c t]. reflexivity.
Qed.

Lemma In_reduced_autocorrelated (df : list DiagnosticRecord) (k : Key) :
  In (pred_row k Autocorrelated) (reduced_table df)
  <-> (49 < outcome_count Autocorrelated k df)%Z.
Proof.
  rewrite In_reduced_table. split.
  - intros [_ E]. destruct (Z.ltb_spec 49 (outcome_count Autocorrelated k df)); [assumption|].
    discriminate E.
  - intros Hlt. split; [apply outcome_count_group; lia|].
    apply Z.ltb_lt in Hlt. rewrite Hlt. reflexivity.
Qed.

Lemma high_auto_cor_reduced (F R T : Type) (env : Env F R T) (test_type : string)
    (df : list DiagnosticRecord) :
  read_diagnostic_csv env (csv env (test_type ++ "_log_returns")) = inr df ->
  plain_outcomes df ->
  In Autocorrelated (map diag_result df) ->
  high_auto_cor env test_type = ([], inr (reduced_table df)).
Proof.
  intros Hread Hplain Hcol. rewrite (high_auto_cor_loaded env test_type Hread).
  f_equal. apply high_auto_cor_table_ok; assumption.
Qed.

Lemma high_auto_cor_clash (F R T : Type) (env : Env F R T) (test_type : string)
    (df : list DiagnosticRecord) :
  read_diagnostic_csv env (csv env (test_type ++ "_log_returns")) = inr df ->
  ~ plain_outcomes df ->
  exists level,
    (level = "Time Frame" \/ level = "Coin")
    /\ In level (map diag_result df)
    /\ high_auto_cor env test_type
       = ([], inl (ValueError ("cannot insert " ++ level ++ ", already exists"))).
Proof.
  intros Hread Hclash. rewrite (high_auto_cor_loaded env test_type Hread).
  destruct (high_auto_cor_table_ValueError Hclash) as [level [Hl [Hin E]]].
  exists level. rewrite E. auto.
Qed.

(** X3 -- From the runs to the combined label.  When both result files
    are read, each has an autocorrelated run and none has a run with the
    outcome "Coin" or "Time Frame", [auto_correlation] joins and analyses
    a table that labels a pair "Autocorrelated" exactly when more than 49
    of its Ljung-Box runs and more than 49 of its Breusch-Godfrey runs are
    autocorrelated, and "Not Autocorrelated" exactly when the pair has
    runs in one of the files and fails that condition. *)
Theorem auto_correlation_by_counts (F R T : Type) (env : Env F R T)
    (ljung_runs breusch_runs : list DiagnosticRecord) :
  read_diagnostic_csv env (csv env ("Ljung-Box" ++ "_log_returns")) = inr ljung_runs ->
  read_diagnostic_csv env (csv env ("Breusch-Godfrey" ++ "_log_returns")) = inr breusch_runs ->
  plain_outcomes ljung_runs -> plain_outcomes breusch_runs ->
  In Autocorrelated (map diag_result ljung_runs) ->
  In Autocorrelated (map diag_result breusch_runs) ->
  exists table,
    auto_correlation env = bind (merge_rmse env labeled_key table) (anova env)
    /\ (forall k, In (labeled_row k Autocorrelated) table
                  <-> (49 < outcome_count Autocorrelated k ljung_runs)%Z
                      /\ (49 < outcome_count Autocorrelated k breusch_runs)%Z)
    /\ (forall k, In (labeled_row k Not_Autocorrelated) table
                  <-> (In k (map diag_key ljung_runs) \/ In k (map diag_key breusch_runs))
                      /\ ~ ((49 < outcome_count Autocorrelated k ljung_runs)%Z
                            /\ (49 < outcome_count Autocorrelated k breusch_runs)%Z)).
Proof.
  intros Hl Hb Hpl Hpb Hcl Hcb.
  exists (overlap (reduced_table ljung_runs) (reduced_table breusch_runs)).
  split; [|split].
  - apply auto_correlation_run; apply high_auto_cor_reduced; assumption.
  - intros k. rewrite In_overlap_autocorrelated, !In_reduced_autocorrelated. reflexivity.
  - intros k. rewrite In_overlap_not_autocorrelated.
    + rewrite !In_reduced_autocorrelated, !reduced_table_keys, !In_pivot_index. reflexivity.
    + rewrite reduced_table_keys. apply NoDup_pivot_index.
    + rewrite reduced_table_keys. apply NoDup_pivot_index.
Qed.

Lemma auto_correlation_by_counts_witness :
  exists table,
    auto_correlation Fixture.env
    = bind (merge_rmse Fixture.env labeled_key table) (anova Fixture.env)
    /\ In (labeled_row ("BTC", "1d") Autocorrelated) table
    /\ In (labeled_row ("ETH", "1d") Not_Autocorrelated) table.
Proof.
  destruct (auto_correlation_by_counts Fixture.env
              (ljung_runs := Fixture.ljung_box) (breusch_runs := Fixture.breusch_godfrey)
              eq_refl eq_refl) as [table [Hrun [Hpos Hneg]]].
  - plain_runs.
  - plain_runs.
  - vm_compute. tauto.
  - vm_compute. tauto.
  - exists table. split; [exact Hrun|]. split.
    + apply Hpos. split; reflexivity.
    + apply Hneg. split.
      * left. vm_compute. tauto.
      * intros [Hl _]. vm_compute in Hl. discriminate Hl.
Defined.

(** X4 -- The exceptions of [high_auto_cor] end [auto_correlation]
    without a test and without a print.  On a Ljung-Box file with a run
    whose outcome is "Time Frame" or "Coin" it raises the ValueError of
    [reset_index], whatever the Breusch-Godfrey file is; on a Ljung-Box
    file without such a run and without an autocorrelated run it raises
    KeyError "Autocorrelated".  When the Ljung-Box table is computed, the
    Breusch-Godfrey file decides in the same way. *)
Theorem auto_correlation_key_error (F R T : Type) (env : Env F R T)
    (ljung_runs : list DiagnosticRecord) :
  read_diagnostic_csv env (csv env ("Ljung-Box" ++ "_log_returns")) = inr ljung_runs ->
  (~ plain_outcomes ljung_runs ->
   exists level,
     (level = "Time Frame" \/ level = "Coin")
     /\ In level (map diag_result ljung_runs)
     /\ auto_correlation env
        = ([], inl (ValueError ("cannot insert " ++ level ++ ", already exists"))))
  /\ (plain_outcomes ljung_runs -> ~ In Autocorrelated (map diag_result ljung_runs) ->
      auto_correlation env = ([], inl (KeyError Autocorrelated)))
  /\ (forall breusch_runs,
        plain_outcomes ljung_runs -> In Autocorrelated (map diag_result ljung_runs) ->
        read_diagnostic_csv env (csv env ("Breusch-Godfrey" ++ "_log_returns"))
        = inr breusch_runs ->
        (~ plain_outcomes breusch_runs ->
         exists level,
           (level = "Time Frame" \/ level = "Coin")
           /\ In level (map diag_result breusch_runs)
           /\ auto_correlation env
              = ([], inl (ValueError ("cannot insert " ++ level ++ ", already exists"))))
        /\ (plain_outcomes breusch_runs ->
            ~ In Autocorrelated (map diag_result breusch_runs) ->
            auto_correlation env = ([], inl (KeyError Autocorrelated)))).
Proof.
  intros Hl. split; [|split].
  - intros Hclash.
    destruct (high_auto_cor_clash env "Ljung-Box" Hl Hclash) as [level [Hlevel [Hin E]]].
    exists level. split; [exact Hlevel|]. split; [exact Hin|].
    unfold auto_correlation. apply bind_raise. exact E.
  - intros Hplain Hcol. unfold auto_correlation. apply bind_raise.
    apply (high_auto_cor_raises env "Ljung-Box" Hl Hplain Hcol).
  - intros breusch_runs Hplain Hcol Hb. split.
    + intros Hclash.
      destruct (high_auto_cor_clash env "Breusch-Godfrey" Hb Hclash)
        as [level [Hlevel [Hin E]]].
      exists level. split; [exact Hlevel|]. split; [exact Hin|].
      unfold auto_correlation.
      rewrite (bind_return _ (high_auto_cor_reduced env "Ljung-Box" Hl Hplain Hcol)).
      apply bind_raise. exact E.
    + intros Hpb Hnone. unfold auto_correlation.
      rewrite (bind_return _ (high_auto_cor_reduced env "Ljung-Box" Hl Hplain Hcol)).
      apply bind_raise. apply (high_auto_cor_raises env "Breusch-Godfrey" Hb Hpb Hnone).
Qed.

Lemma auto_correlation_key_error_witness :
  auto_correlation Cases.quiet_ljung_box = ([], inl (KeyError Autocorrelated))
  /\ exists level,
       (level = "Time Frame" \/ level = "Coin")
       /\ In level (map diag_result Cases.runs_with_coin)
       /\ auto_correlation Cases.coin_outcome
          = ([], inl (ValueError ("cannot insert " ++ level ++ ", already exists"))).
Proof.
  split.
  - apply (proj1 (proj2 (auto_correlation_key_error Cases.quiet_ljung_box
                           (ljung_runs := Cases.quiet) eq_refl))).
    + plain_runs.
    + vm_compute. intuition discriminate.
  - apply (proj1 (auto_correlation_key_error Cases.coin_outcome
                    (ljung_runs := Cases.runs_with_coin) eq_refl)).
    intros [_ Hcoin]. apply Hcoin. vm_compute. tauto.
Defined.

(** X5 -- [high_auto_cor] returns a table exactly when some run of the
    file is autocorrelated and no run has the outcome "Time Frame" or
    "Coin".  With a run of the outcome "Time Frame" it raises the
    ValueError of [reset_index] for that level, with a run of the outcome
    "Coin" and none of the outcome "Time Frame" the one for "Coin".
    Otherwise, and so on a file without runs, it raises KeyError
    "Autocorrelated": the pivot has no such column. *)
Theorem high_auto_cor_needs_outcome (F R T : Type) (env : Env F R T) (test_type : string)
    (df : list DiagnosticRecord) :
  read_diagnostic_csv env (csv env (test_type ++ "_log_returns")) = inr df ->
  (completes (high_auto_cor env test_type)
   <-> plain_outcomes df /\ In Autocorrelated (map diag_result df))
  /\ (In "Time Frame" (map diag_result df) ->
      high_auto_cor env test_type
      = ([], inl (ValueError "cannot insert Time Frame, already exists")))
  /\ (~ In "Time Frame" (map diag_result df) -> In "Coin" (map diag_result df) ->
      high_auto_cor env test_type
      = ([], inl (ValueError "cannot insert Coin, already exists")))
  /\ (plain_outcomes df -> ~ In Autocorrelated (map diag_result df) ->
      high_auto_cor env test_type = ([], inl (KeyError Autocorrelated)))
  /\ (df = [] -> high_auto_cor env test_type = ([], inl (KeyError Autocorrelated))).
Proof.
  intros Hread.
  assert (Hraise : plain_outcomes df -> ~ In Autocorrelated (map diag_result df) ->
                   high_auto_cor env test_type = ([], inl (KeyError Autocorrelated)))
    by apply (high_auto_cor_raises env test_type Hread).
  split; [|split; [|split; [|split]]].
  - split.
    + intros [out Hout]. apply (high_auto_cor_completes env test_type Hread Hout).
    + intros [Hplain Hin]. exists (reduced_table df).
      rewrite (high_auto_cor_reduced env test_type Hread Hplain Hin). reflexivity.
  - intros Ht. rewrite (high_auto_cor_loaded env test_type Hread).
    unfold high_auto_cor_table. rewrite (pivot_df_time_frame _ Ht). reflexivity.
  - intros Ht Hc. rewrite (high_auto_cor_loaded env test_type Hread).
    unfold high_auto_cor_table. rewrite (pivot_df_coin _ Ht Hc). reflexivity.
  - exact Hraise.
  - intros ->. apply Hraise; [split|]; simpl; tauto.
Qed.

Lemma high_auto_cor_needs_outcome_witness :
  high_auto_cor Cases.quiet_ljung_box "Ljung-Box" = ([], inl (KeyError Autocorrelated))
  /\ high_auto_cor Cases.coin_outcome "Ljung-Box"
     = ([], inl (ValueError "cannot insert Coin, already exists")).
Proof.
  split.
  - apply (proj1 (proj2 (proj2 (proj2 (high_auto_cor_needs_outcome Cases.quiet_ljung_box
                                         "Ljung-Box" (df := Cases.quiet) eq_refl))))).
    + plain_runs.
    + vm_compute. intuition discriminate.
  - apply (proj1 (proj2 (proj2 (high_auto_cor_needs_outcome Cases.coin_outcome
                                  "Ljung-Box" (df := Cases.runs_with_coin) eq_refl)))).
    + apply existsb_eqb_not_In. vm_compute. reflexivity.
    + vm_compute. tauto.
Defined.

(** ** find_majority and the labels of trend *)

(** X6 -- [find_majority] raises IndexError on the empty row and on no
    other row.  The value it returns is a cell of the row that no cell
    outnumbers, and of the cells of that frequency the one that appears
    first: the values that appear before it are strictly less frequent. *)
Theorem find_majority_most_frequent (row : list string) :
  (find_majority row = raise IndexError <-> row = [])
  /\ forall v, find_majority row = ok v ->
       In v row
       /\ (forall w, (count_occ string_dec row w <= count_occ string_dec row v)%nat)
       /\ exists before after,
            Pandas.unique row = before ++ v :: after
            /\ forall w, In w before ->
                 (count_occ string_dec row w < count_occ string_dec row v)%nat.
Proof.
  split.
  - split; [|intros ->; reflexivity].
    intros Hraise. destruct row as [|x t]; [reflexivity|].
    destruct (find_majority_returns (row := x :: t)) as [v Hv]; [discriminate|].
    rewrite Hv in Hraise. discriminate Hraise.
  - intros v Hv. destruct (find_majority_first _ Hv) as [before [after [E [Hb Ha]]]].
    assert (Hin : In v row).
    { apply (proj1 (In_unique row v)). rewrite E. apply in_or_app. right. left. reflexivity. }
    split; [exact Hin|]. split; [|exists before, after; auto].
    intros w. destruct (in_dec string_dec w row) as [Hw | Hw].
    + apply (proj2 (In_unique row w)) in Hw. rewrite E in Hw. apply in_app_or in Hw.
      destruct Hw as [Hw | [-> | Hw]]; [specialize (Hb w Hw); lia | lia | apply Ha; exact Hw].
    + rewrite (proj1 (count_occ_not_In string_dec row w) Hw). lia.
Qed.

Lemma find_majority_most_frequent_witness :
  In "no trend" ["increasing"; "no trend"; "decreasing"; "no trend"]
  /\ forall w, (count_occ string_dec ["increasing"; "no trend"; "decreasing"; "no trend"] w
                <= count_occ string_dec ["increasing"; "no trend"; "decreasing"; "no trend"]
                     "no trend")%nat.
Proof.
  destruct (proj2 (find_majority_most_frequent
                     ["increasing"; "no trend"; "decreasing"; "no trend"])
                  "no trend" eq_refl) as [Hin [Hmax _]].
  split; [exact Hin | exact Hmax].
Defined.

Lemma find_majority_trend_row_witness :
  find_majority (trend_cells {| trend_coin := "BTC"; trend_time_frame := "1d";
                               trend_tests := ["increasing"; "no trend"; "increasing"] |})
  = ok "increasing".
Proof.
  apply find_majority_trend_row; cbn [trend_coin trend_time_frame trend_tests In].
  - discriminate.
  - intuition discriminate.
  - intuition discriminate.
  - apply Nat.leb_le. reflexivity.
  - intros w Hw.
    replace (count_occ string_dec ["increasing"; "no trend"; "increasing"] "increasing")
      with 2%nat by reflexivity.
    cbn [count_occ].
    destruct (string_dec "increasing" w) as [E | _]; [symmetry in E; contradiction|].
    destruct (string_dec "no trend" w); lia.
Defined.

Lemma find_majority_trend_tie_witness :
  find_majority (trend_cells {| trend_coin := "BTC"; trend_time_frame := "1d";
                               trend_tests := ["increasing"; "no trend"; "decreasing"] |})
  = ok "BTC".
Proof.
  apply find_majority_trend_tie; cbn [trend_coin trend_time_frame trend_tests In].
  - discriminate.
  - intuition discriminate.
  - intuition discriminate.
  - repeat constructor; cbn [In]; intuition discriminate.
Defined.

Lemma rmap_total (A B : Type) (f : A -> result B) (l : list A) :
  (forall x, In x l -> exists y, f x = ok y) ->
  exists ys, rmap f l = ok ys /\ Forall2 (fun x y => f x = ok y) l ys.
Proof.
  induction l as [|x t IH]; intros Hf.
  - exists []. split; [reflexivity | constructor].
  - destruct (Hf x (or_introl eq_refl)) as [y Hy].
    destruct IH as [ys [Hys Hall]]; [intros z Hz; apply Hf; right; exact Hz|].
    exists (y :: ys). simpl. rewrite Hy. simpl. rewrite Hys. simpl.
    split; [reflexivity | constructor; assumption].
Qed.

Lemma trend_table_labels (df : list TrendRecord) :
  df <> [] ->
  exists out,
    trend_table df = ok out
    /\ map labeled_key out = map trend_key df
    /\ Forall2 (fun r o => exists v, find_majority (trend_cells r) = ok v
                                     /\ Result o = fold_direction v) df out.
Proof.
  intros Hrows. unfold trend_table.
  destruct (rmap_total (fun r => find_majority (trend_cells r)) df) as [results [Hres Hall]].
  { intros r _. apply find_majority_returns. discriminate. }
  rewrite Hres. cbn [rbind ok].
  destruct results as [|v0 results0] eqn:Eres; [inversion Hall; subst; contradiction|].
  rewrite <- Eres in *. clear Eres v0 results0.
  eexists. split; [reflexivity|].
  clear Hres Hrows. induction Hall as [|r v df results Hv Hall IH]; simpl.
  - split; constructor.
  - destruct IH as [IHk IHr]. split; [f_equal; exact IHk|].
    constructor; [exists v; auto | exact IHr].
Qed.

Lemma trend_table_total (df : list TrendRecord) :
  df <> [] -> exists out, trend_table df = ok out.
Proof.
  intros Hrows. destruct (trend_table_labels Hrows) as [out [Hout _]].
  exists out. exact Hout.
Qed.

(** X7 -- The label stage of [trend] raises on a trend table without rows,
    where it raises AttributeError, and on no other table: every row has
    the two key cells, so [find_majority] has something to return.  The
    labeled table has the rows of the trend table in their order, each
    with its coin and time frame and with the folded majority of its
    cells. *)
Theorem trend_table_rows (df : list TrendRecord) :
  (trend_table df = raise (AttributeError "Can only use .str accessor with string values!")
   <-> df = [])
  /\ (forall e, trend_table df = raise e -> df = [])
  /\ (df <> [] ->
      exists out,
        trend_table df = ok out
        /\ map labeled_key out = map trend_key df
        /\ Forall2 (fun r o => exists v, find_majority (trend_cells r) = ok v
                                         /\ Result o = fold_direction v) df out).
Proof.
  assert (Hraise : forall e, trend_table df = raise e -> df = []).
  { intros e He. destruct df as [|r df]; [reflexivity|].
    destruct (@trend_table_labels (r :: df)) as [out [Hout _]]; [discriminate|].
    rewrite Hout in He. discriminate He. }
  split; [|split].
  - split; [apply Hraise | intros ->; reflexivity].
  - exact Hraise.
  - apply trend_table_labels.
Qed.

Lemma trend_table_rows_witness :
  exists out,
    trend_table Fixture.trend_results = ok out
    /\ map labeled_key out = [("BTC", "1d"); ("ETH", "1d")].
Proof.
  destruct (proj2 (proj2 (trend_table_rows Fixture.trend_results)))
    as [out [Hout [Hkeys _]]]; [discriminate|].
  exists out. split; [exact Hout | exact Hkeys].
Defined.

(** ** What one folding leaves *)

(** X10 -- After the folding of [trend] no label contains "increasing";
    no label contains "decreasing" either when no label of the column had
    a direction directly followed by "ecreasing". *)
Theorem fold_directions_leaves_no_direction (column : list string) :
  Forall (fun label => occurs "increasing" label = false) (fold_directions column)
  /\ (Forall foldable column ->
      Forall (fun label => occurs "decreasing" label = false) (fold_directions column)).
Proof.
  unfold fold_directions. split.
  - apply Forall_forall. intros label Hin. apply in_map_iff in Hin.
    destruct Hin as [l [<- _]]. unfold fold_direction, Pandas.str_replace.
    apply increasing_not_built. apply increasing_replaced.
  - intros Hall. apply Forall_forall. intros label Hin. apply in_map_iff in Hin.
    destruct Hin as [l [<- Hl]]. rewrite Forall_forall in Hall.
    apply fold_direction_clean. apply Hall. exact Hl.
Qed.

Lemma fold_directions_leaves_no_direction_witness :
  Forall (fun label => occurs "decreasing" label = false)
         (fold_directions ["non-decreasing"; "increasing"; "no trend"]).
Proof.
  apply fold_directions_leaves_no_direction.
  repeat constructor.
Defined.

(** X11 -- The folding of [trend] changes no label that contains neither
    "increasing" nor "decreasing". *)
Theorem fold_directions_keeps_others (column : list string) :
  Forall (fun label => occurs "increasing" label = false
                       /\ occurs "decreasing" label = false) column ->
  fold_directions column = column.
Proof.
  unfold fold_directions. intros Hall. rewrite <- (map_id column) at 2.
  apply map_ext_in. intros label Hin. rewrite Forall_forall in Hall.
  destruct (Hall label Hin) as [Hi Hd]. apply fold_direction_fixed; assumption.
Qed.

Lemma fold_directions_keeps_others_witness :
  fold_directions ["no trend"; "stationary"; "BTC"] = ["no trend"; "stationary"; "BTC"].
Proof.
  apply fold_directions_keeps_others.
  repeat constructor.
Defined.

(** ** The RMSE table and the join *)

Lemma rmap_ok (A B : Type) (f : A -> result B) (l : list A) (ys : list B) :
  rmap f l = ok ys -> Forall2 (fun x y => f x = ok y) l ys.
Proof.
  revert ys. induction l as [|x t IH]; simpl; intros ys Hys.
  - inversion Hys. constructor.
  - destruct (f x) as [e | y] eqn:Hx; simpl in Hys; [discriminate|].
    destruct (rmap f t) as [e | ys'] eqn:Ht; simpl in Hys; [discriminate|].
    inversion Hys; subst. constructor; [exact Hx | apply IH; reflexivity].
Qed.

Lemma rmap_raises (A B : Type) (f : A -> result B) (pre post : list A) (x : A) (e : exn) :
  Forall (fun z => exists y, f z = ok y) pre -> f x = raise e ->
  rmap f (pre ++ x :: post) = raise e.
Proof.
  intros Hpre Hx. induction Hpre as [|z pre [y Hz] _ IH]; simpl.
  - rewrite Hx. reflexivity.
  - rewrite Hz. simpl. rewrite IH. reflexivity.
Qed.



Lemma dict_get_NoDup (V : Type) (k : string) (v : V) (d : list (string * V)) :
  NoDup (map fst d) -> In (k, v) d -> dict_get k d = Some v.
Proof.
  induction d as [|[k' v'] rest IH]; simpl; [tauto|].
  intros Hnd Hin. inversion Hnd as [|? ? Hk Hrest]; subst.
  destruct Hin as [E | Hin].
  - inversion E; subst. rewrite String.eqb_refl. reflexivity.
  - destruct (String.eqb_spec k' k) as [-> | Hne]; [|apply IH; assumption].
    exfalso. apply Hk. change k with (fst (k, v)). apply in_map. exact Hin.
Qed.

Section RmseTable.
Variables F R T : Type.
Variable env : Env F R T.

(** A row that lists one cell per column is not changed when it is laid
    out on the columns of its own table. *)
Lemma reindex_regular (columns : list string) (r : ErrorRecord F) :
  map fst (err_values r) = columns -> NoDup columns ->
  reindex env columns columns r = r.
Proof.
  destruct r as [coin time_frame values]. unfold reindex. cbn [err_coin err_time_frame err_values].
  intros <- Hnd. f_equal. rewrite map_map.
  transitivity (map (fun p : string * F => p) values); [|apply map_id].
  apply map_ext_in. intros [c v] Hin. cbn [fst].
  assert (Hc : existsb (String.eqb c) (map fst values) = true).
  { apply existsb_eqb_In. change c with (fst (c, v)). apply in_map. exact Hin. }
  rewrite Hc. unfold cell. rewrite (dict_get_NoDup c v values Hnd Hin). reflexivity.
Qed.

Lemma merge_rmse_returns (A : Type) (key : A -> Key) (df : list A)
    (out : Frame (A * ErrorRecord F)) :
  snd (merge_rmse env key df) = inr out ->
  exists rmse_df, rmse_table env = inr rmse_df
                  /\ model_columns out = model_columns rmse_df
                  /\ frame_rows out = Pandas.merge_inner key (@err_key F) df rmse_df.
Proof.
  unfold merge_rmse, bind, lift, ret. simpl.
  destruct (rmse_table env) as [e | rmse_df]; simpl; [discriminate|].
  intros E. inversion E. exists rmse_df. auto.
Qed.

(** What the loop of lines 39-50 has built when it ends. *)
Lemma rmse_frames (time_frames : list string) (rmse_dfs : list (Frame (ErrorRecord F))) :
  rmap (rmse_frame env) time_frames = ok rmse_dfs ->
  Forall2 (fun time_frame rmse_df =>
             exists rows,
               read_rmse_csv env (log_returns_pred (config env)) time_frame = inr rows
               /\ rmse_df = {| model_columns := model_columns rows;
                               frame_rows := map (tagged time_frame) rows |})
          time_frames rmse_dfs.
Proof.
  intros Hframes. apply rmap_ok in Hframes.
  induction Hframes as [|tf frame tfs frames Hf _ IH]; constructor; [|exact IH].
  unfold rmse_frame in Hf.
  destruct (read_rmse_csv env (log_returns_pred (config env)) tf) as [x | rows];
    simpl in Hf; [discriminate|].
  inversion Hf. exists rows. auto.
Qed.

Lemma rmse_table_frames (rmse_df : Frame (ErrorRecord F)) :
  rmse_table env = inr rmse_df ->
  exists rmse_dfs,
    rmap (rmse_frame env) (timeframes (config env)) = ok rmse_dfs
    /\ model_columns rmse_df
       = Pandas.unique (flat_map (fun f : Frame (ErrorRecord F) => model_columns f) rmse_dfs)
    /\ frame_rows rmse_df
       = flat_map (fun f : Frame (ErrorRecord F) =>
                     map (reindex env (model_columns rmse_df) (model_columns f)) f) rmse_dfs.
Proof.
  unfold rmse_table.
  destruct (rmap (rmse_frame env) (timeframes (config env))) as [x | frames];
    simpl; [discriminate|].
  destruct frames as [|frame frames]; [discriminate|].
  intros E. inversion E. exists (frame :: frames). auto.
Qed.

(** The rows of the concatenated table: the rows of the table of each
    configured time frame, tagged with that time frame and laid out on the
    columns of the concatenated table. *)
Lemma In_rmse_table (rmse_df : Frame (ErrorRecord F)) (e : ErrorRecord F) :
  rmse_table env = inr rmse_df ->
  In e rmse_df
  <-> exists time_frame rows r,
        In time_frame (timeframes (config env))
        /\ read_rmse_csv env (log_returns_pred (config env)) time_frame = inr rows
        /\ In r rows
        /\ e = reindex env (model_columns rmse_df) (model_columns rows) (tagged time_frame r).
Proof.
  intros Hrmse. destruct (rmse_table_frames Hrmse) as [frames [Hframes [_ Hrows]]].
  rewrite Hrows. generalize (model_columns rmse_df). intros columns.
  apply rmse_frames in Hframes. clear Hrmse Hrows.
  set (time_frames := timeframes (config env)) in *. clearbody time_frames.
  induction Hframes as [|tf frame tfs frames [rows [Hread ->]] _ IH]; simpl.
  - split; [tauto | intros [tf [rows [r [[] _]]]]].
  - rewrite in_app_iff, IH, map_map, in_map_iff. split.
    + intros [[r [<- Hr]] | [tf' [rows' [r [Htf Hrest]]]]].
      * exists tf, rows, r. auto.
      * exists tf', rows', r. tauto.
    + intros [tf' [rows' [r [[<- | Htf] [Hread' [Hr ->]]]]]].
      * left. rewrite Hread in Hread'. inversion Hread'; subst rows'.
        exists r. auto.
      * right. exists tf', rows', r. auto.
Qed.

(** The columns of the concatenated table: the columns of the tables of
    the configured time frames. *)
Lemma rmse_table_columns (rmse_df : Frame (ErrorRecord F)) (c : string) :
  rmse_table env = inr rmse_df ->
  In c (model_columns rmse_df)
  <-> exists time_frame rows,
        In time_frame (timeframes (config env))
        /\ read_rmse_csv env (log_returns_pred (config env)) time_frame = inr rows
        /\ In c (model_columns rows).
Proof.
  intros Hrmse. destruct (rmse_table_frames Hrmse) as [frames [Hframes [Hcols _]]].
  rewrite Hcols, In_unique. apply rmse_frames in Hframes. clear Hrmse Hcols.
  set (time_frames := timeframes (config env)) in *. clearbody time_frames.
  induction Hframes as [|tf frame tfs frames [rows [Hread ->]] _ IH]; simpl.
  - split; [tauto | intros [tf [rows [[] _]]]].
  - rewrite in_app_iff, IH. split.
    + intros [Hc | [tf' [rows' [Htf Hrest]]]].
      * exists tf, rows. auto.
      * exists tf', rows'. tauto.
    + intros [tf' [rows' [[<- | Htf] [Hread' Hc]]]].
      * left. rewrite Hread in Hread'. inversion Hread'; subst rows'. exact Hc.
      * right. exists tf', rows'. auto.
Qed.


(** The rows and the columns of the table [merge_rmse] returns. *)
Lemma In_merge_rmse (A : Type) (key : A -> Key) (df : list A)
    (out : Frame (A * ErrorRecord F)) (a : A) (e : ErrorRecord F) :
  snd (merge_rmse env key df) = inr out ->
  In (a, e) out
  <-> In a df
      /\ In (snd (key a)) (timeframes (config env))
      /\ exists rows r,
           read_rmse_csv env (log_returns_pred (config env)) (snd (key a)) = inr rows
           /\ In r rows /\ rmse_index r = fst (key a)
           /\ e = reindex env (model_columns out) (model_columns rows)
                          (tagged (snd (key a)) r).
Proof.
  intros Hout. apply merge_rmse_returns in Hout.
  destruct Hout as [rmse_df [Hrmse [Hcols Hrows]]].
  rewrite Hrows, Hcols, In_merge_inner, (In_rmse_table e Hrmse). split.
  - intros [Ha [[tf [rows [r [Htf [Hread [Hr ->]]]]]] Hk]].
    unfold err_key, reindex, tagged in Hk. simpl in Hk.
    destruct (key a) as [c t] eqn:Eka. inversion Hk; subst c t. simpl.
    split; [exact Ha|]. split; [exact Htf|]. exists rows, r. auto.
  - intros [Ha [Htf [rows [r [Hread [Hr [Hc ->]]]]]]].
    split; [exact Ha|]. split.
    + exists (snd (key a)), rows, r. auto.
    + unfold err_key, reindex, tagged. simpl. rewrite Hc. destruct (key a); reflexivity.
Qed.

Lemma merge_rmse_columns (A : Type) (key : A -> Key) (df : list A)
    (out : Frame (A * ErrorRecord F)) (c : string) :
  snd (merge_rmse env key df) = inr out ->
  In c (model_columns out)
  <-> exists time_frame rows,
        In time_frame (timeframes (config env))
        /\ read_rmse_csv env (log_returns_pred (config env)) time_frame = inr rows
        /\ In c (model_columns rows).
Proof.
  intros Hout. apply merge_rmse_returns in Hout.
  destruct Hout as [rmse_df [Hrmse [Hcols _]]].
  rewrite Hcols. apply rmse_table_columns. exact Hrmse.
Qed.
End RmseTable.

(** X12 -- Without a configured time frame [merge_rmse] raises
    ValueError, whatever the table it is given: there is nothing to
    concatenate. *)
Theorem merge_rmse_no_time_frames (F R T : Type) (env : Env F R T) (A : Type)
    (key : A -> Key) (df : list A) :
  timeframes (config env) = [] ->
  merge_rmse env key df = ([], inl (ValueError "No objects to concatenate")).
Proof.
  intros Hnone. unfold merge_rmse, bind, lift, rmse_table. simpl.
  rewrite Hnone. reflexivity.
Qed.

Lemma merge_rmse_no_time_frames_witness :
  merge_rmse Cases.no_time_frames labeled_key Fixture.hurst
  = ([], inl (ValueError "No objects to concatenate")).
Proof. apply merge_rmse_no_time_frames. reflexivity. Defined.

(** X13 -- [merge_rmse] raises what the first failing read of an RMSE
    table raises, and returns no part of the join: the tables of the
    time frames before it were read for nothing. *)
Theorem merge_rmse_read_failure (F R T : Type) (env : Env F R T) (A : Type)
    (key : A -> Key) (df : list A) (before after : list string) (time_frame : string)
    (e : exn) :
  timeframes (config env) = before ++ time_frame :: after ->
  Forall (fun t => exists rows,
            read_rmse_csv env (log_returns_pred (config env)) t = inr rows) before ->
  read_rmse_csv env (log_returns_pred (config env)) time_frame = inl e ->
  merge_rmse env key df = ([], inl e).
Proof.
  intros Htf Hbefore Hread. unfold merge_rmse, bind, lift, rmse_table. simpl.
  rewrite Htf, (@rmap_raises _ _ (rmse_frame env) before after time_frame e).
  - reflexivity.
  - apply Forall_forall. intros t Ht. rewrite Forall_forall in Hbefore.
    destruct (Hbefore t Ht) as [rows Hrows]. unfold rmse_frame. rewrite Hrows.
    simpl. eexists. reflexivity.
  - unfold rmse_frame. rewrite Hread. reflexivity.
Qed.

Lemma merge_rmse_read_failure_witness :
  merge_rmse Cases.two_time_frames labeled_key Fixture.hurst
  = ([], inl (FileNotFoundError "4h")).
Proof.
  apply (@merge_rmse_read_failure _ _ _ Cases.two_time_frames _ labeled_key Fixture.hurst
           ["1d"] [] "4h").
  - reflexivity.
  - constructor; [eexists; reflexivity | constructor].
  - reflexivity.
Defined.

(** X14 -- A row of the table [merge_rmse] returns is a row of the given
    table, of a configured time frame, with the errors that the RMSE
    table of that time frame has for its coin, laid out on the columns of
    the joined table; and each such combination is a row of the joined
    table.  The columns of the joined table are the columns of the RMSE
    tables of the configured time frames; a row of an RMSE table that has
    these columns, each once, keeps its cells as they are. *)
Theorem merge_rmse_rows (F R T : Type) (env : Env F R T) (A : Type) (key : A -> Key)
    (df : list A) (out : Frame (A * ErrorRecord F)) :
  snd (merge_rmse env key df) = inr out ->
  (forall a e,
     In (a, e) out
     <-> In a df
         /\ In (snd (key a)) (timeframes (config env))
         /\ exists rows r,
              read_rmse_csv env (log_returns_pred (config env)) (snd (key a)) = inr rows
              /\ In r rows /\ rmse_index r = fst (key a)
              /\ e = reindex env (model_columns out) (model_columns rows)
                             (tagged (snd (key a)) r))
  /\ (forall c,
        In c (model_columns out)
        <-> exists time_frame rows,
              In time_frame (timeframes (config env))
              /\ read_rmse_csv env (log_returns_pred (config env)) time_frame = inr rows
              /\ In c (model_columns rows))
  /\ (forall (rows : Frame (RmseRecord F)) r time_frame,
        model_columns rows = model_columns out -> NoDup (model_columns out) ->
        map fst (rmse_values r) = model_columns rows ->
        reindex env (model_columns out) (model_columns rows) (tagged time_frame r)
        = tagged time_frame r).
Proof.
  intros Hout. split; [|split].
  - intros a e. apply (In_merge_rmse env key df a e Hout).
  - intros c. apply (merge_rmse_columns env key df c Hout).
  - intros rows r time_frame Hcols Hnd Hcells. rewrite Hcols.
    apply reindex_regular; [rewrite <- Hcols; exact Hcells | exact Hnd].
Qed.

Lemma merge_rmse_rows_witness :
  In (labeled_row ("BTC", "1d") "trend",
      tagged "1d" {| rmse_index := "BTC"; rmse_values := [("ARIMA", 5 # 100)] |})
     (Fixture.joined Fixture.labeled_pairs).
Proof.
  apply (proj1 (@merge_rmse_rows _ _ _ Fixture.env _ labeled_key Fixture.labeled_pairs
                  (Fixture.joined Fixture.labeled_pairs) eq_refl)).
  split; [left; reflexivity|]. split; [left; reflexivity|].
  exists Fixture.rmse, {| rmse_index := "BTC"; rmse_values := [("ARIMA", 5 # 100)] |}.
  repeat split. left. reflexivity.
Defined.

Section LeftRows.
Context {K : Type} `{GroupKeyLaws K}.
Variables A B : Type.
Variable ka : A -> K.
Variable kb : B -> K.

Lemma existsb_select (k : K) (right : list B) :
  existsb (fun b => key_eqb (kb b) k) right = true <-> Pandas.select kb k right <> [].
Proof.
  unfold Pandas.select. induction right as [|b t IH]; simpl.
  - split; [discriminate | intros Hn; contradiction].
  - destruct (key_eqb (kb b) k); simpl; [split; [discriminate | reflexivity] | exact IH].
Qed.

(** With distinct keys on the right, the left rows of an inner merge are
    the left rows that have a partner, in their order. *)
Lemma merge_inner_left_rows (left : list A) (right : list B) :
  NoDup (map kb right) ->
  map fst (Pandas.merge_inner ka kb left right)
  = filter (fun a => existsb (fun b => key_eqb (kb b) (ka a)) right) left.
Proof.
  intros Hnd. unfold Pandas.merge_inner.
  induction left as [|a t IH]; simpl; [reflexivity|].
  rewrite map_app, IH, map_map. simpl.
  pose proof (select_length_NoDup kb (ka a) right Hnd) as Hlen.
  pose proof (existsb_select (ka a) right) as Hex.
  destruct (Pandas.select kb (ka a) right) as [|b [|b' rest]]; simpl in Hlen |- *.
  - destruct (existsb (fun b => key_eqb (kb b) (ka a)) right); [|reflexivity].
    exfalso. apply (proj1 Hex); reflexivity.
  - rewrite (proj2 Hex); [reflexivity | discriminate].
  - lia.
Qed.
End LeftRows.

(** X15 -- A pair with [m] rows in the given table and [n] rows in the
    concatenated RMSE table has [m * n] rows in the table [merge_rmse]
    returns. *)
Theorem merge_rmse_group_size (F R T : Type) (env : Env F R T) (A : Type) (key : A -> Key)
    (df : list A) (out : Frame (A * ErrorRecord F)) :
  snd (merge_rmse env key df) = inr out ->
  exists rmse_df,
    rmse_table env = inr rmse_df
    /\ forall k,
         length (Pandas.select (fun p => key (fst p)) k out)
         = (length (Pandas.select key k df)
            * length (Pandas.select (@err_key F) k rmse_df))%nat.
Proof.
  intros Hout. apply merge_rmse_returns in Hout.
  destruct Hout as [rmse_df [Hrmse [_ Hrows]]].
  exists rmse_df. split; [exact Hrmse|]. intros k. rewrite Hrows.
  apply merge_inner_group_size.
Qed.

Lemma merge_rmse_group_size_witness :
  exists out,
    snd (merge_rmse Fixture.env labeled_key Fixture.repeated_pair) = inr out
    /\ length (Pandas.select (fun p : LabeledRecord * ErrorRecord Q => labeled_key (fst p))
                 ("BTC", "1d") out) = 3%nat.
Proof.
  eexists. split; [reflexivity|].
  destruct (@merge_rmse_group_size _ _ _ Fixture.env _ labeled_key Fixture.repeated_pair
              _ eq_refl) as [rmse_df [Hrmse Hsize]].
  etransitivity; [exact (Hsize ("BTC", "1d"))|].
  inversion Hrmse. reflexivity.
Defined.

(** X16 -- When no pair is repeated in the concatenated RMSE table, the
    rows of the given table that [merge_rmse] keeps are those whose pair
    has an error row, once each and in the order of the given table. *)
Theorem merge_rmse_keeps_order (F R T : Type) (env : Env F R T) (A : Type) (key : A -> Key)
    (df : list A) (rmse_df : Frame (ErrorRecord F)) :
  rmse_table env = inr rmse_df ->
  NoDup (map (@err_key F) rmse_df) ->
  exists out,
    merge_rmse env key df = ([], inr out)
    /\ map fst out
       = filter (fun a => existsb (fun e => key_eqb (err_key e) (key a)) rmse_df) df.
Proof.
  intros Hrmse Hnd. eexists. split; [apply merge_rmse_loaded; exact Hrmse|].
  cbn [frame_rows]. apply merge_inner_left_rows. exact Hnd.
Qed.

Lemma merge_rmse_keeps_order_witness :
  exists out,
    merge_rmse Fixture.env labeled_key Fixture.labeled_pairs = ([], inr out)
    /\ map fst out = [labeled_row ("BTC", "1d") "trend"; labeled_row ("ETH", "1d") "no trend"].
Proof.
  destruct (@merge_rmse_keeps_order _ _ _ Fixture.env _ labeled_key Fixture.labeled_pairs
              Fixture.errors eq_refl) as [out [Hrun Hrows]].
  - repeat constructor; simpl; intuition discriminate.
  - exists out. split; [exact Hrun|]. rewrite Hrows. reflexivity.
Defined.

(** ** The groups of a comparison *)

Lemma rmap_app (A B : Type) (f : A -> result B) (l1 l2 : list A) (y1 y2 : list B) :
  rmap f l1 = ok y1 -> rmap f l2 = ok y2 -> rmap f (l1 ++ l2) = ok (y1 ++ y2).
Proof.
  revert y1. induction l1 as [|x t IH]; simpl; intros y1 H1 H2.
  - inversion H1. exact H2.
  - destruct (f x) as [e | y]; simpl in H1 |- *; [discriminate|].
    destruct (rmap f t) as [e | ys] eqn:Ht; simpl in H1; [discriminate|].
    inversion H1; subst. rewrite (IH ys eq_refl H2). reflexivity.
Qed.

Lemma rmap_perm (A B : Type) (f : A -> result B) (l l' : list A) :
  Permutation l l' ->
  forall ys, rmap f l = ok ys -> exists ys', rmap f l' = ok ys' /\ Permutation ys ys'.
Proof.
  induction 1 as [|x l l' _ IH|x y l|l l' l'' _ IH1 _ IH2]; intros ys Hys.
  - exists ys. split; [exact Hys | reflexivity].
  - simpl in Hys |- *. destruct (f x) as [e | v]; simpl in Hys |- *; [discriminate|].
    destruct (rmap f l) as [e | vs] eqn:Hl; simpl in Hys; [discriminate|].
    inversion Hys; subst. destruct (IH vs eq_refl) as [vs' [Hvs' Hp]].
    rewrite Hvs'. simpl. exists (v :: vs'). split; [reflexivity | constructor; exact Hp].
  - simpl in Hys |- *. destruct (f y) as [e | v]; simpl in Hys |- *; [discriminate|].
    destruct (f x) as [e | w]; simpl in Hys |- *; [discriminate|].
    destruct (rmap f l) as [e | vs]; simpl in Hys |- *; [discriminate|].
    inversion Hys; subst. exists (w :: v :: vs). split; [reflexivity | apply perm_swap].
  - destruct (IH1 ys Hys) as [ys' [Hys' Hp]]. destruct (IH2 ys' Hys') as [ys'' [Hys'' Hp']].
    exists ys''. split; [exact Hys'' | etransitivity; eassumption].
Qed.


Lemma filter_exclusive (A : Type) (p q : A -> bool) (l : list A) :
  (forall x, p x = true -> q x = false) ->
  Permutation (filter p l ++ filter q l) (filter (fun x => p x || q x) l).
Proof.
  intros Hpq. induction l as [|x t IH]; simpl; [constructor|].
  destruct (p x) eqn:Hp; simpl.
  - rewrite (Hpq x Hp). constructor. exact IH.
  - destruct (q x); simpl.
    + symmetry. etransitivity; [|apply Permutation_middle]. constructor. symmetry. exact IH.
    + exact IH.
Qed.

Lemma filter_all (A : Type) (p : A -> bool) (l : list A) :
  (forall x, In x l -> p x = true) -> filter p l = l.
Proof.
  induction l as [|x t IH]; simpl; intros Hp; [reflexivity|].
  rewrite (Hp x (or_introl eq_refl)). f_equal. apply IH. intros y Hy. apply Hp. right. exact Hy.
Qed.

(** The rows of a table, gathered label by label. *)
Lemma rows_by_label (A : Type) (label : A -> string) (df : list A) (labels : list string) :
  NoDup labels ->
  Permutation (flat_map (fun l => filter (fun r => String.eqb (label r) l) df) labels)
              (filter (fun r => existsb (String.eqb (label r)) labels) df).
Proof.
  induction labels as [|l t IH]; intros Hnd; simpl.
  - induction df as [|x df IHdf]; simpl; [constructor | exact IHdf].
  - inversion Hnd as [|? ? Hl Ht]; subst.
    etransitivity; [apply Permutation_app_head; apply IH; exact Ht|].
    apply filter_exclusive. intros x Hx. apply String.eqb_eq in Hx.
    destruct (existsb (String.eqb (label x)) t) eqn:Hex; [|reflexivity].
    apply existsb_exists in Hex. destruct Hex as [l' [Hl' E]].
    apply String.eqb_eq in E. exfalso. apply Hl. rewrite <- Hx, E. exact Hl'.
Qed.

Lemma rows_by_unique_label (A : Type) (label : A -> string) (df : list A) :
  Permutation
    (flat_map (fun l => filter (fun r => String.eqb (label r) l) df)
              (Pandas.unique (map label df)))
    df.
Proof.
  etransitivity; [apply rows_by_label; apply NoDup_unique|].
  rewrite filter_all; [reflexivity|].
  intros x Hx. apply existsb_exists. exists (label x).
  split; [|apply String.eqb_refl].
  apply (proj2 (In_unique (map label df) (label x))). apply in_map. exact Hx.
Qed.

Section Groups.
Variable F : Type.
Variable A : Type.
Variable label : A -> string.
Variable model : string.


Lemma model_column_length (rows : list (A * ErrorRecord F)) (column : list F) :
  model_column model rows = inr column -> length column = length rows.
Proof.
  intros Hcol. apply rmap_ok in Hcol. symmetry. eapply Forall2_length. exact Hcol.
Qed.



(** [df[model]] returns the cells of the rows when the table has the
    column. *)
Lemma error_column_returns (df : Frame (A * ErrorRecord F)) (column : list F) :
  error_column model df = inr column
  <-> In model (model_columns df) /\ model_column model df = inr column.
Proof.
  unfold error_column.
  destruct (existsb (String.eqb model) (model_columns df)) eqn:Hcol.
  - apply existsb_eqb_In in Hcol. tauto.
  - apply existsb_eqb_not_In in Hcol. split; [discriminate | tauto].
Qed.


Lemma groups_concat (df : list (A * ErrorRecord F)) (labels : list string)
    (groups : list (list F)) :
  Forall2 (fun l g => model_column model
                        (filter (fun r => String.eqb (label (fst r)) l) df) = ok g)
          labels groups ->
  model_column model
    (flat_map (fun l => filter (fun r => String.eqb (label (fst r)) l) df) labels)
  = ok (concat groups).
Proof.
  induction 1 as [|l g labels groups Hg _ IH]; simpl; [reflexivity|].
  apply rmap_app; assumption.
Qed.

(** The samples of a comparison, one per label of the table. *)
Lemma groups_of_samples (df : Frame (A * ErrorRecord F)) (groups : list (list F)) :
  groups_of label model df = inr groups ->
  Forall2 (fun l g => error_column model
                        (rows_where (fun r => String.eqb (label (fst r)) l) df) = inr g)
          (Pandas.unique (map (fun r => label (fst r)) df)) groups.
Proof. intros Hgroups. apply rmap_ok in Hgroups. exact Hgroups. Qed.

(** A table with rows has samples only if it has the column. *)
Lemma groups_of_has_column (df : Frame (A * ErrorRecord F)) (groups : list (list F)) :
  groups_of label model df = inr groups ->
  frame_rows df <> [] -> In model (model_columns df).
Proof.
  intros Hgroups Hrows. apply groups_of_samples in Hgroups.
  destruct (frame_rows df) as [|r rows] eqn:Edf; [contradiction|].
  cbn [map Pandas.unique] in Hgroups. inversion Hgroups as [|l g ls gs Hg _]; subst.
  apply error_column_returns in Hg. exact (proj1 Hg).
Qed.
End Groups.

Lemma groups_of_column (F A : Type) (label : A -> string) (model : string)
    (df : Frame (A * ErrorRecord F)) (groups : list (list F)) :
  groups_of label model df = inr groups ->
  exists column,
    model_column model df = inr column /\ Permutation (concat groups) column.
Proof.
  intros Hgroups. apply groups_of_samples in Hgroups.
  assert (Hrows : Forall2 (fun l g => model_column model
                     (filter (fun r => String.eqb (label (fst r)) l) df) = ok g)
                    (Pandas.unique (map (fun r => label (fst r)) df)) groups).
  { eapply Forall2_impl; [|exact Hgroups]. intros l g Hg.
    apply error_column_returns in Hg. exact (proj2 Hg). }
  apply groups_concat in Hrows.
  destruct (rmap_perm _ (rows_by_unique_label (fun r => label (fst r)) df) Hrows)
    as [column [Hcol Hperm]].
  exists column. split; [exact Hcol | exact Hperm].
Qed.

(** X17 -- The samples of a comparison partition the error column of the
    model: there is one sample per distinct label of the joined table, in
    the order in which the labels first appear, no sample is empty, and
    together the samples hold the errors of the column, each once. *)
Theorem groups_of_partition (F A : Type) (label : A -> string) (model : string)
    (df : Frame (A * ErrorRecord F)) (groups : list (list F)) :
  groups_of label model df = inr groups ->
  Forall2 (fun l g => error_column model
                        (rows_where (fun r => String.eqb (label (fst r)) l) df) = inr g)
          (Pandas.unique (map (fun r => label (fst r)) df)) groups
  /\ Forall (fun g => g <> []) groups
  /\ exists column,
       model_column model df = inr column /\ Permutation (concat groups) column
       /\ (frame_rows df <> [] -> error_column model df = inr column).
Proof.
  intros Hgroups.
  destruct (groups_of_column _ _ _ Hgroups) as [column [Hcolumn Hperm]].
  pose proof (groups_of_has_column _ _ _ Hgroups) as Hhas.
  apply groups_of_samples in Hgroups.
  split; [exact Hgroups|]. split.
  - clear Hcolumn Hperm Hhas.
    assert (Hlabels : forall l, In l (Pandas.unique (map (fun r => label (fst r)) df)) ->
                                  In l (map (fun r => label (fst r)) df))
      by (intros l; apply (proj1 (In_unique _ l))).
    induction Hgroups as [|l g labels groups Hg _ IH]; constructor.
    + apply error_column_returns in Hg. destruct Hg as [_ Hg].
      cbn [rows_where frame_rows] in Hg.
      apply model_column_length in Hg. intros ->.
      specialize (Hlabels l (or_introl eq_refl)). apply in_map_iff in Hlabels.
      destruct Hlabels as [r [Hl Hr]].
      assert (Hin : In r (filter (fun r => String.eqb (label (fst r)) l) df))
        by (apply filter_In; split; [exact Hr | apply String.eqb_eq; exact Hl]).
      destruct (filter (fun r => String.eqb (label (fst r)) l) df); [contradiction|].
      discriminate Hg.
    + apply IH. intros l' Hl'. apply Hlabels. right. exact Hl'.
  - exists column. split; [exact Hcolumn|]. split; [exact Hperm|].
    intros Hrows. apply error_column_returns. split; [apply Hhas; exact Hrows | exact Hcolumn].
Qed.

Lemma groups_of_partition_witness :
  exists column,
    model_column "ARIMA" (Fixture.joined Fixture.hurst) = inr column
    /\ Permutation (concat [[5 # 100]; [10 # 100]]) column
    /\ (frame_rows (Fixture.joined Fixture.hurst) <> [] ->
        error_column "ARIMA" (Fixture.joined Fixture.hurst) = inr column).
Proof.
  apply (@groups_of_partition Q LabeledRecord Result "ARIMA"
           (Fixture.joined Fixture.hurst) [[5 # 100]; [10 # 100]]).
  vm_compute. reflexivity.
Defined.





(** ** The report of a loop over the models *)

Lemma filter_comm (A : Type) (p q : A -> bool) (l : list A) :
  filter p (filter q l) = filter q (filter p l).
Proof.
  induction l as [|x t IH]; simpl; [reflexivity|].
  destruct (p x) eqn:Hp, (q x) eqn:Hq; simpl; rewrite ?Hp, ?Hq, IH; reflexivity.
Qed.

Lemma unique_filter (p : string -> bool) (l : list string) :
  Pandas.unique (filter p l) = filter p (Pandas.unique l).
Proof.
  induction l as [|x t IH]; simpl; [reflexivity|].
  destruct (p x) eqn:Hp; simpl.
  - rewrite IH. f_equal. apply filter_comm.
  - rewrite IH. generalize (Pandas.unique t). intros u.
    induction u as [|y u IHu]; simpl; [reflexivity|].
    destruct (String.eqb_spec x y) as [<- | Hne]; simpl.
    + rewrite Hp. exact IHu.
    + destruct (p y); simpl; rewrite IHu; reflexivity.
Qed.

Lemma unique_dup (m : string) (l1 l2 : list string) :
  In m l1 -> Pandas.unique (l1 ++ m :: l2) = Pandas.unique (l1 ++ l2).
Proof.
  induction l1 as [|x t IH]; simpl; [tauto|].
  intros [-> | Hin].
  - f_equal. rewrite <- !unique_filter, !filter_app. simpl.
    rewrite String.eqb_refl. reflexivity.
  - rewrite (IH Hin). reflexivity.
Qed.

Lemma unique_NoDup (l : list string) : NoDup l -> Pandas.unique l = l.
Proof.
  induction l as [|x t IH]; simpl; intros Hnd; [reflexivity|].
  inversion Hnd as [|? ? Hx Ht]; subst. rewrite (IH Ht). f_equal.
  apply filter_all. intros y Hy. apply negb_true_iff. apply String.eqb_neq.
  intros ->. contradiction.
Qed.

Lemma dict_set_present (V : Type) (k : string) (v : V) (d : list (string * V)) :
  In k (map fst d) -> map fst (dict_set k v d) = map fst d.
Proof.
  induction d as [|[k' v'] rest IH]; cbn [map fst dict_set In]; [tauto|].
  intros Hin. destruct (String.eqb_spec k' k) as [-> | Hne]; cbn [map fst]; [reflexivity|].
  f_equal. apply IH. destruct Hin as [E | Hin]; [contradiction | exact Hin].
Qed.

Lemma dict_set_absent (V : Type) (k : string) (v : V) (d : list (string * V)) :
  ~ In k (map fst d) -> map fst (dict_set k v d) = map fst d ++ [k].
Proof.
  induction d as [|[k' v'] rest IH]; cbn [map fst dict_set In app]; [reflexivity|].
  intros Hout. destruct (String.eqb_spec k' k) as [E | Hne]; [exfalso; auto|].
  cbn [map fst]. f_equal. apply IH. tauto.
Qed.

Lemma In_dict_set (V : Type) (k : string) (v : V) (d : list (string * V)) (e : string * V) :
  In e (dict_set k v d) -> e = (k, v) \/ In e d.
Proof.
  induction d as [|[k' v'] rest IH]; simpl.
  - intros [<- | []]. left. reflexivity.
  - destruct (String.eqb_spec k' k) as [-> | Hne]; simpl.
    + intros [<- | Hin]; auto.
    + intros [<- | Hin]; [auto|]. destruct (IH Hin); auto.
Qed.

Section Reports.
Variables F R T : Type.
Variable env : Env F R T.

Lemma bind_fst (A B : Type) (m : M F R T A) (f : A -> M F R T B) :
  fst (bind m f)
  = fst m ++ match snd m with
             | inr a => fst (f a)
             | inl _ => []
             end.
Proof. unfold bind. destruct (snd m); simpl; [rewrite app_nil_r|]; reflexivity. Qed.

Lemma bind_snd (A B : Type) (m : M F R T A) (f : A -> M F R T B) :
  snd (bind m f)
  = match snd m with
    | inr a => snd (f a)
    | inl e => inl e
    end.
Proof. unfold bind. destruct (snd m); reflexivity. Qed.


Lemma tests_app (t1 t2 : list (event F R T)) : tests (t1 ++ t2) = tests t1 ++ tests t2.
Proof. unfold tests. apply flat_map_app. Qed.


Lemma for_models_tests_in (V : Type) (body : string -> M F R T V) (models : list string)
    (results : list (string * V)) (c : test_call F) :
  In c (tests (fst (for_models body models results))) ->
  exists m, In m models /\ In c (tests (fst (body m))).
Proof.
  revert results. induction models as [|m rest IH]; intros results; simpl; [tauto|].
  rewrite bind_fst, tests_app, in_app_iff. intros [Hin | Hin].
  - exists m. auto.
  - destruct (snd (body m)) as [e | v]; [contradiction|].
    destruct (IH _ Hin) as [m' [Hm' Hc]]. exists m'. auto.
Qed.

Lemma for_models_keys (V : Type) (body : string -> M F R T V) (models : list string)
    (acc results : list (string * V)) :
  snd (for_models body models acc) = inr results ->
  NoDup (map fst acc) ->
  map fst results = Pandas.unique (map fst acc ++ models).
Proof.
  revert acc. induction models as [|m rest IH]; intros acc Hrun Hnd.
  - simpl in Hrun. inversion Hrun; subst. rewrite app_nil_r.
    symmetry. apply unique_NoDup. exact Hnd.
  - simpl in Hrun. rewrite bind_snd in Hrun.
    destruct (snd (body m)) as [e | v]; [discriminate|].
    rewrite (IH _ Hrun).
    + destruct (in_dec string_dec m (map fst acc)) as [Hin | Hout].
      * rewrite (@dict_set_present _ m v acc Hin). symmetry. apply unique_dup. exact Hin.
      * rewrite (@dict_set_absent _ m v acc Hout), <- app_assoc. reflexivity.
    + destruct (in_dec string_dec m (map fst acc)) as [Hin | Hout].
      * rewrite (@dict_set_present _ m v acc Hin). exact Hnd.
      * rewrite (@dict_set_absent _ m v acc Hout).
        apply NoDup_app; [exact Hnd | constructor; [intros [] | constructor]|].
        intros x Hx [<- | []]. contradiction.
Qed.

Lemma for_models_values (V : Type) (body : string -> M F R T V) (models : list string)
    (acc results : list (string * V)) :
  snd (for_models body models acc) = inr results ->
  forall m v, In (m, v) results ->
              In (m, v) acc \/ (In m models /\ snd (body m) = inr v).
Proof.
  revert acc. induction models as [|m' rest IH]; intros acc Hrun m v Hin.
  - simpl in Hrun. inversion Hrun; subst. left. exact Hin.
  - simpl in Hrun. rewrite bind_snd in Hrun.
    destruct (snd (body m')) as [e | v'] eqn:Hbody; [discriminate|].
    destruct (IH _ Hrun m v Hin) as [Hacc | [Hm Hv]].
    + apply In_dict_set in Hacc. destruct Hacc as [E | Hacc]; [|left; exact Hacc].
      inversion E; subst. right. split; [left; reflexivity | exact Hbody].
    + right. split; [right; exact Hm | exact Hv].
Qed.
End Reports.

(** X19 -- The dictionary of results of a Mann-Whitney loop that ran to
    the end has one entry per distinct model of [config.all_models], in
    the order in which the models are first listed; the entry of a model
    holds what [mannwhitneyu] returned for the samples of that model. *)
Theorem results_per_model (F R T : Type) (env : Env F R T) (A : Type) (column : string)
    (label : A -> string) (df : Frame (A * ErrorRecord F)) (results : list (string * R)) :
  snd (mannwhitneyu_by env column label df) = inr results ->
  map fst results = Pandas.unique (all_models (config env))
  /\ forall model v,
       In (model, v) results ->
       In model (all_models (config env))
       /\ exists groups, groups_of label model df = inr groups
                         /\ mannwhitneyu env groups = inr v.
Proof.
  unfold mannwhitneyu_by. intros Hrun. split.
  - apply (for_models_keys _ _ _ Hrun). constructor.
  - intros model v Hin.
    destruct (for_models_values _ _ _ Hrun model v Hin) as [[] | [Hm Hv]].
    split; [exact Hm|]. rewrite bind_snd in Hv. unfold lift in Hv. simpl in Hv.
    destruct (groups_of label model df) as [e | groups]; [discriminate|].
    exists groups. split; [reflexivity | exact Hv].
Qed.

Lemma results_per_model_witness :
  exists results,
    snd (mannwhitneyu_by Cases.arima_twice "Result" Result (Fixture.joined Fixture.hurst))
    = inr results
    /\ map fst results = ["ARIMA"].
Proof.
  eexists. split; [vm_compute; reflexivity|].
  apply (@results_per_model _ _ _ Cases.arima_twice _ "Result" Result
           (Fixture.joined Fixture.hurst) [("ARIMA", tt)]).
  vm_compute. reflexivity.
Defined.

(** ** What is printed, and when *)

Section Printing.
Variables F R T : Type.
Variable env : Env F R T.




End Printing.



(** X21 -- [anova] prints as it goes: when [anova_lm] raises for a model,
    the tables of the models listed before it have been printed, one
    after each test, and the run ends with the exception. *)
Theorem anova_prints_as_it_goes (F R T : Type) (env : Env F R T)
    (df : Frame (LabeledRecord * ErrorRecord F)) (before after : list string)
    (model : string) (tables : string -> T) (e : exn) :
  all_models (config env) = before ++ model :: after ->
  (forall m, In m before -> anova_lm env (anova_formula m) df = inr (tables m)) ->
  anova_lm env (anova_formula model) df = inl e ->
  anova env df
  = (flat_map (fun m => [Test R T (AnovaLm F m (anova_formula m));
                         Print (PrintAnova F R m (tables m))]) before
     ++ [Test R T (AnovaLm F model (anova_formula model))],
     inl e).
Proof.
  intros Hmodels Hbefore Hmodel. unfold anova. rewrite Hmodels. clear Hmodels.
  induction before as [|m rest IH]; simpl.
  - unfold bind, call. simpl. rewrite Hmodel. reflexivity.
  - unfold bind at 1. unfold call at 1. simpl.
    rewrite (Hbefore m (or_introl eq_refl)). simpl.
    rewrite IH; [reflexivity|]. intros m' Hm'. apply Hbefore. right. exact Hm'.
Qed.

Lemma anova_prints_as_it_goes_witness :
  anova Cases.two_models (Fixture.joined Fixture.hurst)
  = ([Test unit unit (AnovaLm Q "ARIMA" (anova_formula "ARIMA"));
      Print (PrintAnova Q unit "ARIMA" tt);
      Test unit unit (AnovaLm Q "GARCH" (anova_formula "GARCH"))],
     inl (LibraryError "anova_lm")).
Proof.
  apply (@anova_prints_as_it_goes _ _ _ Cases.two_models (Fixture.joined Fixture.hurst)
           ["ARIMA"] ["ARIMA"] "GARCH"
           (fun _ => tt) (LibraryError "anova_lm")).
  - reflexivity.
  - intros m [<- | []]. reflexivity.
  - reflexivity.
Defined.

(** X22 -- [stochasticity] prints the counts of the labels before it
    reads the RMSE tables: when that read raises, the counts have been
    printed, no test was handed over and the exception ends the run. *)
Theorem stochasticity_counts_first (F R T : Type) (env : Env F R T)
    (df : list LabeledRecord) (e : exn) :
  read_labeled_csv env (csv env "hurst_log_returns") = inr df ->
  rmse_table env = inl e ->
  stochasticity env = ([Print (PrintValueCounts F R T (value_counts (map Result df)))], inl e).
Proof.
  intros Hread Hrmse. unfold stochasticity, bind, lift, merge_rmse, emit. simpl.
  rewrite Hread. simpl. unfold bind, lift. simpl. rewrite Hrmse. reflexivity.
Qed.

Lemma stochasticity_counts_first_witness :
  stochasticity Cases.no_time_frames
  = ([Print (PrintValueCounts Q unit unit [(Autocorrelated, 1%Z); (Not_Autocorrelated, 1%Z)])],
     inl (ValueError "No objects to concatenate")).
Proof.
  apply (@stochasticity_counts_first _ _ _ Cases.no_time_frames Fixture.hurst
           (ValueError "No objects to concatenate")); reflexivity.
Defined.

(** X23 -- Every regression that [seasonality] hands over is for a
    configured model, on the column of the model and the column of
    seasonal strengths of the table that [merge_rmse] returned for the
    seasonality file: one error and one seasonal strength per row of the
    joined table, row by row. *)
Theorem seasonality_samples (F R T : Type) (env : Env F R T) (model : string)
    (y x : list F) :
  In (Ols model y x) (tests (fst (seasonality env))) ->
  exists df joined,
    read_seasonality_csv env (csv env "stl_seasonality_log_returns") = inr df
    /\ snd (merge_rmse env (@seas_key F) df) = inr joined
    /\ In model (all_models (config env))
    /\ error_column model joined = inr y
    /\ x = map (fun r => Seasonal_Strength (fst r)) joined
    /\ Forall2 (fun r v => dict_get model (err_values (snd r)) = Some v) joined y
    /\ length y = length joined /\ length x = length joined.
Proof.
  unfold seasonality. rewrite bind_fst. simpl.
  destruct (read_seasonality_csv env _) as [e | df]; simpl; [tauto|].
  rewrite bind_fst, tests_app, merge_rmse_trace. simpl.
  destruct (snd (merge_rmse env (@seas_key F) df)) as [e | joined] eqn:Hjoined;
    simpl; [tauto|].
  rewrite bind_fst, tests_app, in_app_iff. intros [Hin | Hin].
  - apply for_models_tests_in in Hin. destruct Hin as [m [Hm Hin]].
    rewrite bind_fst in Hin. simpl in Hin.
    destruct (error_column m joined) as [e | column] eqn:Hcol; simpl in Hin; [contradiction|].
    destruct Hin as [E | []]. inversion E; subst.
    exists df, joined. split; [reflexivity|]. split; [exact Hjoined|].
    split; [exact Hm|]. split; [exact Hcol|]. split; [reflexivity|].
    apply error_column_returns in Hcol. destruct Hcol as [_ Hcol].
    split; [|split; [apply (model_column_length _ _ Hcol) | apply length_map]].
    apply rmap_ok in Hcol.
    eapply Forall2_impl; [|exact Hcol]. intros r v Hv. cbv beta in Hv.
    destruct (dict_get model (err_values (snd r))) as [w|]; [|discriminate Hv].
    inversion Hv. reflexivity.
  - destruct (snd (for_models _ _ _)); simpl in Hin; [contradiction|].
    destruct Hin.
Qed.

Lemma seasonality_samples_witness :
  exists df joined,
    read_seasonality_csv Cases.seasonal (csv Cases.seasonal "stl_seasonality_log_returns")
    = inr df
    /\ snd (merge_rmse Cases.seasonal (@seas_key Q) df) = inr joined
    /\ error_column "ARIMA" joined = inr [5 # 100; 10 # 100]
    /\ [3 # 10; 6 # 10] = map (fun r => Seasonal_Strength (fst r)) joined.
Proof.
  destruct (@seasonality_samples _ _ _ Cases.seasonal "ARIMA"
              [5 # 100; 10 # 100] [3 # 10; 6 # 10])
    as [df [joined [Hread [Hjoined [_ [Hy [Hx _]]]]]]].
  - vm_compute. left. reflexivity.
  - exists df, joined. auto.
Defined.




(** X24 -- Every comparison that a Mann-Whitney loop hands over is for a
    configured model and the column of the loop, and has as many samples
    as the joined table has distinct labels: none for an empty table,
    one, two or more otherwise. *)
Theorem mannwhitneyu_samples (F R T : Type) (env : Env F R T) (A : Type) (column : string)
    (label : A -> string) (df : Frame (A * ErrorRecord F)) (c : test_call F) :
  In c (tests (fst (mannwhitneyu_by env column label df))) ->
  exists model groups,
    c = Mannwhitneyu model column groups
    /\ In model (all_models (config env))
    /\ groups_of label model df = inr groups
    /\ length groups = length (Pandas.unique (map (fun r => label (fst r)) df)).
Proof.
  unfold mannwhitneyu_by. intros Hin. apply for_models_tests_in in Hin.
  destruct Hin as [m [Hm Hin]]. rewrite bind_fst in Hin. simpl in Hin.
  destruct (groups_of label m df) as [e | groups] eqn:Hg; simpl in Hin; [contradiction|].
  destruct Hin as [<- | []]. exists m, groups. split; [reflexivity|]. split; [exact Hm|].
  split; [exact Hg|]. unfold groups_of in Hg. apply rmap_ok in Hg.
  symmetry. eapply Forall2_length. exact Hg.
Qed.

Lemma mannwhitneyu_samples_witness :
  (exists model groups,
     Mannwhitneyu "ARIMA" "Result" ([] : list (list Q)) = Mannwhitneyu model "Result" groups
     /\ In model (all_models (config Fixture.env))
     /\ groups_of Result model (Fixture.joined []) = inr groups
     /\ length groups = 0%nat)
  /\ (exists model groups,
       Mannwhitneyu "ARIMA" "Result" [[5 # 100]; [10 # 100]]
       = Mannwhitneyu model "Result" groups
       /\ In model (all_models (config Fixture.env))
       /\ groups_of Result model (Fixture.joined Fixture.hurst) = inr groups
       /\ length groups = 2%nat).
Proof.
  split.
  - apply (@mannwhitneyu_samples _ _ _ Fixture.env _ "Result" Result (Fixture.joined [])
             (Mannwhitneyu "ARIMA" "Result" [])).
    left. reflexivity.
  - apply (@mannwhitneyu_samples _ _ _ Fixture.env _ "Result" Result
             (Fixture.joined Fixture.hurst)
             (Mannwhitneyu "ARIMA" "Result" [[5 # 100]; [10 # 100]])).
    left. reflexivity.
Defined.

(** X25 -- When the read of the RMSE tables raises, the seasonality and
    the two heteroskedasticity analyses raise the same exception after the
    read of their own file, without a test and without a print, and so
    does the trend analysis on a trend table with rows.  On a trend table
    without rows the trend analysis raises AttributeError before it reads
    the RMSE tables. *)
Theorem rmse_failure_stops_analysis (F R T : Type) (env : Env F R T) (e : exn) :
  rmse_table env = inl e ->
  (forall df, read_trend_csv env (csv env "trend_results_log_returns") = inr df ->
              df <> [] -> trend env = ([], inl e))
  /\ (read_trend_csv env (csv env "trend_results_log_returns") = inr [] ->
      trend env
      = ([], inl (AttributeError "Can only use .str accessor with string values!")))
  /\ (forall df, read_seasonality_csv env (csv env "stl_seasonality_log_returns") = inr df ->
                 seasonality env = ([], inl e))
  /\ (forall df,
        read_het_csv env (csv env "unconditional_heteroskedasticity_log_returns") = inr df ->
        heteroskedasticity env = ([], inl e))
  /\ (forall df, read_labeled_csv env (csv env "cond_heteroskedasticity_log_returns") = inr df ->
                 cond_het env = ([], inl e)).
Proof.
  intros Hrmse.
  assert (Hmerge : forall (A : Type) (key : A -> Key) (df : list A),
            merge_rmse env key df = ([], inl e)).
  { intros A key df. unfold merge_rmse, bind, lift. simpl. rewrite Hrmse. reflexivity. }
  split; [|split; [|repeat split]].
  - intros df Hread Hrows.
    unfold trend. rewrite (@bind_return _ _ _ _ _ _ _ df); [|unfold lift; rewrite Hread; reflexivity].
    destruct (trend_table_total Hrows) as [labeled Hlabeled].
    rewrite (@bind_return _ _ _ _ _ _ _ labeled); [|unfold lift; rewrite Hlabeled; reflexivity].
    apply bind_raise. apply Hmerge.
  - intros Hread.
    unfold trend. rewrite (@bind_return _ _ _ _ _ _ _ []); [|unfold lift; rewrite Hread; reflexivity].
    apply bind_raise. reflexivity.
  - intros df Hread. unfold seasonality.
    rewrite (@bind_return _ _ _ _ _ _ _ df); [|unfold lift; rewrite Hread; reflexivity].
    apply bind_raise. apply Hmerge.
  - intros df Hread. unfold heteroskedasticity, uncon_het.
    rewrite (@bind_return _ _ _ _ _ _ _ df); [|unfold lift; rewrite Hread; reflexivity].
    apply bind_raise. apply Hmerge.
  - intros df Hread. unfold cond_het.
    rewrite (@bind_return _ _ _ _ _ _ _ df); [|unfold lift; rewrite Hread; reflexivity].
    apply bind_raise. apply Hmerge.
Qed.

Lemma rmse_failure_stops_analysis_witness :
  trend Cases.no_time_frames = ([], inl (ValueError "No objects to concatenate")).
Proof.
  apply (proj1 (@rmse_failure_stops_analysis _ _ _ Cases.no_time_frames
                  (ValueError "No objects to concatenate") eq_refl)
               Fixture.trend_results).
  - reflexivity.
  - discriminate.
Defined.

(** ** The order of the runs in a result file *)

Lemma filter_perm (A : Type) (p : A -> bool) (l l' : list A) :
  Permutation l l' -> Permutation (filter p l) (filter p l').
Proof.
  induction 1 as [|x l l' _ IH|x y l|l l' l'' _ IH1 _ IH2]; simpl.
  - constructor.
  - destruct (p x); [constructor|]; exact IH.
  - destruct (p x), (p y); try reflexivity. apply perm_swap.
  - etransitivity; eassumption.
Qed.

Lemma outcome_count_perm (outcome : string) (k : Key) (df df' : list DiagnosticRecord) :
  Permutation df df' -> outcome_count outcome k df = outcome_count outcome k df'.
Proof.
  intros Hp. unfold outcome_count. f_equal. apply Permutation_length.
  apply filter_perm. exact Hp.
Qed.

Lemma reduced_table_perm (df df' : list DiagnosticRecord) (r : PredominantlyRecord) :
  Permutation df df' -> In r (reduced_table df) -> In r (reduced_table df').
Proof.
  intros Hp. rewrite <- (pred_row_eta r), !In_reduced_table.
  rewrite (outcome_count_perm Autocorrelated (pred_key r) Hp).
  intros [Hk Hl]. split; [|exact Hl].
  eapply Permutation_in; [apply Permutation_map; exact Hp | exact Hk].
Qed.

(** X26 -- What [high_auto_cor] computes does not depend on the order of
    the runs in the file: on the same runs in another order it raises the
    same exception or returns a table with the same rows. *)
Theorem high_auto_cor_table_order (df df' : list DiagnosticRecord) :
  Permutation df df' ->
  (exists e, high_auto_cor_table df = raise e /\ high_auto_cor_table df' = raise e)
  \/ exists out out',
       high_auto_cor_table df = ok out /\ high_auto_cor_table df' = ok out'
       /\ forall r, In r out <-> In r out'.
Proof.
  intros Hp.
  assert (Hsame : forall c, In c (map diag_result df) <-> In c (map diag_result df')).
  { intros c. split; apply Permutation_in; apply Permutation_map;
      [exact Hp | symmetry; exact Hp]. }
  destruct (plain_outcomes_dec df) as [[Ht Hc] | [Ht | [Ht Hc]]].
  - assert (Hplain : plain_outcomes df) by (split; assumption).
    assert (Hplain' : plain_outcomes df') by (split; rewrite <- Hsame; assumption).
    destruct (in_dec string_dec Autocorrelated (map diag_result df)) as [Hcol | Hcol].
    + right. exists (reduced_table df), (reduced_table df').
      split; [apply high_auto_cor_table_ok; assumption|]. split.
      * apply high_auto_cor_table_ok; [exact Hplain'|]. apply Hsame. exact Hcol.
      * intros r. split; apply reduced_table_perm; [exact Hp | symmetry; exact Hp].
    + left. exists (KeyError Autocorrelated).
      split; apply high_auto_cor_table_KeyError; try assumption.
      rewrite <- Hsame. exact Hcol.
  - left. exists (ValueError "cannot insert Time Frame, already exists").
    unfold high_auto_cor_table.
    rewrite (pivot_df_time_frame _ Ht), (pivot_df_time_frame _ (proj1 (Hsame _) Ht)).
    split; reflexivity.
  - left. exists (ValueError "cannot insert Coin, already exists").
    unfold high_auto_cor_table.
    rewrite (pivot_df_coin _ Ht Hc).
    rewrite (@pivot_df_coin df'); [split; reflexivity | | apply Hsame; exact Hc].
    rewrite <- Hsame. exact Ht.
Qed.

Lemma high_auto_cor_table_order_witness :
  exists out out',
    high_auto_cor_table Fixture.ljung_box = ok out
    /\ high_auto_cor_table (rev Fixture.ljung_box) = ok out'
    /\ forall r, In r out <-> In r out'.
Proof.
  destruct (@high_auto_cor_table_order Fixture.ljung_box (rev Fixture.ljung_box)
              (Permutation_rev Fixture.ljung_box)) as [[e [Hraise _]] | Hsame].
  - vm_compute in Hraise. discriminate Hraise.
  - exact Hsame.
Defined.

(** ** The counts that stochasticity prints *)

Lemma insert_count_perm (e : string * Z) (l : list (string * Z)) :
  Permutation (insert_count e l) (e :: l).
Proof.
  induction l as [|x t IH]; simpl; [reflexivity|].
  destruct (snd x <=? snd e)%Z; [reflexivity|].
  rewrite IH. apply perm_swap.
Qed.

Lemma insert_count_sorted (e : string * Z) (l : list (string * Z)) :
  StronglySorted (fun a b => (snd b <= snd a)%Z) l ->
  StronglySorted (fun a b => (snd b <= snd a)%Z) (insert_count e l).
Proof.
  induction 1 as [|x t Ht IH Hx]; simpl.
  - constructor; constructor.
  - destruct (Z.leb_spec (snd x) (snd e)) as [Hle | Hgt].
    + constructor; [constructor; assumption|].
      constructor; [exact Hle|]. rewrite Forall_forall in Hx |- *.
      intros y Hy. specialize (Hx y Hy). lia.
    + constructor; [exact IH|]. rewrite Forall_forall in Hx |- *.
      intros y Hy. apply (Permutation_in _ (insert_count_perm e t)) in Hy.
      destruct Hy as [<- | Hy]; [lia | apply Hx; exact Hy].
Qed.

Lemma select_count_occ (column : list string) (v : string) :
  length (Pandas.select (fun x : string => x) v column) = count_occ string_dec column v.
Proof.
  unfold Pandas.select. cbn [key_eqb string_key].
  induction column as [|x t IH]; [reflexivity|].
  cbn [filter count_occ].
  destruct (String.eqb_spec x v) as [-> | Hne].
  - destruct (string_dec v v) as [_ | Hn]; [|contradiction].
    cbn [length]. rewrite IH. reflexivity.
  - destruct (string_dec x v) as [E | _]; [contradiction | exact IH].
Qed.

(** X27 -- The counts that [stochasticity] prints list each label of the
    column once, with the number of rows that have it, and no label comes
    before a more frequent one. *)
Theorem value_counts_listing (column : list string) :
  (forall v n, In (v, n) (value_counts column)
               <-> In v column /\ n = Z.of_nat (count_occ string_dec column v))
  /\ NoDup (map fst (value_counts column))
  /\ StronglySorted (fun a b => (snd b <= snd a)%Z) (value_counts column).
Proof.
  unfold value_counts.
  set (counted := map (fun v => (v, Z.of_nat (length (Pandas.select (fun x => x) v column))))
                      (Pandas.unique column)).
  assert (Hperm : Permutation (fold_right insert_count [] counted) counted).
  { induction counted as [|e t IH]; simpl; [constructor|].
    rewrite insert_count_perm. constructor. exact IH. }
  split; [|split].
  - intros v n. split.
    + intros Hin. apply (Permutation_in _ Hperm) in Hin. unfold counted in Hin.
      apply in_map_iff in Hin. destruct Hin as [v' [E Hv']]. inversion E; subst.
      split; [apply (proj1 (In_unique column v)); exact Hv'|].
      rewrite select_count_occ. reflexivity.
    + intros [Hv ->]. apply (Permutation_in _ (Permutation_sym Hperm)).
      unfold counted. apply in_map_iff. exists v.
      split; [rewrite select_count_occ; reflexivity|].
      apply (proj2 (In_unique column v)). exact Hv.
  - eapply Permutation_NoDup; [apply Permutation_map; symmetry; exact Hperm|].
    unfold counted. rewrite map_map. simpl. rewrite map_id. apply NoDup_unique.
  - clear Hperm. induction counted as [|e t IH]; simpl; [constructor|].
    apply insert_count_sorted. exact IH.
Qed.
